(** * DomaGuardian: the payment ledger, the request logs and the domain registry

    A shallow embedding of the Solidity contracts of the repository
    ([DToken], [ContractAnalysis], [Tokenomics], [Monitoring], [Universal],
    [DomainManagement]) and the properties of their state machines.

    Conventions of the embedding:
    - a [uint256] is a [Z] in [0, MAX_UINT256]; Solidity 0.8 arithmetic is
      checked, so [+] and [-] that leave the range revert with [Panic 0x11];
    - an [address] is a [Z]; [address(0)] is [0];
    - a [mapping(K => V)] is a [gmap K V] read through [mget] with the zero
      value of [V] as default, as the EVM does;
    - a dynamic array is a [list]; [push] appends at the end;
    - an external or public function is a function from the call context
      [env] and the contract's storage to a [result]: [Ok] carries the new
      storage and the effects of the call in order, [Revert] carries the
      error, and the storage of a reverted call is the storage before it;
    - a function that is not [payable] rejects a call that carries value
      before any of its modifiers runs ([nonpayable]);
    - a transfer of native currency passes the control to its recipient,
      which can call the ledger back before the transfer returns
      ([reentry], [DToken.reenter]). *)

From stdpp Require Import base numbers list gmap strings.
From Stdlib Require Import ZArith Lia.

Local Open Scope Z_scope.

(** ** Values *)

Abbreviation address := Z (only parsing).

Definition MAX_UINT256 : Z := 2 ^ 256 - 1.

(** [bytes(s).length == 0] *)
Definition is_empty (s : string) : bool := Nat.eqb (String.length s) 0.

(** [keccak256(bytes(a)) == keccak256(bytes(b))]: equality of the two
    strings (the hash is taken to be injective). *)
Definition keccak_eq (a b : string) : bool := bool_decide (a = b).

(** ** Errors and results *)

Inductive error : Type :=
  (* DToken *)
  | UnauthorizedContract
  | InsufficientPayment
  | InvalidAmount
  | TransferFailed
  | ContractNotAuthorized
  (* Universal *)
  | InvalidRecipient
  | InvalidMessage
  (* ContractAnalysis, Tokenomics, Monitoring *)
  | InvalidContractAddress
  | InvalidTokenAddress
  | MonitoringNotActive
  (* DomainManagement *)
  | DomainNotExists
  | DomainAlreadyTokenized
  | NotDomainOwner
  | InvalidDomainName
  | RightNotExists
  | RightExpired
  (* require(cond, reason) *)
  | Error (reason : string)
  (* checked arithmetic (0x11) and array bounds (0x32) *)
  | Panic (code : Z)
  (* the imported access-control, reentrancy and transfer helpers *)
  | OwnableUnauthorizedAccount (account : address)
  | OwnableInvalidOwner (account : address)
  | ReentrancyGuardReentrantCall
  | FailedCall
  (* value sent to a function that is not payable: a revert without data *)
  | NonPayable.

Inductive result (A : Type) : Type :=
  | Ok (a : A)
  | Revert (e : error).
Arguments Ok {A} a.
Arguments Revert {A} e.

Global Instance result_ret : MRet result := fun A a => Ok a.
Global Instance result_bind : MBind result := fun A B f m =>
  match m with
  | Ok a => f a
  | Revert e => Revert e
  end.

(** [if (!cond) revert e;] *)
Definition require (cond : bool) (e : error) : result unit :=
  if cond then Ok () else Revert e.

Definition is_ok {A} (r : result A) : bool :=
  match r with Ok _ => true | Revert _ => false end.

(** Checked [uint256] arithmetic of Solidity 0.8. *)
Definition checked_add (a b : Z) : result Z :=
  if a + b <=? MAX_UINT256 then Ok (a + b) else Revert (Panic 17).

Definition checked_sub (a b : Z) : result Z :=
  if b <=? a then Ok (a - b) else Revert (Panic 17).

(** ** Mappings *)

Definition mget {K} `{Countable K} {V} (d : V) (m : gmap K V) (k : K) : V :=
  default d (m !! k).

(** ** The entry points of the ledger

    The entry points of [DToken] that change its storage.  They are named
    here, before the call context, because the recipient of a transfer made
    by the ledger can call them back before the transfer returns. *)

Module DTokenEntry.

Inductive call : Type :=
  | AuthorizeContract (contractAddress : address) (authorized : bool)
  | PayForFeature
  | UseFeature (user : address)
  | WithdrawETH (amount : Z)
  | Receive
  | Fallback
  | TransferOwnership (newOwner : address).

End DTokenEntry.

(** ** Call context and effects *)

Record env : Type := mkEnv {
  msg_sender : address;
  msg_value : Z;            (* a function that is not payable rejects a
                               call with a value other than 0 *)
  block_timestamp : Z;
  block_chainid : Z;
  call_succeeds : bool;     (* does the recipient of a value transfer made
                               by this call accept it *)
  reentry : list (address * Z * DTokenEntry.call)
                            (* the calls that this recipient makes back into
                               the ledger before it accepts: the caller, the
                               value and the entry point of each, in order *)
}.

(** A function that is not [payable] starts by rejecting a call that
    carries value, before any modifier runs. *)
Definition nonpayable (e : env) : result unit :=
  require (msg_value e =? 0) NonPayable.

(** What a call leaves in the transaction's trace: the events it emits,
    and the native currency it sends out ([Transfer], which is not an
    event of the contracts). *)
Inductive effect : Type :=
  | ContractAuthorized (contractAddress : address) (authorized : bool)
  | FeatureUsed (user contractAddress : address) (cost : Z)
  | PaymentReceived (user : address) (amount : Z)
  | PaymentWithdrawn (owner : address) (amount : Z)
  | MessageSent (sender recipient : address) (message : string) (payment : Z)
  | CrossChainMessageSent (sender : address) (destinationChain : Z)
      (recipient : address) (message : string)
  | ContractAnalysisRequested (user : address) (contractAddress : string)
      (payment : Z)
  | ContractAnalysisCompleted (user : address) (contractAddress : string)
      (riskScore : Z) (analysis : string)
  | TokenomicsAnalysisRequested (user : address) (tokenAddress : string)
      (payment : Z)
  | TokenomicsAnalysisCompleted (user : address) (tokenAddress : string)
      (healthScore : Z) (analysis : string)
  | MonitoringRequested (user : address) (tokenAddress : string) (payment : Z)
  | MonitoringSetup (user : address) (tokenAddress : string)
      (alertThreshold : Z)
  | AlertTriggered (user : address) (tokenAddress alertType : string)
      (value : Z)
  | DomainTokenized (domainName : string) (owner : address) (timestamp : Z)
  | DomainRightGranted (domainName rightName : string) (holder : address)
      (expiresAt : Z)
  | DomainRightRevoked (domainName rightName : string) (holder : address)
  | DomainTransferred (domainName : string) (from to : address)
  | DomainStateSync (domainName : string) (isActive : bool)
  | OwnershipTransferred (previousOwner newOwner : address)
  | Transfer (recipient : address) (amount : Z).

(** ** The inherited contracts

    Every contract of the repository inherits [Ownable] and
    [ReentrancyGuard]; a storage type that carries their fields is an
    instance of the two classes below. *)

Class Ownable (S : Type) : Type := {
  get_owner : S -> address;
  set_owner : address -> S -> S
}.

Class ReentrancyGuard (S : Type) : Type := {
  get_status : S -> bool;            (* true: ENTERED *)
  set_status : bool -> S -> S
}.

(** Modelled from the spec: the [onlyOwner] modifier of the imported
    Ownable contract, which is not under src/ ("privileged-owner-only": a
    single owner address per contract, compared with the caller on every
    privileged entry). *)
Definition onlyOwner {S} `{Ownable S} (e : env) (s : S) : result unit :=
  require (bool_decide (get_owner s = msg_sender e))
    (OwnableUnauthorizedAccount (msg_sender e)).

(** Modelled from the spec: the single-step ownership transfer of the
    imported Ownable contract, which is not under src/ ("the deployer,
    reassignable"). *)
Definition transferOwnership {S} `{Ownable S} (e : env) (newOwner : address)
    (s : S) : result (S * list effect) :=
  _ ← nonpayable e;
  _ ← onlyOwner e s;
  _ ← require (negb (newOwner =? 0)) (OwnableInvalidOwner 0);
  Ok (set_owner newOwner s, [OwnershipTransferred (get_owner s) newOwner]).

(** Modelled from the spec: the [nonReentrant] modifier of the imported
    ReentrancyGuard contract, which is not under src/ ("mark in-progress,
    reject nested entry, release on exit"). *)
Definition nonReentrant {S} `{ReentrancyGuard S} {A} (s : S)
    (body : S -> result (S * A)) : result (S * A) :=
  if get_status s then Revert ReentrancyGuardReentrantCall
  else '(s', a) ← body (set_status true s); Ok (set_status false s', a).

(** ** Loops and arrays *)

(** [for (uint256 i = start; i < stop; i++) body], for [n = stop - start]
    rounds. *)
Fixpoint for_loop {S} (n : nat) (i : Z) (body : Z -> S -> result S) (s : S)
    : result S :=
  match n with
  | O => Ok s
  | S n' => s' ← body i s; for_loop n' (i + 1) body s'
  end.

Definition for_range {S} (start stop : Z) (body : Z -> S -> result S) (s : S)
    : result S :=
  for_loop (Z.to_nat (stop - start)) start body s.

(** [a[i]] and [a[i] = x]: an index out of range reverts with [Panic 0x32]. *)
Definition array_get {A} (a : list A) (i : Z) : result A :=
  match a !! Z.to_nat i with
  | Some x => Ok x
  | None => Revert (Panic 50)
  end.

Definition array_set {A} (a : list A) (i : Z) (x : A) : result (list A) :=
  if i <? Z.of_nat (length a) then Ok (<[Z.to_nat i := x]> a)
  else Revert (Panic 50).

(** ** DToken: the payment ledger *)

Module DToken.

Include DTokenEntry.

(** [0.0001 ether], in wei. *)
Definition FEATURE_COST : Z := 100000000000000.

Record state : Type := mkState {
  _owner : address;                         (* Ownable *)
  _status : bool;                           (* ReentrancyGuard *)
  authorizedContracts : gmap address bool;
  userPayments : gmap address Z;
  userFeatureUsage : gmap address Z;
  balance : Z                               (* address(this).balance *)
}.

Definition set__owner (o : address) (s : state) : state :=
  mkState o (_status s) (authorizedContracts s) (userPayments s)
    (userFeatureUsage s) (balance s).
Definition set__status (b : bool) (s : state) : state :=
  mkState (_owner s) b (authorizedContracts s) (userPayments s)
    (userFeatureUsage s) (balance s).
Definition set_authorizedContracts (m : gmap address bool) (s : state) : state :=
  mkState (_owner s) (_status s) m (userPayments s) (userFeatureUsage s)
    (balance s).
Definition set_userPayments (m : gmap address Z) (s : state) : state :=
  mkState (_owner s) (_status s) (authorizedContracts s) m
    (userFeatureUsage s) (balance s).
Definition set_userFeatureUsage (m : gmap address Z) (s : state) : state :=
  mkState (_owner s) (_status s) (authorizedContracts s) (userPayments s) m
    (balance s).
Definition set_balance (b : Z) (s : state) : state :=
  mkState (_owner s) (_status s) (authorizedContracts s) (userPayments s)
    (userFeatureUsage s) b.

#[export] Instance ownable : Ownable state :=
  {| get_owner := _owner; set_owner := set__owner |}.
#[export] Instance guard : ReentrancyGuard state :=
  {| get_status := _status; set_status := set__status |}.

(** [constructor() Ownable(msg.sender)] *)
Definition constructor (e : env) : state :=
  mkState (msg_sender e) false ∅ ∅ ∅ 0.

(** Modelled from the spec: [sendValue] of the imported Address library,
    which is not under src/ ("transfers accumulated native-currency balance
    held by the ledger to the owner"), here for a recipient that makes no
    call back; the call reverts when the recipient does not accept the
    transfer. *)
Definition transfer (e : env) (recipient : address) (amount : Z)
    (s : state) : result (state * list effect) :=
  if balance s <? amount then Revert FailedCall
  else if call_succeeds e
       then Ok (set_balance (balance s - amount) s, [Transfer recipient amount])
       else Revert FailedCall.

(** A payable entry point starts with the value of the call added to the
    contract's balance. *)
Definition payable (e : env) (s : state) : state :=
  set_balance (balance s + msg_value e) s.

Definition onlyAuthorized (e : env) (s : state) : result unit :=
  require (mget false (authorizedContracts s) (msg_sender e))
    UnauthorizedContract.

Definition authorizeContract (e : env) (contractAddress : address)
    (authorized : bool) (s : state) : result (state * list effect) :=
  _ ← nonpayable e;
  _ ← onlyOwner e s;
  Ok (set_authorizedContracts
        (<[contractAddress := authorized]> (authorizedContracts s)) s,
      [ContractAuthorized contractAddress authorized]).

Definition payForFeature (e : env) (s : state) : result (state * list effect) :=
  nonReentrant (payable e s) (fun s =>
    _ ← require (msg_value e =? FEATURE_COST) InsufficientPayment;
    p ← checked_add (mget 0 (userPayments s) (msg_sender e)) (msg_value e);
    Ok (set_userPayments (<[msg_sender e := p]> (userPayments s)) s,
        [PaymentReceived (msg_sender e) (msg_value e)])).

Definition useFeature (e : env) (user : address) (s : state)
    : result (state * list effect) :=
  _ ← nonpayable e;
  _ ← onlyAuthorized e s;
  nonReentrant s (fun s =>
    _ ← require (negb (mget 0 (userPayments s) user <? FEATURE_COST))
          InsufficientPayment;
    p ← checked_sub (mget 0 (userPayments s) user) FEATURE_COST;
    let s := set_userPayments (<[user := p]> (userPayments s)) s in
    u ← checked_add (mget 0 (userFeatureUsage s) user) 1;
    let s := set_userFeatureUsage (<[user := u]> (userFeatureUsage s)) s in
    Ok (s, [FeatureUsed user (msg_sender e) FEATURE_COST])).

Definition hasFeaturePayment (s : state) (user : address) : bool :=
  FEATURE_COST <=? mget 0 (userPayments s) user.

Definition getFeatureCost : Z := FEATURE_COST.

Definition getUserPaymentBalance (s : state) (user : address) : Z :=
  mget 0 (userPayments s) user.

Definition getUserFeatureUsage (s : state) (user : address) : Z :=
  mget 0 (userFeatureUsage s) user.

(** [withdrawETH], given what the transfer at its end does. *)
Definition withdrawETH_by
    (send : env -> address -> Z -> state -> result (state * list effect))
    (e : env) (amount : Z) (s : state) : result (state * list effect) :=
  _ ← nonpayable e;
  _ ← onlyOwner e s;
  nonReentrant s (fun s =>
    let contractBalance := balance s in
    let amount := if amount =? 0 then contractBalance else amount in
    _ ← require (negb (contractBalance <? amount)) InvalidAmount;
    _ ← require (negb (amount =? 0)) InvalidAmount;
    '(s, sent) ← send e (_owner s) amount s;
    Ok (s, sent ++ [PaymentWithdrawn (_owner s) amount])).

Definition getContractBalance (s : state) : Z := balance s.

(** [receive() external payable] *)
Definition receive (e : env) (s : state) : result (state * list effect) :=
  let s := payable e s in
  p ← checked_add (mget 0 (userPayments s) (msg_sender e)) (msg_value e);
  Ok (set_userPayments (<[msg_sender e := p]> (userPayments s)) s,
      [PaymentReceived (msg_sender e) (msg_value e)]).

(** [fallback() external payable] *)
Definition fallback (e : env) (s : state) : result (state * list effect) :=
  let s := payable e s in
  p ← checked_add (mget 0 (userPayments s) (msg_sender e)) (msg_value e);
  Ok (set_userPayments (<[msg_sender e := p]> (userPayments s)) s,
      [PaymentReceived (msg_sender e) (msg_value e)]).

#[export] Instance call_eq_dec : EqDecision call.
Proof. solve_decision. Defined.

(** The entry points, given what the transfer at the end of [withdrawETH]
    does. *)
Definition step_by
    (send : env -> address -> Z -> state -> result (state * list effect))
    (e : env) (c : call) (s : state) : result (state * list effect) :=
  match c with
  | AuthorizeContract a b => authorizeContract e a b s
  | PayForFeature => payForFeature e s
  | UseFeature u => useFeature e u s
  | WithdrawETH amount => withdrawETH_by send e amount s
  | Receive => receive e s
  | Fallback => fallback e s
  | TransferOwnership o => transferOwnership e o s
  end.

(** The context of a call that the recipient of a transfer makes back, or
    has made back, during the call [e]. *)
Definition frame (e : env) (sender : address) (value : Z) : env :=
  mkEnv sender value (block_timestamp e) (block_chainid e) true [].

(** Modelled from the spec: the code of the recipient, which is not under
    src/ ("a currency-transfer side effect (in withdraw) can trigger
    attacker-controlled code before the function returns"), as the calls
    that it makes back into the ledger while it holds the control.  The
    recipient catches a call that reverts, which then leaves the storage as
    it was.  The ledger is in the middle of [withdrawETH], so a withdrawal
    called back stops at the guard and makes no transfer of its own
    ([step_by_entered] below). *)
Fixpoint reenter (e : env) (calls : list (address * Z * call)) (s : state)
    : state * list effect :=
  match calls with
  | [] => (s, [])
  | (sender, value, c) :: rest =>
      match step_by transfer (frame e sender value) c s with
      | Ok (s', evs) =>
          let '(s'', evs') := reenter e rest s' in (s'', evs ++ evs')
      | Revert _ => reenter e rest s
      end
  end.

(** Modelled from the spec: [sendValue] of the imported Address library,
    which is not under src/.  The amount leaves the ledger, the recipient
    runs and makes its calls back, and the call reverts when the recipient
    does not accept the transfer in the end. *)
Definition sendValue (e : env) (recipient : address) (amount : Z)
    (s : state) : result (state * list effect) :=
  if balance s <? amount then Revert FailedCall
  else if call_succeeds e
       then let '(s', evs) :=
              reenter e (reentry e) (set_balance (balance s - amount) s) in
            Ok (s', Transfer recipient amount :: evs)
       else Revert FailedCall.

Definition withdrawETH (e : env) (amount : Z) (s : state)
    : result (state * list effect) :=
  withdrawETH_by sendValue e amount s.

Definition step (e : env) (c : call) (s : state)
    : result (state * list effect) :=
  step_by sendValue e c s.

(** The storage after a call: a reverted call leaves it as it was. *)
Definition exec (e : env) (c : call) (s : state) : state :=
  match step e c s with
  | Ok (s', _) => s'
  | Revert _ => s
  end.

Fixpoint run (calls : list (env * call)) (s : state) : state :=
  match calls with
  | [] => s
  | (e, c) :: rest => run rest (exec e c s)
  end.

End DToken.

(** ** Calls between contracts *)

(** The context of a call that the contract at [self] makes to another
    contract during the call [e]: the caller is the contract, and no value
    is attached. *)
Definition call_from (self : address) (e : env) : env :=
  mkEnv self 0 (block_timestamp e) (block_chainid e) (call_succeeds e)
    (reentry e).

(** [arr.push(x)] on the array stored under [k]. *)
Definition push_at {K} `{Countable K} {V} (k : K) (x : V)
    (m : gmap K (list V)) : gmap K (list V) :=
  <[k := mget [] m k ++ [x]]> m.

(** ** ContractAnalysis: the contract-risk request log *)

Module ContractAnalysis.

Definition ANALYSIS_COST : Z := 100000000000000.

Record AnalysisRequest : Type := mkRequest {
  user : address;
  contractAddress : string;
  payment : Z;
  completed : bool;
  riskScore : Z;
  analysis : string;
  timestamp : Z
}.

Record state : Type := mkState {
  _owner : address;
  _status : bool;
  self : address;                            (* address(this) *)
  userRequests : gmap address (list AnalysisRequest)
}.

Definition set__owner (o : address) (s : state) : state :=
  mkState o (_status s) (self s) (userRequests s).
Definition set__status (b : bool) (s : state) : state :=
  mkState (_owner s) b (self s) (userRequests s).
Definition set_userRequests (m : gmap address (list AnalysisRequest))
    (s : state) : state :=
  mkState (_owner s) (_status s) (self s) m.

#[export] Instance ownable : Ownable state :=
  {| get_owner := _owner; set_owner := set__owner |}.
#[export] Instance guard : ReentrancyGuard state :=
  {| get_status := _status; set_status := set__status |}.

Definition constructor (e : env) (this : address) : state :=
  mkState (msg_sender e) false this ∅.

Definition requirePayment (e : env) (d : DToken.state) : result unit :=
  require (DToken.hasFeaturePayment d (msg_sender e)) InsufficientPayment.

Definition requestContractAnalysis (e : env) (contractAddress : string)
    (d : DToken.state) (s : state)
    : result (state * (DToken.state * list effect)) :=
  _ ← nonpayable e;
  _ ← requirePayment e d;
  nonReentrant s (fun s =>
    _ ← require (negb (is_empty contractAddress)) InvalidContractAddress;
    '(d, paid) ← DToken.useFeature (call_from (self s) e) (msg_sender e) d;
    let newRequest :=
      mkRequest (msg_sender e) contractAddress ANALYSIS_COST false 0 ""
        (block_timestamp e) in
    let s := set_userRequests
               (push_at (msg_sender e) newRequest (userRequests s)) s in
    Ok (s, (d, paid ++
               [ContractAnalysisRequested (msg_sender e) contractAddress
                  ANALYSIS_COST;
                PaymentReceived (msg_sender e) ANALYSIS_COST]))).

Definition completeAnalysis (e : env) (user : address) (requestIndex : Z)
    (riskScore : Z) (analysis : string) (s : state)
    : result (state * list effect) :=
  _ ← nonpayable e;
  _ ← onlyOwner e s;
  let requests := mget [] (userRequests s) user in
  _ ← require (requestIndex <? Z.of_nat (length requests))
        (Error "Invalid request index");
  r ← array_get requests requestIndex;
  _ ← require (negb (completed r)) (Error "Analysis already completed");
  let r' := mkRequest (ContractAnalysis.user r) (contractAddress r)
              (payment r) true riskScore analysis (timestamp r) in
  requests' ← array_set requests requestIndex r';
  Ok (set_userRequests (<[user := requests']> (userRequests s)) s,
      [ContractAnalysisCompleted user (contractAddress r') riskScore
         analysis]).

Definition getUserRequests (s : state) (user : address)
    : list AnalysisRequest :=
  mget [] (userRequests s) user.

Definition getFeatureCost : Z := ANALYSIS_COST.

(** The calls that change the storage of the log or of its ledger. *)
Inductive call : Type :=
  | RequestContractAnalysis (contractAddress : string)
  | CompleteAnalysis (user : address) (requestIndex riskScore : Z)
      (analysis : string)
  | TransferOwnership (newOwner : address)
  | Ledger (c : DToken.call).

Definition step (e : env) (c : call) (w : DToken.state * state)
    : result (DToken.state * state * list effect) :=
  let '(d, s) := w in
  match c with
  | RequestContractAnalysis a =>
      '(s', (d', evs)) ← requestContractAnalysis e a d s; Ok (d', s', evs)
  | CompleteAnalysis u i score text =>
      '(s', evs) ← completeAnalysis e u i score text s; Ok (d, s', evs)
  | TransferOwnership o =>
      '(s', evs) ← transferOwnership e o s; Ok (d, s', evs)
  | Ledger c' =>
      '(d', evs) ← DToken.step e c' d; Ok (d', s, evs)
  end.

Definition exec (e : env) (c : call) (w : DToken.state * state)
    : DToken.state * state :=
  match step e c w with
  | Ok (w', _) => w'
  | Revert _ => w
  end.

Fixpoint run (calls : list (env * call)) (w : DToken.state * state)
    : DToken.state * state :=
  match calls with
  | [] => w
  | (e, c) :: rest => run rest (exec e c w)
  end.

End ContractAnalysis.

(** ** Tokenomics: the token-health request log *)

Module Tokenomics.

Definition ANALYSIS_COST : Z := 100000000000000.

Record TokenomicsRequest : Type := mkRequest {
  user : address;
  tokenAddress : string;
  payment : Z;
  completed : bool;
  healthScore : Z;
  analysis : string;
  timestamp : Z
}.

Record state : Type := mkState {
  _owner : address;
  _status : bool;
  self : address;                            (* address(this) *)
  userRequests : gmap address (list TokenomicsRequest)
}.

Definition set__owner (o : address) (s : state) : state :=
  mkState o (_status s) (self s) (userRequests s).
Definition set__status (b : bool) (s : state) : state :=
  mkState (_owner s) b (self s) (userRequests s).
Definition set_userRequests (m : gmap address (list TokenomicsRequest))
    (s : state) : state :=
  mkState (_owner s) (_status s) (self s) m.

#[export] Instance ownable : Ownable state :=
  {| get_owner := _owner; set_owner := set__owner |}.
#[export] Instance guard : ReentrancyGuard state :=
  {| get_status := _status; set_status := set__status |}.

Definition constructor (e : env) (this : address) : state :=
  mkState (msg_sender e) false this ∅.

Definition requirePayment (e : env) (d : DToken.state) : result unit :=
  require (DToken.hasFeaturePayment d (msg_sender e)) InsufficientPayment.

Definition requestTokenomicsAnalysis (e : env) (tokenAddress : string)
    (d : DToken.state) (s : state)
    : result (state * (DToken.state * list effect)) :=
  _ ← nonpayable e;
  _ ← requirePayment e d;
  nonReentrant s (fun s =>
    _ ← require (negb (is_empty tokenAddress)) InvalidTokenAddress;
    '(d, paid) ← DToken.useFeature (call_from (self s) e) (msg_sender e) d;
    let newRequest :=
      mkRequest (msg_sender e) tokenAddress ANALYSIS_COST false 0 ""
        (block_timestamp e) in
    let s := set_userRequests
               (push_at (msg_sender e) newRequest (userRequests s)) s in
    Ok (s, (d, paid ++
               [TokenomicsAnalysisRequested (msg_sender e) tokenAddress
                  ANALYSIS_COST;
                PaymentReceived (msg_sender e) ANALYSIS_COST]))).

Definition completeTokenomicsAnalysis (e : env) (user : address)
    (requestIndex : Z) (healthScore : Z) (analysis : string) (s : state)
    : result (state * list effect) :=
  _ ← nonpayable e;
  _ ← onlyOwner e s;
  let requests := mget [] (userRequests s) user in
  _ ← require (requestIndex <? Z.of_nat (length requests))
        (Error "Invalid request index");
  r ← array_get requests requestIndex;
  _ ← require (negb (completed r)) (Error "Analysis already completed");
  let r' := mkRequest (Tokenomics.user r) (tokenAddress r) (payment r) true
              healthScore analysis (timestamp r) in
  requests' ← array_set requests requestIndex r';
  Ok (set_userRequests (<[user := requests']> (userRequests s)) s,
      [TokenomicsAnalysisCompleted user (tokenAddress r') healthScore
         analysis]).

Definition getUserRequests (s : state) (user : address)
    : list TokenomicsRequest :=
  mget [] (userRequests s) user.

Definition getFeatureCost : Z := ANALYSIS_COST.

(** The calls that change the storage of the log or of its ledger. *)
Inductive call : Type :=
  | RequestTokenomicsAnalysis (tokenAddress : string)
  | CompleteTokenomicsAnalysis (user : address)
      (requestIndex healthScore : Z) (analysis : string)
  | TransferOwnership (newOwner : address)
  | Ledger (c : DToken.call).

Definition step (e : env) (c : call) (w : DToken.state * state)
    : result (DToken.state * state * list effect) :=
  let '(d, s) := w in
  match c with
  | RequestTokenomicsAnalysis a =>
      '(s', (d', evs)) ← requestTokenomicsAnalysis e a d s; Ok (d', s', evs)
  | CompleteTokenomicsAnalysis u i score text =>
      '(s', evs) ← completeTokenomicsAnalysis e u i score text s;
      Ok (d, s', evs)
  | TransferOwnership o =>
      '(s', evs) ← transferOwnership e o s; Ok (d, s', evs)
  | Ledger c' =>
      '(d', evs) ← DToken.step e c' d; Ok (d', s, evs)
  end.

Definition exec (e : env) (c : call) (w : DToken.state * state)
    : DToken.state * state :=
  match step e c w with
  | Ok (w', _) => w'
  | Revert _ => w
  end.

Fixpoint run (calls : list (env * call)) (w : DToken.state * state)
    : DToken.state * state :=
  match calls with
  | [] => w
  | (e, c) :: rest => run rest (exec e c w)
  end.

End Tokenomics.

(** ** Monitoring: subscriptions and alerts *)

Module Monitoring.

Definition MONITORING_COST : Z := 100000000000000.

Record MonitoringRequest : Type := mkRequest {
  user : address;
  tokenAddress : string;
  payment : Z;
  active : bool;
  alertThreshold : Z;
  timestamp : Z;
  alertCount : Z
}.

Definition set_active (b : bool) (r : MonitoringRequest) : MonitoringRequest :=
  mkRequest (user r) (tokenAddress r) (payment r) b (alertThreshold r)
    (timestamp r) (alertCount r).
Definition set_alertCount (n : Z) (r : MonitoringRequest) : MonitoringRequest :=
  mkRequest (user r) (tokenAddress r) (payment r) (active r)
    (alertThreshold r) (timestamp r) n.

Record state : Type := mkState {
  _owner : address;
  _status : bool;
  self : address;                            (* address(this) *)
  userMonitoring : gmap address (list MonitoringRequest);
  tokenMonitors : gmap string (list address)
}.

Definition set__owner (o : address) (s : state) : state :=
  mkState o (_status s) (self s) (userMonitoring s) (tokenMonitors s).
Definition set__status (b : bool) (s : state) : state :=
  mkState (_owner s) b (self s) (userMonitoring s) (tokenMonitors s).
Definition set_userMonitoring (m : gmap address (list MonitoringRequest))
    (s : state) : state :=
  mkState (_owner s) (_status s) (self s) m (tokenMonitors s).
Definition set_tokenMonitors (m : gmap string (list address)) (s : state)
    : state :=
  mkState (_owner s) (_status s) (self s) (userMonitoring s) m.

#[export] Instance ownable : Ownable state :=
  {| get_owner := _owner; set_owner := set__owner |}.
#[export] Instance guard : ReentrancyGuard state :=
  {| get_status := _status; set_status := set__status |}.

Definition constructor (e : env) (this : address) : state :=
  mkState (msg_sender e) false this ∅ ∅.

Definition requirePayment (e : env) (d : DToken.state) : result unit :=
  require (DToken.hasFeaturePayment d (msg_sender e)) InsufficientPayment.

Definition requestMonitoring (e : env) (tokenAddress : string)
    (alertThreshold : Z) (d : DToken.state) (s : state)
    : result (state * (DToken.state * list effect)) :=
  _ ← nonpayable e;
  _ ← requirePayment e d;
  nonReentrant s (fun s =>
    _ ← require (negb (is_empty tokenAddress)) InvalidTokenAddress;
    '(d, paid) ← DToken.useFeature (call_from (self s) e) (msg_sender e) d;
    let newRequest :=
      mkRequest (msg_sender e) tokenAddress MONITORING_COST true
        alertThreshold (block_timestamp e) 0 in
    let s := set_userMonitoring
               (push_at (msg_sender e) newRequest (userMonitoring s)) s in
    let s := set_tokenMonitors
               (push_at tokenAddress (msg_sender e) (tokenMonitors s)) s in
    Ok (s, (d, paid ++
               [MonitoringRequested (msg_sender e) tokenAddress
                  MONITORING_COST;
                MonitoringSetup (msg_sender e) tokenAddress alertThreshold;
                PaymentReceived (msg_sender e) MONITORING_COST]))).

(** The inner loop of [triggerAlert], over the requests [requests[j]] of
    one monitor, in index order. *)
Fixpoint alert_requests (user : address) (tokenAddress alertType : string)
    (value : Z) (requests : list MonitoringRequest)
    : result (list MonitoringRequest * list effect) :=
  match requests with
  | [] => Ok ([], [])
  | r :: rest =>
      '(r', ev) ←
        (if keccak_eq (Monitoring.tokenAddress r) tokenAddress && active r
         then n ← checked_add (alertCount r) 1;
              Ok (set_alertCount n r,
                  [AlertTriggered user tokenAddress alertType value])
         else Ok (r, []));
      '(rest', evs) ← alert_requests user tokenAddress alertType value rest;
      Ok (r' :: rest', ev ++ evs)
  end.

(** The outer loop of [triggerAlert], over the memory copy [monitors] of
    the subscriber index; the requests of each monitor are read from and
    written back to storage. *)
Fixpoint alert_monitors (tokenAddress alertType : string) (value : Z)
    (monitors : list address) (s : state) : result (state * list effect) :=
  match monitors with
  | [] => Ok (s, [])
  | user :: rest =>
      '(requests, ev) ←
        alert_requests user tokenAddress alertType value
          (mget [] (userMonitoring s) user);
      let s := set_userMonitoring (<[user := requests]> (userMonitoring s)) s in
      '(s, evs) ← alert_monitors tokenAddress alertType value rest s;
      Ok (s, ev ++ evs)
  end.

Definition triggerAlert (e : env) (tokenAddress alertType : string)
    (value : Z) (s : state) : result (state * list effect) :=
  _ ← nonpayable e;
  _ ← onlyOwner e s;
  let monitors := mget [] (tokenMonitors s) tokenAddress in
  alert_monitors tokenAddress alertType value monitors s.

Definition stopMonitoring (e : env) (requestIndex : Z) (s : state)
    : result (state * list effect) :=
  _ ← nonpayable e;
  let requests := mget [] (userMonitoring s) (msg_sender e) in
  _ ← require (requestIndex <? Z.of_nat (length requests))
        (Error "Invalid request index");
  r ← array_get requests requestIndex;
  _ ← require (active r) (Error "Monitoring already stopped");
  requests' ← array_set requests requestIndex (set_active false r);
  Ok (set_userMonitoring (<[msg_sender e := requests']> (userMonitoring s)) s,
      []).

Definition getUserMonitoring (s : state) (user : address)
    : list MonitoringRequest :=
  mget [] (userMonitoring s) user.

Definition getTokenMonitors (s : state) (tokenAddress : string)
    : list address :=
  mget [] (tokenMonitors s) tokenAddress.

End Monitoring.

(** ** Universal: the message log *)

Module Universal.

Definition MESSAGE_COST : Z := 100000000000000.

Record Message : Type := mkMessage {
  sender : address;
  recipient : address;
  content : string;
  timestamp : Z;
  payment : Z;
  crossChain : bool;
  destinationChain : Z
}.

(** The zero value of [Message], which fills a fresh memory array. *)
Definition zero_message : Message := mkMessage 0 0 "" 0 0 false 0.

Record state : Type := mkState {
  _owner : address;
  _status : bool;
  self : address;                            (* address(this) *)
  userMessages : gmap address (list Message);
  receivedMessages : gmap address (list Message);
  allMessages : list Message
}.

Definition set__owner (o : address) (s : state) : state :=
  mkState o (_status s) (self s) (userMessages s) (receivedMessages s)
    (allMessages s).
Definition set__status (b : bool) (s : state) : state :=
  mkState (_owner s) b (self s) (userMessages s) (receivedMessages s)
    (allMessages s).
Definition set_userMessages (m : gmap address (list Message)) (s : state)
    : state :=
  mkState (_owner s) (_status s) (self s) m (receivedMessages s)
    (allMessages s).
Definition set_receivedMessages (m : gmap address (list Message))
    (s : state) : state :=
  mkState (_owner s) (_status s) (self s) (userMessages s) m (allMessages s).
Definition set_allMessages (l : list Message) (s : state) : state :=
  mkState (_owner s) (_status s) (self s) (userMessages s)
    (receivedMessages s) l.

#[export] Instance ownable : Ownable state :=
  {| get_owner := _owner; set_owner := set__owner |}.
#[export] Instance guard : ReentrancyGuard state :=
  {| get_status := _status; set_status := set__status |}.

Definition constructor (e : env) (this : address) : state :=
  mkState (msg_sender e) false this ∅ ∅ [].

Definition requirePayment (e : env) (d : DToken.state) : result unit :=
  require (DToken.hasFeaturePayment d (msg_sender e)) InsufficientPayment.

Definition sendMessage (e : env) (recipient : address) (message : string)
    (d : DToken.state) (s : state)
    : result (state * (DToken.state * list effect)) :=
  _ ← nonpayable e;
  _ ← requirePayment e d;
  nonReentrant s (fun s =>
    _ ← require (negb (recipient =? 0)) InvalidRecipient;
    _ ← require (negb (is_empty message)) InvalidMessage;
    '(d, paid) ← DToken.useFeature (call_from (self s) e) (msg_sender e) d;
    let newMessage :=
      mkMessage (msg_sender e) recipient message (block_timestamp e)
        MESSAGE_COST false (block_chainid e) in
    let s := set_userMessages
               (push_at (msg_sender e) newMessage (userMessages s)) s in
    let s := set_receivedMessages
               (push_at recipient newMessage (receivedMessages s)) s in
    let s := set_allMessages (allMessages s ++ [newMessage]) s in
    Ok (s, (d, paid ++
               [MessageSent (msg_sender e) recipient message MESSAGE_COST;
                PaymentReceived (msg_sender e) MESSAGE_COST]))).

Definition sendCrossChainMessage (e : env) (destinationChain : Z)
    (recipient : address) (message : string)
    (d : DToken.state) (s : state)
    : result (state * (DToken.state * list effect)) :=
  _ ← nonpayable e;
  _ ← requirePayment e d;
  nonReentrant s (fun s =>
    _ ← require (negb (recipient =? 0)) InvalidRecipient;
    _ ← require (negb (is_empty message)) InvalidMessage;
    _ ← require (negb (destinationChain =? block_chainid e)) InvalidRecipient;
    '(d, paid) ← DToken.useFeature (call_from (self s) e) (msg_sender e) d;
    let newMessage :=
      mkMessage (msg_sender e) recipient message (block_timestamp e)
        MESSAGE_COST true destinationChain in
    let s := set_userMessages
               (push_at (msg_sender e) newMessage (userMessages s)) s in
    let s := set_allMessages (allMessages s ++ [newMessage]) s in
    Ok (s, (d, paid ++
               [CrossChainMessageSent (msg_sender e) destinationChain
                  recipient message;
                PaymentReceived (msg_sender e) MESSAGE_COST]))).

Definition getUserMessages (s : state) (user : address) : list Message :=
  mget [] (userMessages s) user.

Definition getReceivedMessages (s : state) (user : address) : list Message :=
  mget [] (receivedMessages s) user.

(** The body of the loop of [getAllMessages]:
    [result[i - offset] = allMessages[i]]. *)
Definition copy_message (all : list Message) (offset : Z) (i : Z)
    (res : list Message) : result (list Message) :=
  m ← array_get all i; k ← checked_sub i offset; array_set res k m.

Definition getAllMessages (s : state) (offset limit : Z)
    : result (list Message) :=
  let total := Z.of_nat (length (allMessages s)) in
  if total <=? offset then Ok []
  else
    end_ ← checked_add offset limit;
    let end_ := if total <? end_ then total else end_ in
    size ← checked_sub end_ offset;
    for_range offset end_ (copy_message (allMessages s) offset)
      (replicate (Z.to_nat size) zero_message).

Definition getTotalMessages (s : state) : Z :=
  Z.of_nat (length (allMessages s)).

End Universal.

(** ** DomainManagement: the domain registry *)

Module DomainManagement.

Record Domain : Type := mkDomain {
  name : string;
  owner : address;
  isTokenized : bool;
  tokenizedAt : Z;
  rights : gmap string address;     (* right name => address with that right *)
  isActive : bool
}.

(** The value of [domains[n]] for a name that was never written. *)
Definition zero_domain : Domain := mkDomain "" 0 false 0 ∅ false.

Definition set_owner_of (o : address) (dm : Domain) : Domain :=
  mkDomain (name dm) o (isTokenized dm) (tokenizedAt dm) (rights dm)
    (isActive dm).
Definition set_rights (m : gmap string address) (dm : Domain) : Domain :=
  mkDomain (name dm) (owner dm) (isTokenized dm) (tokenizedAt dm) m
    (isActive dm).
Definition set_isActive (b : bool) (dm : Domain) : Domain :=
  mkDomain (name dm) (owner dm) (isTokenized dm) (tokenizedAt dm)
    (rights dm) b.

Record DomainRights : Type := mkRights {
  rightName : string;
  description : string;
  holder : address;
  grantedAt : Z;
  expiresAt : Z
}.

Record state : Type := mkState {
  _owner : address;
  _status : bool;
  self : address;                            (* address(this) *)
  domains : gmap string Domain;
  domainRights : gmap string (list DomainRights);
  userDomains : gmap address (list string);
  allDomains : list string
}.

Definition set__owner (o : address) (s : state) : state :=
  mkState o (_status s) (self s) (domains s) (domainRights s)
    (userDomains s) (allDomains s).
Definition set__status (b : bool) (s : state) : state :=
  mkState (_owner s) b (self s) (domains s) (domainRights s)
    (userDomains s) (allDomains s).
Definition set_domains (m : gmap string Domain) (s : state) : state :=
  mkState (_owner s) (_status s) (self s) m (domainRights s)
    (userDomains s) (allDomains s).
Definition set_domainRights (m : gmap string (list DomainRights))
    (s : state) : state :=
  mkState (_owner s) (_status s) (self s) (domains s) m (userDomains s)
    (allDomains s).
Definition set_userDomains (m : gmap address (list string)) (s : state)
    : state :=
  mkState (_owner s) (_status s) (self s) (domains s) (domainRights s) m
    (allDomains s).
Definition set_allDomains (l : list string) (s : state) : state :=
  mkState (_owner s) (_status s) (self s) (domains s) (domainRights s)
    (userDomains s) l.

#[export] Instance ownable : Ownable state :=
  {| get_owner := _owner; set_owner := set__owner |}.
#[export] Instance guard : ReentrancyGuard state :=
  {| get_status := _status; set_status := set__status |}.

Definition constructor (e : env) (this : address) : state :=
  mkState (msg_sender e) false this ∅ ∅ ∅ [].

(** [domains[domainName]] *)
Definition domain (s : state) (domainName : string) : Domain :=
  mget zero_domain (domains s) domainName.

Definition onlyDomainOwner (e : env) (domainName : string) (s : state)
    : result unit :=
  require (bool_decide (owner (domain s domainName) = msg_sender e))
    NotDomainOwner.

Definition domainExists (domainName : string) (s : state) : result unit :=
  require (negb (is_empty (name (domain s domainName)))) DomainNotExists.

Definition tokenizeDomain (e : env) (domainName : string)
    (d : DToken.state) (s : state)
    : result (state * (DToken.state * list effect)) :=
  _ ← nonpayable e;
  nonReentrant s (fun s =>
    _ ← require (negb (is_empty domainName)) InvalidDomainName;
    _ ← require (negb (isTokenized (domain s domainName)))
          DomainAlreadyTokenized;
    '(d, paid) ← DToken.useFeature (call_from (self s) e) (msg_sender e) d;
    let dm :=
      mkDomain domainName (msg_sender e) true (block_timestamp e)
        (rights (domain s domainName)) true in
    let s := set_domains (<[domainName := dm]> (domains s)) s in
    let s := set_allDomains (allDomains s ++ [domainName]) s in
    let s := set_userDomains
               (push_at (msg_sender e) domainName (userDomains s)) s in
    Ok (s, (d, paid ++
               [DomainTokenized domainName (msg_sender e)
                  (block_timestamp e)]))).

Definition grantDomainRight (e : env) (domainName rightName : string)
    (holder : address) (duration : Z) (d : DToken.state) (s : state)
    : result (state * (DToken.state * list effect)) :=
  _ ← nonpayable e;
  _ ← domainExists domainName s;
  _ ← onlyDomainOwner e domainName s;
  nonReentrant s (fun s =>
    '(d, paid) ← DToken.useFeature (call_from (self s) e) (msg_sender e) d;
    expiresAt ← (if duration =? 0 then Ok 0
                 else checked_add (block_timestamp e) duration);
    let dm := domain s domainName in
    let s := set_domains
               (<[domainName := set_rights (<[rightName := holder]> (rights dm)) dm]>
                  (domains s)) s in
    let newRight :=
      mkRights rightName
        ("Right: " +:+ rightName +:+ " for domain: " +:+ domainName)
        holder (block_timestamp e) expiresAt in
    let s := set_domainRights
               (push_at domainName newRight (domainRights s)) s in
    Ok (s, (d, paid ++
               [DomainRightGranted domainName rightName holder expiresAt]))).

Definition revokeDomainRight (e : env) (domainName rightName : string)
    (s : state) : result (state * list effect) :=
  _ ← nonpayable e;
  _ ← domainExists domainName s;
  _ ← onlyDomainOwner e domainName s;
  let dm := domain s domainName in
  let rightHolder := mget 0 (rights dm) rightName in
  _ ← require (negb (rightHolder =? 0)) RightNotExists;
  Ok (set_domains
        (<[domainName := set_rights (<[rightName := 0]> (rights dm)) dm]>
           (domains s)) s,
      [DomainRightRevoked domainName rightName rightHolder]).

(** The loop of [transferDomain] looks for the first index [i] with
    [fromDomains[i]] equal to the name ... *)
Fixpoint find_domain (domainName : string) (fromDomains : list string)
    : option nat :=
  match fromDomains with
  | [] => None
  | x :: rest =>
      if keccak_eq x domainName then Some O
      else S <$> find_domain domainName rest
  end.

(** ... and there overwrites the entry with the last one, pops the array
    and breaks. *)
Definition remove_domain (domainName : string) (fromDomains : list string)
    : list string :=
  match find_domain domainName fromDomains, last fromDomains with
  | Some i, Some x =>
      take (length fromDomains - 1) (<[i := x]> fromDomains)
  | _, _ => fromDomains
  end.

Definition transferDomain (e : env) (domainName : string) (to : address)
    (d : DToken.state) (s : state)
    : result (state * (DToken.state * list effect)) :=
  _ ← nonpayable e;
  _ ← domainExists domainName s;
  _ ← onlyDomainOwner e domainName s;
  nonReentrant s (fun s =>
    '(d, paid) ← DToken.useFeature (call_from (self s) e) (msg_sender e) d;
    let from := owner (domain s domainName) in
    let s := set_domains
               (<[domainName := set_owner_of to (domain s domainName)]>
                  (domains s)) s in
    let s := set_userDomains (push_at to domainName (userDomains s)) s in
    let fromDomains := mget [] (userDomains s) from in
    let s := set_userDomains
               (<[from := remove_domain domainName fromDomains]>
                  (userDomains s)) s in
    Ok (s, (d, paid ++ [DomainTransferred domainName from to]))).

Definition syncDomainState (e : env) (domainName : string) (isActive : bool)
    (s : state) : result (state * list effect) :=
  _ ← nonpayable e;
  _ ← onlyOwner e s;
  _ ← domainExists domainName s;
  Ok (set_domains
        (<[domainName := set_isActive isActive (domain s domainName)]>
           (domains s)) s,
      [DomainStateSync domainName isActive]).

(** The loop of [hasRight] over the grant history [rights[i]], in index
    order: at the first record of the right name and the user it returns
    true when that record has not expired, and breaks otherwise. *)
Fixpoint hasRight_loop (now : Z) (rightName : string) (user : address)
    (rights : list DomainRights) : bool :=
  match rights with
  | [] => false
  | r :: rest =>
      if keccak_eq (DomainManagement.rightName r) rightName
         && bool_decide (holder r = user)
      then (expiresAt r =? 0) || (now <? expiresAt r)
      else hasRight_loop now rightName user rest
  end.

Definition hasRight (e : env) (domainName rightName : string)
    (user : address) (s : state) : result bool :=
  _ ← domainExists domainName s;
  let rightHolder := mget 0 (rights (domain s domainName)) rightName in
  if negb (rightHolder =? user) then Ok false
  else
    Ok (hasRight_loop (block_timestamp e) rightName user
          (mget [] (domainRights s) domainName)).

Definition getUserDomains (s : state) (user : address) : list string :=
  mget [] (userDomains s) user.

Definition getDomainRights (domainName : string) (s : state)
    : result (list DomainRights) :=
  _ ← domainExists domainName s;
  Ok (mget [] (domainRights s) domainName).

(** The calls that change the storage of the registry or of its ledger. *)
Inductive call : Type :=
  | TokenizeDomain (domainName : string)
  | GrantDomainRight (domainName rightName : string) (holder : address)
      (duration : Z)
  | RevokeDomainRight (domainName rightName : string)
  | TransferDomain (domainName : string) (to : address)
  | SyncDomainState (domainName : string) (isActive : bool)
  | TransferOwnership (newOwner : address)
  | Ledger (c : DToken.call).

Definition step (e : env) (c : call) (w : DToken.state * state)
    : result (DToken.state * state * list effect) :=
  let '(d, s) := w in
  match c with
  | TokenizeDomain n =>
      '(s', (d', evs)) ← tokenizeDomain e n d s; Ok (d', s', evs)
  | GrantDomainRight n r h t =>
      '(s', (d', evs)) ← grantDomainRight e n r h t d s; Ok (d', s', evs)
  | RevokeDomainRight n r =>
      '(s', evs) ← revokeDomainRight e n r s; Ok (d, s', evs)
  | TransferDomain n to =>
      '(s', (d', evs)) ← transferDomain e n to d s; Ok (d', s', evs)
  | SyncDomainState n b =>
      '(s', evs) ← syncDomainState e n b s; Ok (d, s', evs)
  | TransferOwnership o =>
      '(s', evs) ← transferOwnership e o s; Ok (d, s', evs)
  | Ledger c' =>
      '(d', evs) ← DToken.step e c' d; Ok (d', s, evs)
  end.

Definition exec (e : env) (c : call) (w : DToken.state * state)
    : DToken.state * state :=
  match step e c w with
  | Ok (w', _) => w'
  | Revert _ => w
  end.

Fixpoint run (calls : list (env * call)) (w : DToken.state * state)
    : DToken.state * state :=
  match calls with
  | [] => w
  | (e, c) :: rest => run rest (exec e c w)
  end.

(** The worlds the registry can be in: deployed next to a freshly
    deployed ledger, then any sequence of calls. *)
Inductive reachable : DToken.state * state -> Prop :=
  | reachable_init (e1 e2 : env) (this : address) :
      reachable (DToken.constructor e1, constructor e2 this)
  | reachable_step (e : env) (c : call) (w : DToken.state * state) :
      reachable w -> reachable (exec e c w).

End DomainManagement.

(** ** SocialAnalysis: the social-sentiment request log *)

Module SocialAnalysis.

Definition ANALYSIS_COST : Z := 100000000000000.

(** The two events that only this contract emits. *)
Inductive social_event : Type :=
  | SocialAnalysisRequested (user : address) (tokenAddress : string)
      (payment : Z)
  | SocialAnalysisCompleted (user : address) (tokenAddress : string)
      (sentimentScore : Z) (analysis : string).

(** The trace of a call: effects shared with the other contracts on the
    left, the events of this contract on the right. *)
Abbreviation trace := (list (effect + social_event)) (only parsing).

(** The effects of a call to the ledger or to an inherited function, as
    part of a trace of this contract. *)
Definition shared (evs : list effect) : trace := inl <$> evs.

Record SocialRequest : Type := mkRequest {
  user : address;
  tokenAddress : string;
  payment : Z;
  completed : bool;
  sentimentScore : Z;
  analysis : string;
  timestamp : Z
}.

Record state : Type := mkState {
  _owner : address;
  _status : bool;
  self : address;                            (* address(this) *)
  userRequests : gmap address (list SocialRequest)
}.

Definition set__owner (o : address) (s : state) : state :=
  mkState o (_status s) (self s) (userRequests s).
Definition set__status (b : bool) (s : state) : state :=
  mkState (_owner s) b (self s) (userRequests s).
Definition set_userRequests (m : gmap address (list SocialRequest))
    (s : state) : state :=
  mkState (_owner s) (_status s) (self s) m.

#[export] Instance ownable : Ownable state :=
  {| get_owner := _owner; set_owner := set__owner |}.
#[export] Instance guard : ReentrancyGuard state :=
  {| get_status := _status; set_status := set__status |}.

Definition constructor (e : env) (this : address) : state :=
  mkState (msg_sender e) false this ∅.

Definition requirePayment (e : env) (d : DToken.state) : result unit :=
  require (DToken.hasFeaturePayment d (msg_sender e)) InsufficientPayment.

Definition requestSocialAnalysis (e : env) (tokenAddress : string)
    (d : DToken.state) (s : state)
    : result (state * (DToken.state * trace)) :=
  _ ← nonpayable e;
  _ ← requirePayment e d;
  nonReentrant s (fun s =>
    _ ← require (negb (is_empty tokenAddress)) InvalidTokenAddress;
    '(d, paid) ← DToken.useFeature (call_from (self s) e) (msg_sender e) d;
    let newRequest :=
      mkRequest (msg_sender e) tokenAddress ANALYSIS_COST false 0 ""
        (block_timestamp e) in
    let s := set_userRequests
               (push_at (msg_sender e) newRequest (userRequests s)) s in
    Ok (s, (d, shared paid ++
               [inr (SocialAnalysisRequested (msg_sender e) tokenAddress
                       ANALYSIS_COST);
                inl (PaymentReceived (msg_sender e) ANALYSIS_COST)]))).

Definition completeSocialAnalysis (e : env) (user : address)
    (requestIndex : Z) (sentimentScore : Z) (analysis : string) (s : state)
    : result (state * trace) :=
  _ ← nonpayable e;
  _ ← onlyOwner e s;
  let requests := mget [] (userRequests s) user in
  _ ← require (requestIndex <? Z.of_nat (length requests))
        (Error "Invalid request index");
  r ← array_get requests requestIndex;
  _ ← require (negb (completed r)) (Error "Analysis already completed");
  let r' := mkRequest (SocialAnalysis.user r) (tokenAddress r) (payment r)
              true sentimentScore analysis (timestamp r) in
  requests' ← array_set requests requestIndex r';
  Ok (set_userRequests (<[user := requests']> (userRequests s)) s,
      [inr (SocialAnalysisCompleted user (tokenAddress r') sentimentScore
              analysis)]).

Definition getUserRequests (s : state) (user : address)
    : list SocialRequest :=
  mget [] (userRequests s) user.

Definition getUserPaymentBalance (d : DToken.state) (user : address) : Z :=
  DToken.getUserPaymentBalance d user.

Definition getFeatureCost : Z := ANALYSIS_COST.

(** The calls that change the storage of the log or of its ledger. *)
Inductive call : Type :=
  | RequestSocialAnalysis (tokenAddress : string)
  | CompleteSocialAnalysis (user : address)
      (requestIndex sentimentScore : Z) (analysis : string)
  | TransferOwnership (newOwner : address)
  | Ledger (c : DToken.call).

Definition step (e : env) (c : call) (w : DToken.state * state)
    : result (DToken.state * state * trace) :=
  let '(d, s) := w in
  match c with
  | RequestSocialAnalysis a =>
      '(s', (d', evs)) ← requestSocialAnalysis e a d s; Ok (d', s', evs)
  | CompleteSocialAnalysis u i score text =>
      '(s', evs) ← completeSocialAnalysis e u i score text s;
      Ok (d, s', evs)
  | TransferOwnership o =>
      '(s', evs) ← transferOwnership e o s; Ok (d, s', shared evs)
  | Ledger c' =>
      '(d', evs) ← DToken.step e c' d; Ok (d', s, shared evs)
  end.

Definition exec (e : env) (c : call) (w : DToken.state * state)
    : DToken.state * state :=
  match step e c w with
  | Ok (w', _) => w'
  | Revert _ => w
  end.

Fixpoint run (calls : list (env * call)) (w : DToken.state * state)
    : DToken.state * state :=
  match calls with
  | [] => w
  | (e, c) :: rest => run rest (exec e c w)
  end.

End SocialAnalysis.

(** ** The calls of the message log *)

Module UniversalCalls.

(** The calls that change the storage of [Universal] or of its ledger. *)
Inductive call : Type :=
  | SendMessage (recipient : address) (message : string)
  | SendCrossChainMessage (destinationChain : Z) (recipient : address)
      (message : string)
  | TransferOwnership (newOwner : address)
  | Ledger (c : DToken.call).

Definition step (e : env) (c : call) (w : DToken.state * Universal.state)
    : result (DToken.state * Universal.state * list effect) :=
  let '(d, s) := w in
  match c with
  | SendMessage r m =>
      '(s', (d', evs)) ← Universal.sendMessage e r m d s; Ok (d', s', evs)
  | SendCrossChainMessage dest r m =>
      '(s', (d', evs)) ← Universal.sendCrossChainMessage e dest r m d s;
      Ok (d', s', evs)
  | TransferOwnership o =>
      '(s', evs) ← transferOwnership (H := Universal.ownable) e o s;
      Ok (d, s', evs)
  | Ledger c' =>
      '(d', evs) ← DToken.step e c' d; Ok (d', s, evs)
  end.

Definition exec (e : env) (c : call) (w : DToken.state * Universal.state)
    : DToken.state * Universal.state :=
  match step e c w with
  | Ok (w', _) => w'
  | Revert _ => w
  end.

Fixpoint run (calls : list (env * call)) (w : DToken.state * Universal.state)
    : DToken.state * Universal.state :=
  match calls with
  | [] => w
  | (e, c) :: rest => run rest (exec e c w)
  end.

(** Is the call a send that succeeds in the world [w]? *)
Definition is_send (e : env) (c : call) (w : DToken.state * Universal.state)
    : bool :=
  match c with
  | SendMessage _ _ | SendCrossChainMessage _ _ _ => is_ok (step e c w)
  | _ => false
  end.

End UniversalCalls.

(** ** The calls of the monitoring contract *)

Module MonitoringCalls.

(** The calls that change the storage of [Monitoring] or of its ledger. *)
Inductive call : Type :=
  | RequestMonitoring (tokenAddress : string) (alertThreshold : Z)
  | TriggerAlert (tokenAddress alertType : string) (value : Z)
  | StopMonitoring (requestIndex : Z)
  | TransferOwnership (newOwner : address)
  | Ledger (c : DToken.call).

Definition step (e : env) (c : call) (w : DToken.state * Monitoring.state)
    : result (DToken.state * Monitoring.state * list effect) :=
  let '(d, s) := w in
  match c with
  | RequestMonitoring t threshold =>
      '(s', (d', evs)) ← Monitoring.requestMonitoring e t threshold d s;
      Ok (d', s', evs)
  | TriggerAlert t ty v =>
      '(s', evs) ← Monitoring.triggerAlert e t ty v s; Ok (d, s', evs)
  | StopMonitoring i =>
      '(s', evs) ← Monitoring.stopMonitoring e i s; Ok (d, s', evs)
  | TransferOwnership o =>
      '(s', evs) ← transferOwnership (H := Monitoring.ownable) e o s;
      Ok (d, s', evs)
  | Ledger c' =>
      '(d', evs) ← DToken.step e c' d; Ok (d', s, evs)
  end.

Definition exec (e : env) (c : call) (w : DToken.state * Monitoring.state)
    : DToken.state * Monitoring.state :=
  match step e c w with
  | Ok (w', _) => w'
  | Revert _ => w
  end.

Fixpoint run (calls : list (env * call)) (w : DToken.state * Monitoring.state)
    : DToken.state * Monitoring.state :=
  match calls with
  | [] => w
  | (e, c) :: rest => run rest (exec e c w)
  end.

End MonitoringCalls.

(** ** Notions of the monitoring contract *)

(** The test of [triggerAlert] on one request: it is for the target and
    it is active. *)
Definition alerted (tokenAddress : string) (r : Monitoring.MonitoringRequest)
    : bool :=
  keccak_eq (Monitoring.tokenAddress r) tokenAddress && Monitoring.active r.

(** The request with its alert counter raised by [k] when it is alerted. *)
Definition bump (tokenAddress : string) (k : Z)
    (r : Monitoring.MonitoringRequest) : Monitoring.MonitoringRequest :=
  if alerted tokenAddress r
  then Monitoring.set_alertCount (Monitoring.alertCount r + k) r
  else r.

(** How many entries of a list of addresses are the address [u]. *)
Definition entries_of (u : address) (l : list address) : Z :=
  Z.of_nat (length (filter (fun x => x = u) l)).

(** How many requests of a list are for the target, active or stopped. *)
Definition subscriptions_to (tokenAddress : string)
    (l : list Monitoring.MonitoringRequest) : Z :=
  Z.of_nat
    (length (filter (fun r => Monitoring.tokenAddress r = tokenAddress) l)).

(** A subscription is kept by a later state: the fields set at creation
    are the same, the alert counter has not gone down, and a stopped
    subscription is the same record. *)
Definition subscription_kept (r r' : Monitoring.MonitoringRequest) : Prop :=
  Monitoring.user r' = Monitoring.user r
  /\ Monitoring.tokenAddress r' = Monitoring.tokenAddress r
  /\ Monitoring.payment r' = Monitoring.payment r
  /\ Monitoring.alertThreshold r' = Monitoring.alertThreshold r
  /\ Monitoring.timestamp r' = Monitoring.timestamp r
  /\ Monitoring.alertCount r <= Monitoring.alertCount r'
  /\ (Monitoring.active r = false -> r' = r).

(** ** The views of the domain registry *)

Module DomainViews.

(** [getDomainInfo]: the owner, the tokenized flag, the tokenization time
    and the active flag of a domain that exists. *)
Definition getDomainInfo (domainName : string) (s : DomainManagement.state)
    : result (address * bool * Z * bool) :=
  _ ← DomainManagement.domainExists domainName s;
  let dm := DomainManagement.domain s domainName in
  Ok (DomainManagement.owner dm, DomainManagement.isTokenized dm,
      DomainManagement.tokenizedAt dm, DomainManagement.isActive dm).

Definition getTotalDomains (s : DomainManagement.state) : Z :=
  Z.of_nat (length (DomainManagement.allDomains s)).

(** The body of the loop of [getAllDomains]:
    [domainList[i - offset] = allDomains[i]]. *)
Definition copy_name (all : list string) (offset : Z) (i : Z)
    (res : list string) : result (list string) :=
  n ← array_get all i; k ← checked_sub i offset; array_set res k n.

Definition getAllDomains (s : DomainManagement.state) (offset limit : Z)
    : result (list string) :=
  let total := Z.of_nat (length (DomainManagement.allDomains s)) in
  if total <=? offset then Ok []
  else
    end_ ← checked_add offset limit;
    let end_ := if total <? end_ then total else end_ in
    size ← checked_sub end_ offset;
    for_range offset end_ (copy_name (DomainManagement.allDomains s) offset)
      (replicate (Z.to_nat size) "").

End DomainViews.

(** ** Notions of the domain registry *)

(** No record of the grant history carries the right name and the
    holder. *)
Definition never_granted (rightName : string) (holder : address)
    (history : list DomainManagement.DomainRights) : Prop :=
  Forall (fun x => ~ (DomainManagement.rightName x = rightName
                      /\ DomainManagement.holder x = holder)) history.

(** ** Notions used by the properties *)

(** The slice [[from, to)] of a list. *)
Definition slice {A} (l : list A) (from to : Z) : list A :=
  take (Z.to_nat (to - from)) (drop (Z.to_nat from) l).


(** The call does not switch the allow-list bit of [C] on: it is not
    [authorizeContract(C, true)], and when it is a withdrawal its recipient
    does not call [authorizeContract(C, true)] back. *)
Definition keeps_off (C : address) (ec : env * DToken.call) : Prop :=
  snd ec <> DToken.AuthorizeContract C true
  /\ forall amount, snd ec = DToken.WithdrawETH amount ->
       Forall (fun n => snd n <> DToken.AuthorizeContract C true)
         (reentry (fst ec)).

(** The number of entries of a list of names that are the name [n]. *)
Fixpoint occurrences (n : string) (l : list string) : nat :=
  match l with
  | [] => O
  | x :: rest => ((if keccak_eq x n then 1 else 0) + occurrences n rest)%nat
  end.

(** The outcome of a transfer in the specification's words: the name is
    once in the list of the new owner [B] and not in the list of the old
    owner [A]. *)
Definition name_moved (s : DomainManagement.state) (n : string)
    (A B : address) : Prop :=
  occurrences n (DomainManagement.getUserDomains s B) = 1%nat
  /\ occurrences n (DomainManagement.getUserDomains s A) = 0%nat.

(** The per-owner lists of the registry agree with the owners it records:
    a name is once in the list of its owner when it is tokenized, and in no
    other list; and a domain record carries a name exactly when it is
    tokenized. *)
Definition lists_match_owners (s : DomainManagement.state) : Prop :=
  forall (n : string) (X : address),
    occurrences n (DomainManagement.getUserDomains s X) =
    if DomainManagement.isTokenized (DomainManagement.domain s n)
       && bool_decide
            (DomainManagement.owner (DomainManagement.domain s n) = X)
    then 1%nat else 0%nat.

Definition names_recorded (s : DomainManagement.state) : Prop :=
  forall n : string,
    is_empty (DomainManagement.name (DomainManagement.domain s n)) =
    negb (DomainManagement.isTokenized (DomainManagement.domain s n)).

(** The calls other than [tokenizeDomain] and [transferDomain] leave the
    lists alone, and leave the name, the owner and the tokenized flag of
    every domain record alone. *)
Definition same_ownership (s s' : DomainManagement.state) : Prop :=
  DomainManagement.userDomains s' = DomainManagement.userDomains s /\
  forall n,
    DomainManagement.name (DomainManagement.domain s' n)
    = DomainManagement.name (DomainManagement.domain s n)
    /\ DomainManagement.owner (DomainManagement.domain s' n)
       = DomainManagement.owner (DomainManagement.domain s n)
    /\ DomainManagement.isTokenized (DomainManagement.domain s' n)
       = DomainManagement.isTokenized (DomainManagement.domain s n).

(** ** Accounting notions of the ledger *)

(** What a user has put into the ledger and not yet had refused: the
    credit left plus one price for every use counted. *)
Definition account (s : DToken.state) (U : address) : Z :=
  DToken.getUserPaymentBalance s U
  + DToken.FEATURE_COST * DToken.getUserFeatureUsage s U.

(** The value that a trace says was paid into the credit of [U]: the
    amounts of its [PaymentReceived] events for [U]. *)
Fixpoint credited (U : address) (evs : list effect) : Z :=
  match evs with
  | [] => 0
  | PaymentReceived u v :: rest =>
      (if bool_decide (u = U) then v else 0) + credited U rest
  | _ :: rest => credited U rest
  end.

(** The value that a trace says was paid into the ledger, by anyone. *)
Fixpoint income (evs : list effect) : Z :=
  match evs with
  | [] => 0
  | PaymentReceived _ v :: rest => v + income rest
  | _ :: rest => income rest
  end.

(** The value that the call [c] made in [e] pays into the credit of [U]:
    the value of a successful [payForFeature] or plain transfer of [U], and
    for a successful withdrawal what [U] pays in while the recipient holds
    the control. *)
Definition paid_in (e : env) (c : DToken.call) (s : DToken.state)
    (U : address) : Z :=
  match DToken.step e c s with
  | Ok (_, evs) =>
      match c with
      | DToken.PayForFeature | DToken.Receive | DToken.Fallback =>
          if bool_decide (msg_sender e = U) then msg_value e else 0
      | DToken.WithdrawETH _ => credited U evs
      | _ => 0
      end
  | Revert _ => 0
  end.

Fixpoint total_paid_in (calls : list (env * DToken.call)) (s : DToken.state)
    (U : address) : Z :=
  match calls with
  | [] => 0
  | (e, c) :: rest =>
      paid_in e c s U + total_paid_in rest (DToken.exec e c s) U
  end.

(** ** Notions of the request logs *)

(** A stored request is kept by a later state of the log: its user,
    target, payment and timestamp are the same, and when it was completed
    the whole record is the same. *)
Definition request_kept (r r' : ContractAnalysis.AnalysisRequest) : Prop :=
  ContractAnalysis.user r' = ContractAnalysis.user r
  /\ ContractAnalysis.contractAddress r' = ContractAnalysis.contractAddress r
  /\ ContractAnalysis.payment r' = ContractAnalysis.payment r
  /\ ContractAnalysis.timestamp r' = ContractAnalysis.timestamp r
  /\ (ContractAnalysis.completed r = true -> r' = r).

(** The shape of every record the log stores under the key [U]. *)
Definition request_well_formed (U : address)
    (r : ContractAnalysis.AnalysisRequest) : Prop :=
  ContractAnalysis.user r = U
  /\ ContractAnalysis.payment r = ContractAnalysis.ANALYSIS_COST
  /\ is_empty (ContractAnalysis.contractAddress r) = false
  /\ (ContractAnalysis.completed r = false ->
      ContractAnalysis.riskScore r = 0 /\ ContractAnalysis.analysis r = "").

(** * Properties *)

(** ** Mappings, results and guards *)

Lemma mget_insert {K} `{Countable K} {V} (d : V) (m : gmap K V) (k k' : K)
    (v : V) :
  mget d (<[k := v]> m) k' = if decide (k = k') then v else mget d m k'.
Proof. unfold mget. rewrite lookup_insert. by case_decide. Qed.

Lemma mget_insert_eq {K} `{Countable K} {V} (d : V) (m : gmap K V) (k : K)
    (v : V) :
  mget d (<[k := v]> m) k = v.
Proof. rewrite mget_insert. by case_decide. Qed.

Lemma mget_insert_ne {K} `{Countable K} {V} (d : V) (m : gmap K V) (k k' : K)
    (v : V) :
  k ≠ k' -> mget d (<[k := v]> m) k' = mget d m k'.
Proof. intros. rewrite mget_insert. by case_decide. Qed.

Lemma mget_push_at {K} `{Countable K} {V} (m : gmap K (list V)) (k k' : K)
    (x : V) :
  mget [] (push_at k x m) k' =
  if decide (k = k') then mget [] m k ++ [x] else mget [] m k'.
Proof. unfold push_at. apply mget_insert. Qed.

Lemma bind_ok {A B} (m : result A) (f : A -> result B) (b : B) :
  m ≫= f = Ok b -> exists a, m = Ok a /\ f a = Ok b.
Proof. destruct m; simpl; [eauto | discriminate]. Qed.

Lemma require_ok (cond : bool) (e : error) (u : unit) :
  require cond e = Ok u -> cond = true.
Proof. by destruct cond. Qed.

Lemma nonpayable_ok (e : env) (u : unit) :
  nonpayable e = Ok u -> msg_value e = 0.
Proof.
  unfold nonpayable. intros H. apply require_ok in H. by apply Z.eqb_eq.
Qed.

Lemma checked_add_ok (a b c : Z) :
  checked_add a b = Ok c -> c = a + b /\ a + b <= MAX_UINT256.
Proof. unfold checked_add. case_match; [|done]. intros [= <-]. lia. Qed.

Lemma checked_sub_ok (a b c : Z) :
  checked_sub a b = Ok c -> c = a - b /\ b <= a.
Proof. unfold checked_sub. case_match; [|done]. intros [= <-]. lia. Qed.

Lemma nonReentrant_ok {S} `{ReentrancyGuard S} {A}
    (s : S) (body : S -> result (S * A)) (r : S * A) :
  nonReentrant s body = Ok r ->
  get_status s = false /\
  exists s' a, body (set_status true s) = Ok (s', a) /\
    r = (set_status false s', a).
Proof.
  unfold nonReentrant. destruct (get_status s); [done|].
  destruct (body _) as [[s' a]|] eqn:Hb; simpl; [|done].
  intros [= <-]. eauto.
Qed.

(** Peels the successful run of a monadic body apart. *)
Ltac invert_ok :=
  repeat match goal with
  | H : _ ≫= _ = Ok _ |- _ =>
      apply bind_ok in H; destruct H as (? & ? & H)
  | H : require _ _ = Ok _ |- _ => apply require_ok in H
  | H : nonpayable _ = Ok _ |- _ => apply nonpayable_ok in H
  | H : checked_add _ _ = Ok _ |- _ => apply checked_add_ok in H; destruct H
  | H : checked_sub _ _ = Ok _ |- _ => apply checked_sub_ok in H; destruct H
  | H : nonReentrant _ _ = Ok _ |- _ =>
      apply nonReentrant_ok in H; destruct H as (? & ? & ? & H & ?)
  | H : Ok _ = Ok _ |- _ => injection H as H
  | H : (let '(_, _) := ?p in _) = Ok _ |- _ => destruct p
  | H : (_, _) = (_, _) |- _ => injection H as H
  | H : negb _ = true |- _ => apply negb_true_iff in H
  | H : bool_decide _ = true |- _ => apply bool_decide_eq_true in H
  | H : (_ =? _) = true |- _ => apply Z.eqb_eq in H
  | H : (_ =? _) = false |- _ => apply Z.eqb_neq in H
  | H : (_ <? _) = true |- _ => apply Z.ltb_lt in H
  | H : (_ <? _) = false |- _ => apply Z.ltb_ge in H
  | H : (_ <=? _) = true |- _ => apply Z.leb_le in H
  | H : (_ <=? _) = false |- _ => apply Z.leb_gt in H
  end; subst.

(** Names the one event of a one-event trace. *)
Ltac in_singleton :=
  intros; try intro;
  repeat match goal with
  | H : _ ∈ [_] |- _ => apply list_elem_of_singleton in H; simplify_eq
  end.

(** ** DToken *)

Section DTokenFacts.
Import DToken.


Lemma credited_app U evs evs' :
  credited U (evs ++ evs') = credited U evs + credited U evs'.
Proof. induction evs as [|[] evs IH]; simpl; lia. Qed.

Lemma income_app evs evs' : income (evs ++ evs') = income evs + income evs'.
Proof. induction evs as [|[] evs IH]; simpl; lia. Qed.

Lemma payForFeature_ok e s s' evs :
  payForFeature e s = Ok (s', evs) ->
  msg_value e = FEATURE_COST /\
  userPayments s' =
    <[msg_sender e := mget 0 (userPayments s) (msg_sender e) + FEATURE_COST]>
      (userPayments s) /\
  authorizedContracts s' = authorizedContracts s /\
  _owner s' = _owner s /\ _status s' = false.
Proof.
  unfold payForFeature. intros H. invert_ok. simpl in *.
  match goal with Hv : msg_value e = _ |- _ => rewrite Hv end. done.
Qed.

Lemma useFeature_ok e user s s' evs :
  useFeature e user s = Ok (s', evs) ->
  mget false (authorizedContracts s) (msg_sender e) = true /\
  _status s = false /\
  FEATURE_COST <= mget 0 (userPayments s) user /\
  userPayments s' =
    <[user := mget 0 (userPayments s) user - FEATURE_COST]> (userPayments s) /\
  authorizedContracts s' = authorizedContracts s /\
  _owner s' = _owner s /\ _status s' = false /\ msg_value e = 0.
Proof.
  unfold useFeature, onlyAuthorized. intros H. invert_ok. simpl in *.
  done.
Qed.

Lemma receive_ok e s s' evs :
  receive e s = Ok (s', evs) ->
  userPayments s' =
    <[msg_sender e := mget 0 (userPayments s) (msg_sender e) + msg_value e]>
      (userPayments s) /\
  authorizedContracts s' = authorizedContracts s /\
  _owner s' = _owner s /\ _status s' = _status s.
Proof. unfold receive. intros H. invert_ok. done. Qed.

Lemma fallback_ok e s s' evs :
  fallback e s = Ok (s', evs) ->
  userPayments s' =
    <[msg_sender e := mget 0 (userPayments s) (msg_sender e) + msg_value e]>
      (userPayments s) /\
  authorizedContracts s' = authorizedContracts s /\
  _owner s' = _owner s /\ _status s' = _status s.
Proof. unfold fallback. intros H. invert_ok. done. Qed.

Lemma authorizeContract_ok e a b s s' evs :
  authorizeContract e a b s = Ok (s', evs) ->
  _owner s = msg_sender e /\
  authorizedContracts s' = <[a := b]> (authorizedContracts s) /\
  userPayments s' = userPayments s /\
  _owner s' = _owner s /\ _status s' = _status s /\ msg_value e = 0.
Proof.
  unfold authorizeContract, onlyOwner. intros H. invert_ok. done.
Qed.

Lemma transferOwnership_ok e o (s s' : state) evs :
  transferOwnership e o s = Ok (s', evs) ->
  userPayments s' = userPayments s /\
  authorizedContracts s' = authorizedContracts s /\
  _status s' = _status s.
Proof. unfold transferOwnership. intros H. invert_ok. done. Qed.

(** A debit succeeds for an authorized caller that sends no value, outside
    a guarded call, on an account that holds one price and whose usage
    counter is below its maximum. *)
Lemma useFeature_succeeds e u s :
  msg_value e = 0 ->
  hasFeaturePayment s u = true ->
  mget false (authorizedContracts s) (msg_sender e) = true ->
  _status s = false ->
  getUserFeatureUsage s u < MAX_UINT256 ->
  exists s', useFeature e u s
             = Ok (s', [FeatureUsed u (msg_sender e) FEATURE_COST]).
Proof.
  unfold hasFeaturePayment, getUserFeatureUsage.
  intros Hzero Hhas Hauth Hfree Husage.
  unfold useFeature, nonpayable, onlyAuthorized, nonReentrant, checked_sub,
    checked_add.
  rewrite Hzero, Hauth. simpl. rewrite Hfree. simpl.
  apply Z.leb_le in Hhas.
  destruct (mget 0 (userPayments s) u <? FEATURE_COST) eqn:Hlt;
    [apply Z.ltb_lt in Hlt; lia|].
  simpl.
  destruct (FEATURE_COST <=? mget 0 (userPayments s) u) eqn:Hle;
    [|apply Z.leb_gt in Hle; lia].
  simpl.
  destruct (mget 0 (userFeatureUsage s) u + 1 <=? MAX_UINT256) eqn:Hfit;
    [|apply Z.leb_gt in Hfit; lia].
  simpl. eauto.
Qed.

(** While the guard is held the guarded entry points revert before their
    body, so a withdrawal called back never reaches its transfer: what that
    transfer would do makes no difference. *)
Lemma step_by_entered send send' e c s :
  _status s = true -> step_by send e c s = step_by send' e c s.
Proof.
  intros Hheld. destruct c; try done. simpl.
  unfold withdrawETH_by, nonReentrant. simpl. rewrite Hheld.
  by destruct (nonpayable e), (onlyOwner e s).
Qed.

(** What a call does that finds the guard held, as the calls back of a
    withdrawal do: it is one of the entry points without guard; it leaves
    the guard and the usage counters alone, credits what its
    [PaymentReceived] event says, and sends no ether out. *)
Lemma entered_step e c s s' evs :
  _status s = true ->
  step_by transfer e c s = Ok (s', evs) ->
  _status s' = true
  /\ userFeatureUsage s' = userFeatureUsage s
  /\ (forall U, mget 0 (userPayments s') U
                = mget 0 (userPayments s) U + credited U evs)
  /\ balance s' = balance s + income evs
  /\ (forall to amount, Transfer to amount ∉ evs)
  /\ (forall C, c <> AuthorizeContract C true ->
        mget false (authorizedContracts s) C = false ->
        mget false (authorizedContracts s') C = false)
  /\ (forall u v, PaymentReceived u v ∈ evs ->
        (c = Receive \/ c = Fallback) /\ u = msg_sender e /\ v = msg_value e).
Proof.
  intros Hheld Hstep. destruct c; simpl in Hstep.
  - unfold authorizeContract in Hstep. invert_ok. cbn.
    split_and!; try done; try (intros; simpl; lia); try by in_singleton.
    intros C HC Hoff. rewrite mget_insert. case_decide; [|done].
    subst. destruct authorized; [by destruct HC | done].
  - unfold payForFeature, nonReentrant in Hstep. simpl in Hstep.
    by rewrite Hheld in Hstep.
  - apply useFeature_ok in Hstep as (_ & Hfree & _). congruence.
  - unfold withdrawETH_by, nonReentrant in Hstep. simpl in Hstep.
    rewrite Hheld in Hstep. by destruct (nonpayable e), (onlyOwner e s).
  - unfold receive in Hstep. invert_ok. cbn.
    split_and!; try done; try (intros; simpl; lia).
    + intros U. rewrite mget_insert. simpl.
      case_decide; case_bool_decide; subst; (done || lia).
    + by in_singleton.
    + in_singleton. split; [by left | done].
  - unfold fallback in Hstep. invert_ok. cbn.
    split_and!; try done; try (intros; simpl; lia).
    + intros U. rewrite mget_insert. simpl.
      case_decide; case_bool_decide; subst; (done || lia).
    + by in_singleton.
    + in_singleton. split; [by right | done].
  - unfold transferOwnership in Hstep. invert_ok. cbn.
    split_and!; try done; try (intros; simpl; lia); by in_singleton.
Qed.

(** The calls back of a withdrawal, together: they leave the guard and the
    usage counters alone, credit what their [PaymentReceived] events say,
    each of which is a plain transfer of the list, send no ether out, and
    leave a bit of the allow-list off unless one of them switches it on. *)
Lemma reenter_ok e calls s s' evs :
  _status s = true ->
  reenter e calls s = (s', evs) ->
  _status s' = true
  /\ userFeatureUsage s' = userFeatureUsage s
  /\ (forall U, mget 0 (userPayments s') U
                = mget 0 (userPayments s) U + credited U evs)
  /\ balance s' = balance s + income evs
  /\ (forall to amount, Transfer to amount ∉ evs)
  /\ (forall C, Forall (fun n => snd n <> AuthorizeContract C true) calls ->
        mget false (authorizedContracts s) C = false ->
        mget false (authorizedContracts s') C = false)
  /\ (forall u v, PaymentReceived u v ∈ evs ->
        (u, v, Receive) ∈ calls \/ (u, v, Fallback) ∈ calls).
Proof.
  revert s s' evs.
  induction calls as [|[[sender value] c] calls IH]; intros s s' evs Hheld Hre.
  { simpl in Hre. simplify_eq. split_and!; try done; try (simpl; lia).
    - intros to amount Hin. by apply not_elem_of_nil in Hin.
    - intros u v Hin. by apply not_elem_of_nil in Hin. }
  simpl in Hre.
  destruct (step_by transfer (frame e sender value) c s)
    as [[s1 evs1]|err] eqn:Hstep.
  - destruct (reenter e calls s1) as [s2 evs2] eqn:Hrest. simplify_eq.
    apply entered_step in Hstep as (H1 & H2 & H3 & H4 & H5 & H6 & H7);
      [|done].
    apply IH in Hrest as (I1 & I2 & I3 & I4 & I5 & I6 & I7); [|done].
    split_and!; [done | congruence | | | | |].
    + intros U. rewrite I3, H3, credited_app. lia.
    + rewrite I4, H4, income_app. lia.
    + intros to amount Hin.
      apply elem_of_app in Hin as [Hin|Hin]; [by eapply H5 | by eapply I5].
    + intros C Hall Hoff. apply Forall_cons in Hall as [Hc Hall].
      apply I6; [done|]. by apply H6.
    + intros u v Hin. apply elem_of_app in Hin as [Hin|Hin].
      * apply H7 in Hin as ([-> | ->] & -> & ->); simpl;
          [left | right]; apply list_elem_of_here.
      * apply I7 in Hin as [Hin|Hin]; [left | right];
          by apply list_elem_of_further.
  - apply IH in Hre as (I1 & I2 & I3 & I4 & I5 & I6 & I7); [|done].
    split_and!; try done.
    + intros C Hall Hoff. apply Forall_cons in Hall as [Hc Hall]. by apply I6.
    + intros u v Hin.
      apply I7 in Hin as [Hin|Hin]; [left | right];
        by apply list_elem_of_further.
Qed.

(** What a successful withdrawal has checked and done: the amount leaves
    the ledger, the recipient makes its calls back under the guard, and the
    event is emitted last, with the owner of that moment. *)
Lemma withdrawETH_ok e amount s s' evs :
  withdrawETH e amount s = Ok (s', evs) ->
  let sent := if amount =? 0 then balance s else amount in
  msg_value e = 0 /\ _owner s = msg_sender e /\ _status s = false
  /\ sent <> 0 /\ sent <= balance s /\ call_succeeds e = true
  /\ exists s1 evs1,
       reenter e (reentry e)
         (set_balance (balance s - sent) (set__status true s)) = (s1, evs1)
       /\ s' = set__status false s1
       /\ evs = Transfer (_owner s) sent
                  :: evs1 ++ [PaymentWithdrawn (_owner s1) sent].
Proof.
  unfold withdrawETH, withdrawETH_by, onlyOwner, sendValue. intros H.
  invert_ok. simpl in *.
  destruct (balance s <? (if amount =? 0 then balance s else amount))
    eqn:Hlow; [done|].
  destruct (call_succeeds e) eqn:Hcall; [|done].
  destruct (reenter e (reentry e) _) as [s1 evs1] eqn:Hre.
  simplify_eq. apply Z.ltb_ge in Hlow.
  split_and!; try done. eauto.
Qed.

(** The same, read from outside. *)
Lemma withdrawETH_facts e amount s s' evs :
  withdrawETH e amount s = Ok (s', evs) ->
  let sent := if amount =? 0 then balance s else amount in
  _status s' = false
  /\ userFeatureUsage s' = userFeatureUsage s
  /\ (forall U, mget 0 (userPayments s') U
                = mget 0 (userPayments s) U + credited U evs)
  /\ balance s' = balance s - sent + income evs
  /\ (forall C,
        Forall (fun n => snd n <> AuthorizeContract C true) (reentry e) ->
        mget false (authorizedContracts s) C = false ->
        mget false (authorizedContracts s') C = false)
  /\ (forall u v, PaymentReceived u v ∈ evs ->
        (u, v, Receive) ∈ reentry e \/ (u, v, Fallback) ∈ reentry e).
Proof.
  intros H sent.
  apply withdrawETH_ok in H
    as (_ & _ & _ & _ & _ & _ & s1 & evs1 & Hre & -> & ->).
  fold sent in Hre.
  apply reenter_ok in Hre as (I1 & I2 & I3 & I4 & I5 & I6 & I7); [|done].
  split_and!; try done.
  - intros U. rewrite I3. simpl. rewrite credited_app. simpl. lia.
  - simpl in *. rewrite I4, income_app. simpl. lia.
  - intros u v Hin. apply I7.
    apply elem_of_cons in Hin as [Hin|Hin]; [done|].
    apply elem_of_app in Hin as [Hin|Hin]; [done|].
    by apply list_elem_of_singleton in Hin.
Qed.

End DTokenFacts.

Section DTokenClaims.
Import DToken.




(** A call that does not switch the bit of [C] on leaves it off. *)
Lemma exec_keeps_off e c s C :
  keeps_off C (e, c) ->
  mget false (authorizedContracts s) C = false ->
  mget false (authorizedContracts (exec e c s)) C = false.
Proof.
  intros [Hc Hback] Hoff. simpl in *. unfold exec.
  destruct (step e c s) as [[s' evs]|err] eqn:Hstep; [|done].
  destruct c; unfold step in Hstep; simpl in Hstep.
  - apply authorizeContract_ok in Hstep as (_ & -> & _).
    rewrite mget_insert. case_decide; [|done].
    subst. destruct authorized; [by destruct Hc | done].
  - apply payForFeature_ok in Hstep as (_ & _ & -> & _). done.
  - apply useFeature_ok in Hstep as (_ & _ & _ & _ & -> & _). done.
  - fold (withdrawETH e amount s) in Hstep.
    apply withdrawETH_facts in Hstep as (_ & _ & _ & _ & Hbit & _).
    apply Hbit; [|done]. by eapply Hback.
  - apply receive_ok in Hstep as (_ & -> & _). done.
  - apply fallback_ok in Hstep as (_ & -> & _). done.
  - apply transferOwnership_ok in Hstep as (_ & -> & _). done.
Qed.

(** Once off, the bit of [C] stays off along calls that do not switch it
    on again. *)
Lemma run_unauthorized calls s C :
  Forall (keeps_off C) calls ->
  mget false (authorizedContracts s) C = false ->
  mget false (authorizedContracts (run calls s)) C = false.
Proof.
  intros Hcalls. revert s.
  induction Hcalls as [|[e c] calls Hc _ IH]; intros s Hoff; [done|].
  simpl. apply IH. by apply exec_keeps_off.
Qed.

Lemma useFeature_unauthorized e U s :
  mget false (authorizedContracts s) (msg_sender e) = false ->
  is_ok (useFeature e U s) = false
  /\ (msg_value e = 0 -> useFeature e U s = Revert UnauthorizedContract).
Proof.
  intros H. unfold useFeature, nonpayable, onlyAuthorized. rewrite H.
  split; [by destruct (msg_value e =? 0) | by intros ->].
Qed.

(** C2: a debit succeeds only for a caller that is in the allow-list; a
    caller that is not fails, with [UnauthorizedContract] when it sends no
    value; and after the owner has switched the bit of [C] off, every debit
    that [C] attempts fails in the same way, after any sequence of calls
    that does not switch the bit on again, be it directly or in a call back
    during a withdrawal. *)
Theorem C2_only_authorized_spenders_debit (e : env) (U : address)
    (s : state) :
  (is_ok (useFeature e U s) = true ->
   mget false (authorizedContracts s) (msg_sender e) = true)
  /\ (mget false (authorizedContracts s) (msg_sender e) = false ->
      is_ok (useFeature e U s) = false
      /\ (msg_value e = 0 -> useFeature e U s = Revert UnauthorizedContract))
  /\ (forall (eo : env) (calls : list (env * call)),
      _owner s = msg_sender eo -> msg_value eo = 0 ->
      Forall (keeps_off (msg_sender e)) calls ->
      let s' := run calls (exec eo (AuthorizeContract (msg_sender e) false) s) in
      is_ok (useFeature e U s') = false
      /\ (msg_value e = 0 -> useFeature e U s' = Revert UnauthorizedContract)).
Proof.
  split; [|split].
  - destruct (useFeature e U s) as [[s' evs]|err] eqn:Hstep; [|done].
    intros _. by apply useFeature_ok in Hstep as (? & _).
  - apply useFeature_unauthorized.
  - intros eo calls Howner Hzero Hcalls s'.
    apply useFeature_unauthorized, run_unauthorized; [done|].
    unfold exec, step. simpl. unfold authorizeContract, nonpayable, onlyOwner.
    rewrite Hzero. simpl.
    rewrite bool_decide_eq_true_2 by done. simpl.
    by rewrite mget_insert_eq.
Qed.

Lemma C2_only_authorized_spenders_debit_witness :
  let owner := mkEnv 1 0 0 97476 true [] in
  let user := mkEnv 7 FEATURE_COST 0 97476 true [] in
  let s := run [(owner, AuthorizeContract 50 true); (user, PayForFeature)]
             (constructor owner) in
  is_ok (useFeature (mkEnv 50 0 0 97476 true []) 7 s) = true
  /\ useFeature (mkEnv 50 0 0 97476 true []) 7
       (run [(user, PayForFeature); (owner, AuthorizeContract 51 true);
             (mkEnv 1 0 0 97476 true [(1, 0, AuthorizeContract 52 true)],
              WithdrawETH 0)]
          (exec owner (AuthorizeContract 50 false) s))
     = Revert UnauthorizedContract.
Proof.
  intros owner user s. split; [vm_compute; reflexivity|].
  destruct (C2_only_authorized_spenders_debit (mkEnv 50 0 0 97476 true []) 7 s)
    as (_ & _ & H).
  apply (H owner); [vm_compute; reflexivity | reflexivity | | reflexivity].
  repeat constructor; simpl; try discriminate;
    intros ? [= <-]; repeat constructor; simpl; discriminate.
Defined.

End DTokenClaims.

Section DTokenCurrency.
Import DToken.

(** C9: called by the owner without value (outside any other guarded call
    of the ledger), [withdrawETH(0)] sends the whole balance held by the
    ledger to the owner, who accepts it; the ledger is left with what the
    recipient pays back in while it holds the control, which is nothing,
    with no credit changed and no other effect than the withdrawal event,
    when the recipient makes no call back.  An amount above the held balance
    fails with [InvalidAmount]; and so does an amount that resolves to zero,
    which is [withdrawETH(0)] on an empty ledger.  A failed call sends
    nothing: it has no effects at all. *)
Theorem C9_withdraw (e : env) (amount : Z) (s : state) :
  _owner s = msg_sender e ->
  msg_value e = 0 ->
  _status s = false ->
  0 <= balance s ->
  (amount = 0 -> 0 < balance s -> call_succeeds e = true ->
   exists s' evs,
     withdrawETH e amount s = Ok (s', Transfer (_owner s) (balance s) :: evs)
     /\ balance s' = income evs
     /\ (forall to v, Transfer to v ∉ evs)
     /\ (reentry e = [] ->
         evs = [PaymentWithdrawn (_owner s) (balance s)]
         /\ balance s' = 0
         /\ userPayments s' = userPayments s))
  /\ (balance s < amount -> withdrawETH e amount s = Revert InvalidAmount)
  /\ (amount = 0 -> balance s = 0 ->
      withdrawETH e amount s = Revert InvalidAmount).
Proof.
  intros Howner Hzero Hfree Hheld.
  split; [|split].
  - intros -> Hpos Hcall.
    destruct (withdrawETH e 0 s) as [[s' evs]|err] eqn:Hw.
    + pose proof Hw as Hfacts.
      apply withdrawETH_facts in Hfacts as (_ & _ & _ & Hbal & _).
      apply withdrawETH_ok in Hw
        as (_ & _ & _ & _ & _ & _ & s1 & evs1 & Hre & -> & ->).
      simpl in *.
      eexists _, _. split; [reflexivity|].
      pose proof Hre as Hre'.
      apply reenter_ok in Hre' as (_ & _ & _ & _ & Hno & _); [|done].
      split_and!.
      * simpl. lia.
      * intros to v Hin. apply elem_of_app in Hin as [Hin|Hin];
          [by eapply Hno | by apply list_elem_of_singleton in Hin].
      * intros Hnone. rewrite Hnone in Hre. simpl in Hre. simplify_eq.
        simpl. split; [done|]. split; [lia | done].
    + exfalso. revert Hw.
      unfold withdrawETH, withdrawETH_by, nonpayable, onlyOwner, nonReentrant,
        sendValue.
      rewrite Hzero. simpl. rewrite bool_decide_eq_true_2 by done.
      simpl. rewrite Hfree. simpl. rewrite Hcall, Z.ltb_irrefl. simpl.
      destruct (balance s =? 0) eqn:Hz; [apply Z.eqb_eq in Hz; lia|]. simpl.
      by destruct (reenter e (reentry e) _).
  - intros Hover.
    unfold withdrawETH, withdrawETH_by, nonpayable, onlyOwner, nonReentrant.
    rewrite Hzero. simpl. rewrite bool_decide_eq_true_2 by done.
    simpl. rewrite Hfree. simpl.
    destruct (amount =? 0) eqn:Hz; [apply Z.eqb_eq in Hz; lia|].
    apply Z.ltb_lt in Hover. by rewrite Hover.
  - intros -> Hnone.
    unfold withdrawETH, withdrawETH_by, nonpayable, onlyOwner, nonReentrant.
    rewrite Hzero. simpl. rewrite bool_decide_eq_true_2 by done.
    simpl. rewrite Hfree. simpl. rewrite Hnone. done.
Qed.

Lemma C9_withdraw_witness :
  let owner := mkEnv 1 0 0 97476 true [] in
  let s := run [(mkEnv 7 FEATURE_COST 0 97476 true [], PayForFeature);
                (mkEnv 8 5 0 97476 true [], Receive)] (constructor owner) in
  (exists s',
     withdrawETH owner 0 s =
       Ok (s', [Transfer 1 100000000000005;
                PaymentWithdrawn 1 100000000000005])
     /\ balance s' = 0
     /\ userPayments s' = userPayments s)
  /\ withdrawETH owner 100000000000006 s = Revert InvalidAmount
  /\ withdrawETH owner 0 (constructor owner) = Revert InvalidAmount.
Proof.
  intros owner s. split; [|split].
  - destruct (C9_withdraw owner 0 s) as (H & _);
      [reflexivity | reflexivity | reflexivity | vm_compute; discriminate |].
    destruct H as (s' & evs & Hw & _ & _ & Hplain);
      [reflexivity | vm_compute; reflexivity | reflexivity |].
    destruct Hplain as (-> & Hb & Hp); [reflexivity|].
    exists s'. split; [exact Hw|]. split; [exact Hb | exact Hp].
  - destruct (C9_withdraw owner 100000000000006 s) as (_ & H & _);
      [reflexivity | reflexivity | reflexivity | vm_compute; discriminate |].
    apply H. vm_compute. reflexivity.
  - destruct (C9_withdraw owner 0 (constructor owner)) as (_ & _ & H);
      [reflexivity | reflexivity | reflexivity | vm_compute; discriminate |].
    apply H; reflexivity.
Defined.

(** C10: a plain transfer to the ledger, through [receive] or through
    [fallback], credits the sender with exactly the value sent, whatever
    the value (the credit staying a [uint256]); the test that the value is
    the feature price is made by [payForFeature] alone, which rejects any
    other value. *)
Theorem C10_direct_transfer_credits (e : env) (s : state) :
  getUserPaymentBalance s (msg_sender e) + msg_value e <= MAX_UINT256 ->
  (exists s',
     receive e s = Ok (s', [PaymentReceived (msg_sender e) (msg_value e)])
     /\ getUserPaymentBalance s' (msg_sender e) =
        getUserPaymentBalance s (msg_sender e) + msg_value e
     /\ balance s' = balance s + msg_value e)
  /\ (exists s',
     fallback e s = Ok (s', [PaymentReceived (msg_sender e) (msg_value e)])
     /\ getUserPaymentBalance s' (msg_sender e) =
        getUserPaymentBalance s (msg_sender e) + msg_value e
     /\ balance s' = balance s + msg_value e)
  /\ (msg_value e <> FEATURE_COST ->
      is_ok (payForFeature e s) = false
      /\ (_status s = false ->
          payForFeature e s = Revert InsufficientPayment)).
Proof.
  unfold getUserPaymentBalance. intros Hfit.
  apply Z.leb_le in Hfit.
  split; [|split].
  - unfold receive, checked_add. simpl. rewrite Hfit. simpl.
    eexists. split; [done|]. simpl. by rewrite mget_insert_eq.
  - unfold fallback, checked_add. simpl. rewrite Hfit. simpl.
    eexists. split; [done|]. simpl. by rewrite mget_insert_eq.
  - intros Hprice. apply Z.eqb_neq in Hprice.
    unfold payForFeature, nonReentrant. simpl.
    destruct (_status s); simpl; [done|]. rewrite Hprice. done.
Qed.

Lemma C10_direct_transfer_credits_witness :
  let e := mkEnv 7 123 0 97476 true [] in
  let s := constructor (mkEnv 1 0 0 97476 true []) in
  (exists s', receive e s = Ok (s', [PaymentReceived 7 123])
     /\ getUserPaymentBalance s' 7 = 0 + 123
     /\ balance s' = 0 + 123)
  /\ payForFeature e s = Revert InsufficientPayment.
Proof.
  intros e s.
  destruct (C10_direct_transfer_credits e s) as (H1 & _ & H3);
    [vm_compute; discriminate|].
  split; [exact H1|].
  apply H3; [vm_compute; discriminate | reflexivity].
Defined.

End DTokenCurrency.

(** ** The request logs *)

Lemma array_get_ok {A} (a : list A) (i : Z) (x : A) :
  array_get a i = Ok x -> a !! Z.to_nat i = Some x.
Proof. unfold array_get. case_match; [|done]. by intros [= <-]. Qed.

Lemma array_set_ok {A} (a a' : list A) (i : Z) (x : A) :
  array_set a i x = Ok a' -> a' = <[Z.to_nat i := x]> a.
Proof. unfold array_set. case_match; [|done]. by intros [= <-]. Qed.

Section ContractAnalysisFacts.
Import ContractAnalysis.

(** What one call can do to a stored request: nothing, or complete it,
    which needs it pending and leaves it completed. *)
Lemma step_request e c d s d' s' evs U n r :
  step e c (d, s) = Ok (d', s', evs) ->
  getUserRequests s U !! n = Some r ->
  getUserRequests s' U !! n = Some r
  \/ (completed r = false /\
      exists r', getUserRequests s' U !! n = Some r' /\ completed r' = true).
Proof.
  unfold getUserRequests. intros Hstep Hr.
  destruct c; simpl in Hstep.
  - unfold requestContractAnalysis in Hstep. invert_ok. simpl. left.
    rewrite mget_push_at. case_decide; [|done].
    subst. by apply lookup_app_l_Some.
  - unfold completeAnalysis in Hstep. invert_ok. simpl.
    match goal with H : array_get _ _ = _ |- _ =>
      apply array_get_ok in H; rename H into Hget end.
    match goal with H : array_set _ _ _ = _ |- _ =>
      apply array_set_ok in H; subst end.
    rewrite mget_insert. case_decide; [subst|by left].
    destruct (decide (Z.to_nat requestIndex = n)) as [<-|Hne].
    + right. rewrite Hr in Hget. injection Hget as <-. split; [done|].
      eexists. split.
      { apply list_lookup_insert_eq. by eapply lookup_lt_Some. }
      reflexivity.
    + left. by rewrite list_lookup_insert_ne.
  - unfold transferOwnership in Hstep. invert_ok. by left.
  - invert_ok. by left.
Qed.

Lemma run_completed calls d s U n r :
  getUserRequests s U !! n = Some r ->
  completed r = true ->
  getUserRequests (snd (run calls (d, s))) U !! n = Some r.
Proof.
  revert d s. induction calls as [|[e c] calls IH]; intros d s Hr Hdone;
    [done|].
  simpl. unfold exec.
  destruct (step e c (d, s)) as [[[d' s'] evs]|err] eqn:Hstep; [|by apply IH].
  apply IH; [|done].
  eapply step_request in Hstep as [H | (H & _)]; [done| |done].
  congruence.
Qed.

Lemma completeAnalysis_completed e U i score text s r :
  0 <= i ->
  getUserRequests s U !! Z.to_nat i = Some r ->
  completed r = true ->
  is_ok (completeAnalysis e U i score text s) = false
  /\ (_owner s = msg_sender e -> msg_value e = 0 ->
      completeAnalysis e U i score text s =
        Revert (Error "Analysis already completed")).
Proof.
  unfold getUserRequests. intros Hi Hr Hdone.
  assert ((i <? Z.of_nat (length (mget [] (userRequests s) U))) = true) as Hlt.
  { apply Z.ltb_lt. apply lookup_lt_Some in Hr. lia. }
  unfold completeAnalysis, nonpayable, onlyOwner, array_get. simpl.
  rewrite Hlt, Hr. simpl. rewrite Hdone. simpl.
  split.
  - destruct (msg_value e =? 0); [|done]. simpl. by case_bool_decide.
  - intros Howner ->. simpl. by rewrite bool_decide_eq_true_2.
Qed.

End ContractAnalysisFacts.

Section TokenomicsFacts.
Import Tokenomics.

Lemma step_tokenomics_request e c d s d' s' evs U n r :
  step e c (d, s) = Ok (d', s', evs) ->
  getUserRequests s U !! n = Some r ->
  getUserRequests s' U !! n = Some r
  \/ (completed r = false /\
      exists r', getUserRequests s' U !! n = Some r' /\ completed r' = true).
Proof.
  unfold getUserRequests. intros Hstep Hr.
  destruct c; simpl in Hstep.
  - unfold requestTokenomicsAnalysis in Hstep. invert_ok. simpl. left.
    rewrite mget_push_at. case_decide; [|done].
    subst. by apply lookup_app_l_Some.
  - unfold completeTokenomicsAnalysis in Hstep. invert_ok. simpl.
    match goal with H : array_get _ _ = _ |- _ =>
      apply array_get_ok in H; rename H into Hget end.
    match goal with H : array_set _ _ _ = _ |- _ =>
      apply array_set_ok in H; subst end.
    rewrite mget_insert. case_decide; [subst|by left].
    destruct (decide (Z.to_nat requestIndex = n)) as [<-|Hne].
    + right. rewrite Hr in Hget. injection Hget as <-. split; [done|].
      eexists. split.
      { apply list_lookup_insert_eq. by eapply lookup_lt_Some. }
      reflexivity.
    + left. by rewrite list_lookup_insert_ne.
  - unfold transferOwnership in Hstep. invert_ok. by left.
  - invert_ok. by left.
Qed.

Lemma run_tokenomics_completed calls d s U n r :
  getUserRequests s U !! n = Some r ->
  completed r = true ->
  getUserRequests (snd (run calls (d, s))) U !! n = Some r.
Proof.
  revert d s. induction calls as [|[e c] calls IH]; intros d s Hr Hdone;
    [done|].
  simpl. unfold exec.
  destruct (step e c (d, s)) as [[[d' s'] evs]|err] eqn:Hstep; [|by apply IH].
  apply IH; [|done].
  eapply step_tokenomics_request in Hstep as [H | (H & _)]; [done| |done].
  congruence.
Qed.

Lemma completeTokenomicsAnalysis_completed e U i score text s r :
  0 <= i ->
  getUserRequests s U !! Z.to_nat i = Some r ->
  completed r = true ->
  is_ok (completeTokenomicsAnalysis e U i score text s) = false
  /\ (_owner s = msg_sender e -> msg_value e = 0 ->
      completeTokenomicsAnalysis e U i score text s =
        Revert (Error "Analysis already completed")).
Proof.
  unfold getUserRequests. intros Hi Hr Hdone.
  assert ((i <? Z.of_nat (length (mget [] (userRequests s) U))) = true) as Hlt.
  { apply Z.ltb_lt. apply lookup_lt_Some in Hr. lia. }
  unfold completeTokenomicsAnalysis, nonpayable, onlyOwner, array_get. simpl.
  rewrite Hlt, Hr. simpl. rewrite Hdone. simpl.
  split.
  - destruct (msg_value e =? 0); [|done]. simpl. by case_bool_decide.
  - intros Howner ->. simpl. by rewrite bool_decide_eq_true_2.
Qed.

End TokenomicsFacts.

(** C3: once the request at [(U, i)] is completed, a further completion
    of [(U, i)] fails, whoever calls and whatever the value sent, and the
    owner (the only caller the operation accepts), calling without value as
    the operation requires, gets "Analysis already completed"; the stored
    request,
    with its score and its text, stays as it is through any sequence of
    calls.  A call changes a stored request only by completing a pending
    one, so the score and the text are written at most once after creation.
    This holds for the contract-analysis log and for the tokenomics log. *)
Theorem C3_completed_request_is_final :
  (forall (d : DToken.state) (s : ContractAnalysis.state) (U : address)
          (i : Z) (r : ContractAnalysis.AnalysisRequest),
     0 <= i ->
     ContractAnalysis.getUserRequests s U !! Z.to_nat i = Some r ->
     ContractAnalysis.completed r = true ->
     (forall e score text,
        is_ok (ContractAnalysis.completeAnalysis e U i score text s) = false
        /\ (ContractAnalysis._owner s = msg_sender e -> msg_value e = 0 ->
            ContractAnalysis.completeAnalysis e U i score text s =
              Revert (Error "Analysis already completed")))
     /\ (forall calls,
           ContractAnalysis.getUserRequests
             (snd (ContractAnalysis.run calls (d, s))) U !! Z.to_nat i
           = Some r))
  /\ (forall (d : DToken.state) (s : Tokenomics.state) (U : address)
             (i : Z) (r : Tokenomics.TokenomicsRequest),
     0 <= i ->
     Tokenomics.getUserRequests s U !! Z.to_nat i = Some r ->
     Tokenomics.completed r = true ->
     (forall e score text,
        is_ok (Tokenomics.completeTokenomicsAnalysis e U i score text s)
        = false
        /\ (Tokenomics._owner s = msg_sender e -> msg_value e = 0 ->
            Tokenomics.completeTokenomicsAnalysis e U i score text s =
              Revert (Error "Analysis already completed")))
     /\ (forall calls,
           Tokenomics.getUserRequests
             (snd (Tokenomics.run calls (d, s))) U !! Z.to_nat i
           = Some r))
  /\ (forall e c d s d' s' evs U n r,
        ContractAnalysis.step e c (d, s) = Ok (d', s', evs) ->
        ContractAnalysis.getUserRequests s U !! n = Some r ->
        ContractAnalysis.getUserRequests s' U !! n = Some r
        \/ (ContractAnalysis.completed r = false /\
            exists r', ContractAnalysis.getUserRequests s' U !! n = Some r'
                       /\ ContractAnalysis.completed r' = true))
  /\ (forall e c d s d' s' evs U n r,
        Tokenomics.step e c (d, s) = Ok (d', s', evs) ->
        Tokenomics.getUserRequests s U !! n = Some r ->
        Tokenomics.getUserRequests s' U !! n = Some r
        \/ (Tokenomics.completed r = false /\
            exists r', Tokenomics.getUserRequests s' U !! n = Some r'
                       /\ Tokenomics.completed r' = true)).
Proof.
  split; [|split; [|split]].
  - intros d s U i r Hi Hr Hdone. split.
    + intros e score text. by eapply completeAnalysis_completed.
    + intros calls. by apply run_completed.
  - intros d s U i r Hi Hr Hdone. split.
    + intros e score text. by eapply completeTokenomicsAnalysis_completed.
    + intros calls. by apply run_tokenomics_completed.
  - apply step_request.
  - apply step_tokenomics_request.
Qed.

(** The scenario of the specification: deposit, request, completion with
    score 82, and a second completion with score 50. *)
Lemma C3_completed_request_is_final_witness :
  let owner := mkEnv 1 0 10 97476 true [] in
  let payer := mkEnv 7 DToken.FEATURE_COST 10 97476 true [] in
  let user := mkEnv 7 0 10 97476 true [] in
  let w := ContractAnalysis.run
             [(owner, ContractAnalysis.Ledger (DToken.AuthorizeContract 50 true));
              (payer, ContractAnalysis.Ledger DToken.PayForFeature);
              (user, ContractAnalysis.RequestContractAnalysis "0xAbc");
              (owner, ContractAnalysis.CompleteAnalysis 7 0 82 "low risk")]
             (DToken.constructor owner, ContractAnalysis.constructor owner 50) in
  ContractAnalysis.completeAnalysis owner 7 0 50 "x" (snd w)
  = Revert (Error "Analysis already completed")
  /\ ContractAnalysis.riskScore <$>
       (ContractAnalysis.getUserRequests
          (snd (ContractAnalysis.run
                  [(owner, ContractAnalysis.CompleteAnalysis 7 0 50 "x")] w))
          7 !! 0%nat)
     = Some 82.
Proof.
  intros owner payer user w.
  destruct C3_completed_request_is_final as (H & _).
  destruct (H (fst w) (snd w) 7 0
              (ContractAnalysis.mkRequest 7 "0xAbc" 100000000000000 true 82
                 "low risk" 10))
    as (Hfail & Hkeep);
    [lia | vm_compute; reflexivity | reflexivity |].
  split.
  - apply Hfail; reflexivity.
  - specialize (Hkeep [(owner, ContractAnalysis.CompleteAnalysis 7 0 50 "x")]).
    replace (fst w, snd w) with w in Hkeep by (by destruct w).
    exact (f_equal (fmap ContractAnalysis.riskScore) Hkeep).
Defined.

(** ** Universal *)

Section UniversalFacts.
Import Universal.

Lemma copy_message_step (all res : list Message) (offset : Z) (j : nat)
    (m : Message) :
  0 <= offset ->
  all !! (Z.to_nat offset + j)%nat = Some m ->
  (j < length res)%nat ->
  copy_message all offset (offset + Z.of_nat j) res = Ok (<[j := m]> res).
Proof.
  intros Hoff Hm Hj. unfold copy_message, array_get, checked_sub, array_set.
  replace (Z.to_nat (offset + Z.of_nat j)) with (Z.to_nat offset + j)%nat
    by lia.
  rewrite Hm. simpl.
  destruct (offset <=? offset + Z.of_nat j) eqn:Hle;
    [|apply Z.leb_gt in Hle; lia].
  simpl.
  destruct (offset + Z.of_nat j - offset <? _) eqn:Hlt;
    [|apply Z.ltb_ge in Hlt; lia].
  do 2 f_equal. lia.
Qed.

(** After [j] rounds the first [j] cells of the result hold the first [j]
    messages from [offset] on, and the other cells are still zero; [n]
    more rounds fill the next [n] cells. *)
Lemma copy_loop_fills (all : list Message) (offset : Z) (size n j : nat) :
  0 <= offset ->
  (j + n <= size)%nat ->
  (Z.to_nat offset + size <= length all)%nat ->
  for_loop n (offset + Z.of_nat j) (copy_message all offset)
    (take j (drop (Z.to_nat offset) all) ++ replicate (size - j) zero_message)
  = Ok (take (j + n) (drop (Z.to_nat offset) all)
        ++ replicate (size - (j + n)) zero_message).
Proof.
  intros Hoff. revert j. induction n as [|n IH]; intros j Hj Hsize.
  { simpl. by rewrite Nat.add_0_r. }
  cbn [for_loop].
  destruct (lookup_lt_is_Some_2 (drop (Z.to_nat offset) all) j) as [m Hm].
  { rewrite length_drop. lia. }
  assert (length (take j (drop (Z.to_nat offset) all)) = j) as Hlen.
  { rewrite length_take, length_drop. lia. }
  rewrite (copy_message_step _ _ _ _ m); [|done| |].
  2: { by rewrite lookup_drop in Hm. }
  2: { rewrite length_app, Hlen, length_replicate. lia. }
  simpl.
  rewrite insert_app_r_alt by lia. rewrite Hlen, Nat.sub_diag.
  destruct (size - j)%nat as [|k] eqn:Hk; [lia|]. simpl.
  replace (offset + Z.of_nat j + 1) with (offset + Z.of_nat (S j)) by lia.
  replace (take j (drop (Z.to_nat offset) all) ++ m :: replicate k zero_message)
    with (take (S j) (drop (Z.to_nat offset) all)
          ++ replicate (size - S j) zero_message).
  { rewrite IH by lia. do 3 f_equal; lia. }
  rewrite (take_S_r _ _ _ Hm), <- app_assoc. simpl.
  do 3 f_equal. lia.
Qed.

(** C5, as stated, fails: on a list of two messages, offset 1 with the
    largest limit overflows [offset + limit], and the read reverts where
    the claim has it return the slice [[1, 2)]. *)
Lemma C5_large_limit_reverts :
  let m := mkMessage 7 8 "hi" 0 100000000000000 false 97476 in
  let s := mkState 1 false 50 ∅ ∅ [m; m] in
  getAllMessages s 1 MAX_UINT256 = Revert (Panic 17)
  /\ getAllMessages s 1 MAX_UINT256
     <> Ok (slice (allMessages s) 1
              (Z.min (1 + MAX_UINT256) (Z.of_nat (length (allMessages s))))).
Proof. split; [vm_compute; reflexivity | vm_compute; discriminate]. Qed.

(** C5 (amended): the paginated read returns the empty sequence when
    [offset >= total]; when [offset < total] and [offset + limit] is a
    [uint256], it returns exactly the slice
    [[offset, min(offset + limit, total))] of the global list; and when
    [offset < total] and [offset + limit] overflows, it reverts with the
    arithmetic panic. *)
Theorem C5_paginated_read (s : state) (offset limit : Z) :
  0 <= offset -> 0 <= limit ->
  let total := Z.of_nat (length (allMessages s)) in
  (total <= offset -> getAllMessages s offset limit = Ok [])
  /\ (offset < total -> offset + limit <= MAX_UINT256 ->
      getAllMessages s offset limit =
        Ok (slice (allMessages s) offset (Z.min (offset + limit) total)))
  /\ (offset < total -> MAX_UINT256 < offset + limit ->
      getAllMessages s offset limit = Revert (Panic 17)).
Proof.
  intros Hoff Hlim total. unfold getAllMessages. fold total. split; [|split].
  - intros Hge. apply Z.leb_le in Hge. by rewrite Hge.
  - intros Hlt Hfit.
    destruct (total <=? offset) eqn:Hc; [apply Z.leb_le in Hc; lia|].
    unfold checked_add. apply Z.leb_le in Hfit. rewrite Hfit. simpl.
    set (end_ := if total <? offset + limit then total else offset + limit).
    assert (end_ = Z.min (offset + limit) total) as Hend.
    { unfold end_. destruct (total <? offset + limit) eqn:Hm;
        [apply Z.ltb_lt in Hm | apply Z.ltb_ge in Hm]; lia. }
    rewrite Hend. unfold checked_sub.
    destruct (offset <=? Z.min (offset + limit) total) eqn:Hle;
      [|apply Z.leb_gt in Hle; lia].
    simpl. unfold for_range, slice.
    set (size := Z.to_nat (Z.min (offset + limit) total - offset)).
    pose proof (copy_loop_fills (allMessages s) offset size size 0 Hoff) as H.
    simpl in H. rewrite Z.add_0_r, Nat.sub_0_r, Nat.sub_diag in H.
    simpl in H. rewrite app_nil_r in H. apply H; [lia|].
    unfold size, total. lia.
  - intros Hlt Hover.
    destruct (total <=? offset) eqn:Hc; [apply Z.leb_le in Hc; lia|].
    unfold checked_add. apply Z.leb_gt in Hover. by rewrite Hover.
Qed.

(** The scenario of the specification: five entries, [(3, 10)] returns
    entries 3 and 4, and [(10, 5)] returns nothing. *)
Lemma C5_paginated_read_witness :
  let m n := mkMessage 7 8 "hi" n 100000000000000 false 97476 in
  let s := mkState 1 false 50 ∅ ∅ [m 0; m 1; m 2; m 3; m 4] in
  getAllMessages s 3 10 = Ok [m 3; m 4]
  /\ getAllMessages s 10 5 = Ok [].
Proof.
  intros m s. split.
  - destruct (C5_paginated_read s 3 10) as (_ & H & _); [lia | lia |].
    rewrite H; [reflexivity | simpl; lia | vm_compute; discriminate].
  - destruct (C5_paginated_read s 10 5) as (H & _); [lia | lia |].
    apply H. simpl. lia.
Defined.

End UniversalFacts.

Section UniversalSend.
Import Universal.

(** C6: a cross-chain send to the local chain id always fails, and with
    [InvalidRecipient] once the checks made before it pass (no value is
    sent, the caller has credit, the guard is free, the message is not
    empty); a successful cross-chain send appends one record tagged
    [crossChain = true] to the sender's sent list and to the global list and
    leaves every received list as it is, while a successful [sendMessage]
    appends its record to the recipient's received list.  Both sends do
    succeed for a caller with credit who sends no value, a recipient other
    than the zero address and a message that is not empty, when the ledger
    has authorized the log and neither guard is held: the cross-chain one
    for every destination other than the local chain. *)
Theorem C6_cross_chain_send (e : env) (destinationChain : Z)
    (recipient : address) (message : string) (d : DToken.state)
    (s : state) :
  (destinationChain = block_chainid e ->
   is_ok (sendCrossChainMessage e destinationChain recipient message d s)
   = false
   /\ (msg_value e = 0 ->
       DToken.hasFeaturePayment d (msg_sender e) = true ->
       _status s = false ->
       is_empty message = false ->
       sendCrossChainMessage e destinationChain recipient message d s
       = Revert InvalidRecipient))
  /\ (forall s' d' evs,
      sendCrossChainMessage e destinationChain recipient message d s
      = Ok (s', (d', evs)) ->
      let m := mkMessage (msg_sender e) recipient message
                 (block_timestamp e) MESSAGE_COST true destinationChain in
      destinationChain <> block_chainid e
      /\ crossChain m = true
      /\ getUserMessages s' (msg_sender e)
         = getUserMessages s (msg_sender e) ++ [m]
      /\ allMessages s' = allMessages s ++ [m]
      /\ receivedMessages s' = receivedMessages s)
  /\ (forall s' d' evs,
      sendMessage e recipient message d s = Ok (s', (d', evs)) ->
      let m := mkMessage (msg_sender e) recipient message
                 (block_timestamp e) MESSAGE_COST false (block_chainid e) in
      getReceivedMessages s' recipient
      = getReceivedMessages s recipient ++ [m]
      /\ getUserMessages s' (msg_sender e)
         = getUserMessages s (msg_sender e) ++ [m]
      /\ allMessages s' = allMessages s ++ [m])
  /\ (msg_value e = 0 ->
      DToken.hasFeaturePayment d (msg_sender e) = true ->
      _status s = false ->
      recipient <> 0 ->
      is_empty message = false ->
      mget false (DToken.authorizedContracts d) (self s) = true ->
      DToken._status d = false ->
      DToken.getUserFeatureUsage d (msg_sender e) < MAX_UINT256 ->
      is_ok (sendMessage e recipient message d s) = true
      /\ (destinationChain <> block_chainid e ->
          is_ok (sendCrossChainMessage e destinationChain recipient message
                   d s) = true)).
Proof.
  split; [|split; [|split]].
  - intros ->.
    unfold sendCrossChainMessage, nonpayable, requirePayment, nonReentrant.
    simpl. rewrite Z.eqb_refl. split.
    + destruct (msg_value e =? 0); simpl; [|done].
      destruct (DToken.hasFeaturePayment d (msg_sender e)); simpl; [|done].
      destruct (_status s); simpl; [done|].
      destruct (recipient =? 0); simpl; [done|].
      by destruct (is_empty message).
    + intros -> -> -> ->. simpl. by destruct (recipient =? 0).
  - intros s' d' evs H. unfold sendCrossChainMessage, requirePayment in H.
    invert_ok. simpl. unfold getUserMessages. simpl.
    rewrite mget_push_at. by case_decide.
  - intros s' d' evs H. unfold sendMessage, requirePayment in H.
    invert_ok. simpl. unfold getUserMessages, getReceivedMessages. simpl.
    rewrite !mget_push_at. by repeat case_decide.
  - intros Hzero Hhas Hfree Hto Hmsg Hauth Hdfree Husage.
    destruct (useFeature_succeeds (call_from (self s) e) (msg_sender e) d)
      as [d' Hdebit]; [done..|].
    apply Z.eqb_neq in Hto.
    unfold sendMessage, sendCrossChainMessage, nonpayable, requirePayment,
      nonReentrant.
    rewrite Hzero, Hhas. simpl. rewrite Hfree, Hto, Hmsg. simpl.
    rewrite Hdebit. simpl. split; [done|].
    intros Hdest. apply Z.eqb_neq in Hdest. by rewrite Hdest.
Qed.

(** A deposit, then a send on the same chain, which reaches the recipient's
    received list, a cross-chain send, which does not, and a cross-chain
    send to the local chain, which is refused. *)
Lemma C6_cross_chain_send_witness :
  let owner := mkEnv 1 0 10 97476 true [] in
  let payer := mkEnv 7 DToken.FEATURE_COST 10 97476 true [] in
  let user := mkEnv 7 0 10 97476 true [] in
  let d := DToken.run [(owner, DToken.AuthorizeContract 50 true);
                       (payer, DToken.PayForFeature)]
             (DToken.constructor owner) in
  let s := constructor owner 50 in
  sendCrossChainMessage user 97476 8 "hi" d s = Revert InvalidRecipient
  /\ (is_ok (sendCrossChainMessage user 1 8 "hi" d s) = true
      /\ forall s' d' evs,
         sendCrossChainMessage user 1 8 "hi" d s = Ok (s', (d', evs)) ->
         receivedMessages s' = receivedMessages s)
  /\ (is_ok (sendMessage user 8 "hi" d s) = true
      /\ forall s' d' evs,
         sendMessage user 8 "hi" d s = Ok (s', (d', evs)) ->
         getReceivedMessages s' 8
         = [mkMessage 7 8 "hi" 10 MESSAGE_COST false 97476]).
Proof.
  intros owner payer user d s.
  destruct (C6_cross_chain_send user 1 8 "hi" d s)
    as (_ & Hcross & Hsame & Hok).
  destruct Hok as (Hok1 & Hok2);
    [reflexivity | vm_compute; reflexivity | reflexivity
    | discriminate | reflexivity | vm_compute; reflexivity | reflexivity
    | vm_compute; reflexivity |].
  split; [|split].
  - destruct (C6_cross_chain_send user 97476 8 "hi" d s) as (H & _).
    destruct H as (_ & H); [reflexivity|].
    apply H; vm_compute; reflexivity.
  - split; [apply Hok2; discriminate|].
    intros s' d' evs Hsent. apply Hcross in Hsent. apply Hsent.
  - split; [exact Hok1|].
    intros s' d' evs Hsent. apply Hsame in Hsent as (-> & _). reflexivity.
Defined.

End UniversalSend.

(** ** Monitoring *)

(** C7: [triggerAlert] walks the subscriber index of the target, which
    holds a user once per subscription, and for each entry walks all the
    requests of that user.  A user with two active subscriptions to the
    same target is met twice, so one call raises each of the two alert
    counters by two and emits four events, where the claim has one
    increment and one event per subscription. *)
Theorem C7_two_subscriptions_alert_twice :
  let owner := mkEnv 1 0 10 97476 true [] in
  let payer := mkEnv 7 DToken.FEATURE_COST 10 97476 true [] in
  let user := mkEnv 7 0 10 97476 true [] in
  let d := DToken.run [(owner, DToken.AuthorizeContract 50 true);
                       (payer, DToken.PayForFeature);
                       (payer, DToken.PayForFeature)]
             (DToken.constructor owner) in
  exists s1 d1 evs1 s2 d2 evs2 s3,
    Monitoring.requestMonitoring user "T" 300 d
      (Monitoring.constructor owner 50) = Ok (s1, (d1, evs1))
    /\ Monitoring.requestMonitoring user "T" 500 d1 s1 = Ok (s2, (d2, evs2))
    /\ Monitoring.getTokenMonitors s2 "T" = [7; 7]
    /\ (Monitoring.alertCount <$> Monitoring.getUserMonitoring s2 7) = [0; 0]
    /\ (Monitoring.active <$> Monitoring.getUserMonitoring s2 7)
       = [true; true]
    /\ Monitoring.triggerAlert owner "T" "PRICE_SPIKE" 42 s2
       = Ok (s3, [AlertTriggered 7 "T" "PRICE_SPIKE" 42;
                  AlertTriggered 7 "T" "PRICE_SPIKE" 42;
                  AlertTriggered 7 "T" "PRICE_SPIKE" 42;
                  AlertTriggered 7 "T" "PRICE_SPIKE" 42])
    /\ (Monitoring.alertCount <$> Monitoring.getUserMonitoring s3 7) = [2; 2].
Proof.
  intros owner payer user d. do 7 eexists.
  split; [vm_compute; reflexivity|].
  split; [vm_compute; reflexivity|].
  split; [vm_compute; reflexivity|].
  split; [vm_compute; reflexivity|].
  split; [vm_compute; reflexivity|].
  split; vm_compute; reflexivity.
Qed.

(** ** DomainManagement *)

(** C4: [hasRight] reads the expiry from the first record of the grant
    history that carries the right name and the user, not from the grant
    that set the live map.  When a right is granted to the same holder
    twice, the answer follows the older grant: a holder whose current grant
    is permanent is refused once the older grant has expired, and a holder
    whose current grant has expired is accepted when the older grant was
    permanent. *)
Theorem C4_hasRight_reads_first_grant :
  let owner := mkEnv 1 0 0 97476 true [] in
  let pay := (mkEnv 7 DToken.FEATURE_COST 0 97476 true [],
              DomainManagement.Ledger DToken.PayForFeature) in
  let at_ t := mkEnv 7 0 t 97476 true [] in
  let w0 := DomainManagement.run
              [(owner, DomainManagement.Ledger
                         (DToken.AuthorizeContract 50 true));
               pay; pay; pay;
               (at_ 100, DomainManagement.TokenizeDomain "a.io")]
              (DToken.constructor owner,
               DomainManagement.constructor owner 50) in
  (* a grant for 10 seconds, then a permanent grant to the same holder *)
  let w1 := DomainManagement.run
              [(at_ 100, DomainManagement.GrantDomainRight "a.io" "DNS" 9 10);
               (at_ 200, DomainManagement.GrantDomainRight "a.io" "DNS" 9 0)]
              w0 in
  (* a permanent grant, then a grant for 50 seconds to the same holder *)
  let w2 := DomainManagement.run
              [(at_ 100, DomainManagement.GrantDomainRight "a.io" "DNS" 9 0);
               (at_ 200, DomainManagement.GrantDomainRight "a.io" "DNS" 9 50)]
              w0 in
  (mget 0 (DomainManagement.rights (DomainManagement.domain (snd w1) "a.io"))
     "DNS" = 9
   /\ (DomainManagement.expiresAt <$>
         mget [] (DomainManagement.domainRights (snd w1)) "a.io") = [110; 0]
   /\ DomainManagement.hasRight (at_ 300) "a.io" "DNS" 9 (snd w1) = Ok false)
  /\ (mget 0 (DomainManagement.rights (DomainManagement.domain (snd w2) "a.io"))
        "DNS" = 9
      /\ (DomainManagement.expiresAt <$>
            mget [] (DomainManagement.domainRights (snd w2)) "a.io")
         = [0; 250]
      /\ DomainManagement.hasRight (at_ 300) "a.io" "DNS" 9 (snd w2)
         = Ok true).
Proof.
  intros owner pay at_ w0 w1 w2.
  split; (split; [vm_compute; reflexivity|]);
    split; vm_compute; reflexivity.
Qed.

Section DomainLists.
Import DomainManagement.

Lemma occurrences_app n l1 l2 :
  occurrences n (l1 ++ l2) = (occurrences n l1 + occurrences n l2)%nat.
Proof. induction l1 as [|x l1 IH]; simpl; [done|]. rewrite IH. lia. Qed.

Lemma occurrences_zero n l : occurrences n l = 0%nat <-> n ∉ l.
Proof.
  induction l as [|x l IH]; simpl.
  - split; [intros _; apply not_elem_of_nil | done].
  - rewrite not_elem_of_cons. unfold keccak_eq. case_bool_decide; subst.
    + split; [lia | by intros [? _]].
    + rewrite <- IH. split; [intros; split; [done | lia] | intros [_ ?]; lia].
Qed.

(** The search of [transferDomain] stops at the first entry that is the
    name. *)
Lemma find_domain_Some n l i :
  find_domain n l = Some i ->
  exists l1 l2, l = l1 ++ n :: l2 /\ length l1 = i /\ occurrences n l1 = 0%nat.
Proof.
  revert i. induction l as [|x l IH]; intros i; simpl; [done|].
  unfold keccak_eq. case_bool_decide as Hx.
  - intros [= <-]. subst. by exists [], l.
  - destruct (find_domain n l) as [j|] eqn:Hj; simpl; [|done].
    intros [= <-]. destruct (IH j eq_refl) as (l1 & l2 & -> & <- & Hz).
    exists (x :: l1), l2. simpl. unfold keccak_eq.
    rewrite bool_decide_eq_false_2 by done. by rewrite Hz.
Qed.

Lemma find_domain_None n l :
  find_domain n l = None -> occurrences n l = 0%nat.
Proof.
  induction l as [|x l IH]; simpl; [done|].
  unfold keccak_eq. case_bool_decide; [done|].
  destruct (find_domain n l); simpl; [done|]. intros _. by rewrite IH.
Qed.

(** Overwriting with the last entry and popping takes out one entry that
    is the name, if there is one, and keeps every other entry, in some
    order. *)
Lemma occurrences_remove_domain n l m :
  occurrences m (remove_domain n l) =
  (occurrences m l
   - (if bool_decide (m = n) then 1 else 0))%nat.
Proof.
  unfold remove_domain.
  destruct (find_domain n l) as [i|] eqn:Hfind.
  2: { apply find_domain_None in Hfind.
       case_bool_decide; subst; lia. }
  apply find_domain_Some in Hfind as (l1 & l2 & -> & <- & Hz).
  destruct (last (l1 ++ n :: l2)) as [y|] eqn:Hlast.
  2: { apply last_None in Hlast. by destruct l1. }
  assert (forall k : list string,
            occurrences m (l1 ++ n :: k) =
            (occurrences m (l1 ++ k)
             + (if bool_decide (m = n) then 1 else 0))%nat) as Hsplit.
  { intros k. rewrite !occurrences_app. simpl. unfold keccak_eq.
    rewrite (bool_decide_ext (n = m) (m = n)) by done. lia. }
  destruct l2 as [|z l2 _] using rev_ind.
  - rewrite last_snoc in Hlast. injection Hlast as <-.
    rewrite list_insert_id by (by rewrite list_lookup_middle).
    rewrite length_app. simpl.
    replace (length l1 + 1 - 1)%nat with (length l1) by lia.
    rewrite take_app_length. rewrite Hsplit, app_nil_r. lia.
  - replace (l1 ++ n :: l2 ++ [z]) with ((l1 ++ n :: l2) ++ [z]) in *
      by (by rewrite <- app_assoc).
    rewrite last_snoc in Hlast. injection Hlast as <-.
    rewrite insert_app_l by (rewrite length_app; simpl; lia).
    rewrite insert_app_r_alt by lia. rewrite Nat.sub_diag. simpl.
    rewrite take_app_length' by (rewrite !length_app; simpl; lia).
    rewrite !occurrences_app. simpl. unfold keccak_eq.
    rewrite (bool_decide_ext (n = m) (m = n)) by done. lia.
Qed.

End DomainLists.

Section DomainRegistry.
Import DomainManagement.

Lemma tokenizeDomain_ok e n d s s' d' evs :
  tokenizeDomain e n d s = Ok (s', (d', evs)) ->
  is_empty n = false /\ isTokenized (domain s n) = false /\
  domains s' =
    <[n := mkDomain n (msg_sender e) true (block_timestamp e)
             (rights (domain s n)) true]> (domains s) /\
  userDomains s' = push_at (msg_sender e) n (userDomains s).
Proof. unfold tokenizeDomain. intros H. invert_ok. done. Qed.

Lemma transferDomain_ok e n to d s s' d' evs :
  transferDomain e n to d s = Ok (s', (d', evs)) ->
  is_empty (name (domain s n)) = false /\
  owner (domain s n) = msg_sender e /\
  domains s' = <[n := set_owner_of to (domain s n)]> (domains s) /\
  userDomains s' =
    <[msg_sender e :=
        remove_domain n
          (mget [] (push_at to n (userDomains s)) (msg_sender e))]>
      (push_at to n (userDomains s)).
Proof.
  unfold transferDomain, domainExists, onlyDomainOwner. intros H.
  invert_ok. unfold domain in *. simpl in *.
  match goal with H : owner _ = msg_sender e |- _ => rewrite H end. done.
Qed.

Lemma same_ownership_insert s n (f : Domain -> Domain) s' :
  userDomains s' = userDomains s ->
  domains s' = <[n := f (domain s n)]> (domains s) ->
  (forall dm, name (f dm) = name dm /\ owner (f dm) = owner dm
              /\ isTokenized (f dm) = isTokenized dm) ->
  same_ownership s s'.
Proof.
  intros Hu Hd Hf. split; [done|]. intros m. unfold domain. rewrite Hd.
  rewrite mget_insert. case_decide; subst; [apply Hf | done].
Qed.

Lemma step_other_same_ownership e c d s d' s' evs :
  step e c (d, s) = Ok (d', s', evs) ->
  (forall n, c <> TokenizeDomain n) ->
  (forall n to, c <> TransferDomain n to) ->
  same_ownership s s'.
Proof.
  intros Hstep Htok Htr. destruct c; simpl in Hstep.
  - by destruct (Htok domainName).
  - unfold grantDomainRight in Hstep. invert_ok.
    by eapply same_ownership_insert with (f := set_rights _).
  - unfold revokeDomainRight in Hstep. invert_ok.
    by eapply same_ownership_insert with (f := set_rights _).
  - by destruct (Htr domainName to).
  - unfold syncDomainState in Hstep. invert_ok.
    by eapply same_ownership_insert with (f := set_isActive _).
  - unfold transferOwnership in Hstep. invert_ok. by split.
  - invert_ok. by split.
Qed.

Lemma step_names_recorded e c d s d' s' evs :
  step e c (d, s) = Ok (d', s', evs) ->
  names_recorded s -> names_recorded s'.
Proof.
  intros Hstep Hinv m.
  destruct c;
    try (eapply step_other_same_ownership in Hstep as (_ & Hsame);
         [|done..]; destruct (Hsame m) as (-> & _ & ->); apply Hinv).
  - simpl in Hstep. invert_ok.
    match goal with H : tokenizeDomain _ _ _ _ = _ |- _ =>
      apply tokenizeDomain_ok in H as (Hne & _ & Hd & _) end.
    unfold domain. rewrite Hd, mget_insert.
    case_decide; subst; simpl; [by rewrite Hne | apply Hinv].
  - simpl in Hstep. invert_ok.
    match goal with H : transferDomain _ _ _ _ _ = _ |- _ =>
      apply transferDomain_ok in H as (_ & _ & Hd & _) end.
    unfold domain. rewrite Hd, mget_insert.
    case_decide; subst; simpl; apply Hinv.
Qed.

(** Settles the [bool_decide]s that the hypotheses decide. *)
Ltac settle_decisions :=
  repeat match goal with
  | |- context [bool_decide (?a = ?b)] =>
      first [ rewrite (bool_decide_eq_true_2 (a = b)) by congruence
            | rewrite (bool_decide_eq_false_2 (a = b)) by congruence ]
  | H : context [bool_decide (?a = ?b)] |- _ =>
      first [ rewrite (bool_decide_eq_true_2 (a = b)) in H by congruence
            | rewrite (bool_decide_eq_false_2 (a = b)) in H by congruence ]
  end.

Lemma step_lists_match e c d s d' s' evs :
  step e c (d, s) = Ok (d', s', evs) ->
  names_recorded s ->
  lists_match_owners s -> lists_match_owners s'.
Proof.
  intros Hstep Hnames Hinv m X.
  destruct c;
    try (eapply step_other_same_ownership in Hstep as (Hu & Hsame);
         [|done..]; destruct (Hsame m) as (_ & Ho & Ht);
         unfold getUserDomains; rewrite Hu, Ho, Ht; apply Hinv).
  - simpl in Hstep. invert_ok.
    match goal with H : tokenizeDomain _ _ _ _ = _ |- _ =>
      apply tokenizeDomain_ok in H as (Hne & Hfresh & Hd & Hu) end.
    pose proof (Hinv m X) as Hm.
    unfold getUserDomains, domain in *. rewrite Hu, Hd.
    rewrite mget_push_at, mget_insert.
    destruct (decide (domainName = m)) as [->|Hnm];
      destruct (decide (msg_sender e = X)) as [HX|HX];
      try subst X; simpl;
      rewrite ?occurrences_app; simpl; unfold keccak_eq;
      rewrite ?Hfresh in Hm; simpl in Hm; settle_decisions; lia.
  - simpl in Hstep. invert_ok.
    match goal with H : transferDomain _ _ _ _ _ = _ |- _ =>
      apply transferDomain_ok in H as (Hex & Hown & Hd & Hu) end.
    pose proof (Hnames domainName) as Htok. rewrite Hex in Htok.
    symmetry in Htok. apply negb_false_iff in Htok.
    pose proof (Hinv m X) as Hm.
    unfold getUserDomains, domain in *. rewrite Hu, Hd.
    rewrite !mget_insert, !mget_push_at.
    destruct (decide (domainName = m)) as [->|Hnm];
      destruct (decide (msg_sender e = X)) as [HX|HX];
      destruct (decide (to = X)) as [HtX|HtX];
      try subst X; try subst to;
      repeat case_decide; simpl in *; try congruence;
      rewrite ?occurrences_remove_domain, ?occurrences_app; simpl;
      unfold keccak_eq;
      rewrite ?Htok, ?Hown in Hm; rewrite ?Htok; simpl in Hm; simpl;
      settle_decisions; lia.
Qed.

End DomainRegistry.

Section DomainTransfer.
Import DomainManagement.

Lemma reachable_run calls w : reachable w -> reachable (run calls w).
Proof.
  revert w. induction calls as [|[e c] calls IH]; intros w Hw; [done|].
  simpl. apply IH. by constructor.
Qed.

Lemma reachable_lists w :
  reachable w -> names_recorded (snd w) /\ lists_match_owners (snd w).
Proof.
  induction 1 as [e1 e2 this|e c [d s] _ [IHn IHl]].
  - split; [by intros n|]. intros n X. done.
  - unfold exec.
    destruct (step e c (d, s)) as [[[d' s'] evs]|err] eqn:Hstep; [|done].
    split; [by eapply step_names_recorded | by eapply step_lists_match].
Qed.

(** C8, as stated, fails when the owner transfers the domain to
    themselves: the call succeeds and the name is still in the list of the
    old owner, who is the new owner. *)
Lemma C8_self_transfer_keeps_name :
  let owner := mkEnv 1 0 0 97476 true [] in
  let pay := (mkEnv 7 DToken.FEATURE_COST 0 97476 true [],
              Ledger DToken.PayForFeature) in
  let user := mkEnv 7 0 100 97476 true [] in
  let w := run [(owner, Ledger (DToken.AuthorizeContract 50 true));
                pay; pay; (user, TokenizeDomain "a.io")]
             (DToken.constructor owner, constructor owner 50) in
  reachable w
  /\ DomainManagement.owner (domain (snd w) "a.io") = 7
  /\ exists s' d' evs,
       transferDomain user "a.io" 7 (fst w) (snd w) = Ok (s', (d', evs))
       /\ getUserDomains s' 7 = ["a.io"]
       /\ ~ name_moved s' "a.io" 7 7.
Proof.
  intros owner pay user w. split; [apply reachable_run; constructor|].
  split; [vm_compute; reflexivity|].
  do 3 eexists. split; [vm_compute; reflexivity|].
  split; [vm_compute; reflexivity|].
  intros [_ H]. vm_compute in H. discriminate H.
Qed.

(** C8 (amended): for a domain name of a reachable registry, after a
    successful [transferDomain(name, B)] by its owner [A] the name is in
    the list of [B] exactly once, whatever the order of the list of [A]
    was; when [B] is not [A], the name is absent from the list of [A]. *)
Theorem C8_transfer_moves_name (w : DToken.state * state) (e : env)
    (n : string) (B : address) (s' : state) (d' : DToken.state)
    (evs : list effect) :
  reachable w ->
  transferDomain e n B (fst w) (snd w) = Ok (s', (d', evs)) ->
  let A := msg_sender e in
  DomainManagement.owner (domain (snd w) n) = A
  /\ DomainManagement.owner (domain s' n) = B
  /\ occurrences n (getUserDomains s' B) = 1%nat
  /\ (B <> A -> (n ∉ getUserDomains s' A) /\ name_moved s' n A B).
Proof.
  intros Hw Hok A. destruct w as [d s]. simpl in Hok.
  destruct (reachable_lists _ Hw) as [Hnames Hlists]. simpl in *.
  assert (step e (TransferDomain n B) (d, s) = Ok (d', s', evs)) as Hstep.
  { simpl. by rewrite Hok. }
  pose proof (step_lists_match _ _ _ _ _ _ _ Hstep Hnames Hlists) as Hl'.
  apply transferDomain_ok in Hok as (Hex & Hown & Hd & _).
  pose proof (Hnames n) as Htok. rewrite Hex in Htok.
  symmetry in Htok. apply negb_false_iff in Htok.
  assert (domain s' n = set_owner_of B (domain s n)) as Hdom.
  { unfold domain. by rewrite Hd, mget_insert_eq. }
  assert (occurrences n (getUserDomains s' B) = 1%nat) as HB.
  { rewrite Hl', Hdom. simpl. rewrite Htok.
    by rewrite bool_decide_eq_true_2. }
  assert (B <> A -> occurrences n (getUserDomains s' A) = 0%nat) as HA.
  { intros Hne. rewrite Hl', Hdom. simpl. rewrite Htok.
    by rewrite bool_decide_eq_false_2. }
  split; [done|]. split; [by rewrite Hdom|]. split; [done|].
  intros Hne. split; [by apply occurrences_zero, HA|].
  split; [done | by apply HA].
Qed.

Lemma C8_transfer_moves_name_witness :
  let owner := mkEnv 1 0 0 97476 true [] in
  let pay := (mkEnv 7 DToken.FEATURE_COST 0 97476 true [],
              Ledger DToken.PayForFeature) in
  let user := mkEnv 7 0 100 97476 true [] in
  let w := run [(owner, Ledger (DToken.AuthorizeContract 50 true));
                pay; pay; pay; pay;
                (user, TokenizeDomain "a.io");
                (user, TokenizeDomain "b.io");
                (user, TokenizeDomain "c.io")]
             (DToken.constructor owner, constructor owner 50) in
  exists s' d' evs,
    transferDomain user "a.io" 9 (fst w) (snd w) = Ok (s', (d', evs))
    /\ getUserDomains s' 7 = ["c.io"; "b.io"]
    /\ name_moved s' "a.io" 7 9.
Proof.
  intros owner pay user w. do 3 eexists.
  split; [vm_compute; reflexivity|].
  split; [vm_compute; reflexivity|].
  eapply (C8_transfer_moves_name w user "a.io" 9).
  - apply reachable_run. constructor.
  - vm_compute. reflexivity.
  - discriminate.
Defined.

End DomainTransfer.

(** * Further properties of the code *)

(** ** The ledger's accounts *)

Section DTokenAccounts.
Import DToken.

Lemma useFeature_usage e user s s' evs :
  useFeature e user s = Ok (s', evs) ->
  userFeatureUsage s' =
    <[user := mget 0 (userFeatureUsage s) user + 1]> (userFeatureUsage s)
  /\ balance s' = balance s
  /\ evs = [FeatureUsed user (msg_sender e) FEATURE_COST].
Proof.
  unfold useFeature, onlyAuthorized. intros H. invert_ok. simpl in *. done.
Qed.

(** The calls other than a debit leave every usage counter alone. *)
Lemma step_usage_other e c s s' evs :
  step e c s = Ok (s', evs) ->
  (forall u, c <> UseFeature u) ->
  userFeatureUsage s' = userFeatureUsage s.
Proof.
  intros Hstep Hc. destruct c; unfold step in Hstep; simpl in Hstep.
  - unfold authorizeContract in Hstep. by invert_ok.
  - unfold payForFeature in Hstep. by invert_ok.
  - by destruct (Hc user).
  - fold (withdrawETH e amount s) in Hstep.
    by apply withdrawETH_facts in Hstep as (_ & ? & _).
  - unfold receive in Hstep. by invert_ok.
  - unfold fallback in Hstep. by invert_ok.
  - unfold transferOwnership in Hstep. by invert_ok.
Qed.

(** [useFeature], for an authorized caller that sends no value, outside a
    guarded call, and a usage counter below its maximum, succeeds exactly on
    the accounts that hold one price. *)
Lemma useFeature_succeeds_when_paid (e : env) (u : address) (s : state) :
  msg_value e = 0 ->
  mget false (authorizedContracts s) (msg_sender e) = true ->
  _status s = false ->
  getUserFeatureUsage s u < MAX_UINT256 ->
  is_ok (useFeature e u s) = hasFeaturePayment s u.
Proof.
  unfold getUserFeatureUsage, hasFeaturePayment.
  intros Hzero Hauth Hfree Husage.
  unfold useFeature, nonpayable, onlyAuthorized, nonReentrant, checked_sub,
    checked_add.
  rewrite Hzero, Hauth. simpl. rewrite Hfree. simpl.
  destruct (FEATURE_COST <=? mget 0 (userPayments s) u) eqn:Hle.
  - apply Z.leb_le in Hle.
    destruct (mget 0 (userPayments s) u <? FEATURE_COST) eqn:Hlt;
      [apply Z.ltb_lt in Hlt; lia|].
    simpl.
    destruct (mget 0 (userFeatureUsage s) u + 1 <=? MAX_UINT256) eqn:Hfit;
      [done | apply Z.leb_gt in Hfit; lia].
  - apply Z.leb_gt in Hle. apply Z.ltb_lt in Hle. by rewrite Hle.
Qed.

(** X1: The pre-check that the feature contracts make, [hasFeaturePayment],
    decides the debit: for an authorized caller that sends no value, outside
    a guarded call, and a usage counter below its maximum, [useFeature]
    succeeds exactly when [hasFeaturePayment] answers true; a call that
    carries value fails whatever the credit. *)
Theorem hasFeaturePayment_decides_debit (e : env) (u : address) (s : state) :
  (msg_value e = 0 ->
   mget false (authorizedContracts s) (msg_sender e) = true ->
   _status s = false ->
   getUserFeatureUsage s u < MAX_UINT256 ->
   is_ok (useFeature e u s) = hasFeaturePayment s u)
  /\ (msg_value e <> 0 -> useFeature e u s = Revert NonPayable).
Proof.
  split; [exact (useFeature_succeeds_when_paid e u s)|].
  intros Hv. apply Z.eqb_neq in Hv. unfold useFeature, nonpayable.
  by rewrite Hv.
Qed.

Lemma hasFeaturePayment_decides_debit_witness :
  let owner := mkEnv 1 0 0 97476 true [] in
  let s := run [(owner, AuthorizeContract 50 true);
                (mkEnv 7 FEATURE_COST 0 97476 true [], PayForFeature)]
             (constructor owner) in
  is_ok (useFeature (mkEnv 50 0 0 97476 true []) 7 s) = true
  /\ is_ok (useFeature (mkEnv 50 0 0 97476 true []) 8 s) = false
  /\ useFeature (mkEnv 50 5 0 97476 true []) 7 s = Revert NonPayable.
Proof.
  intros owner s. split; [|split].
  - destruct (hasFeaturePayment_decides_debit
                (mkEnv 50 0 0 97476 true []) 7 s) as (H & _).
    rewrite H;
      [reflexivity | reflexivity | reflexivity | reflexivity
      | vm_compute; reflexivity].
  - destruct (hasFeaturePayment_decides_debit
                (mkEnv 50 0 0 97476 true []) 8 s) as (H & _).
    rewrite H;
      [reflexivity | reflexivity | reflexivity | reflexivity
      | vm_compute; reflexivity].
  - destruct (hasFeaturePayment_decides_debit
                (mkEnv 50 5 0 97476 true []) 7 s) as (_ & H).
    apply H. discriminate.
Defined.

(** X2: A deposit followed by a debit is a round trip on the credit: when
    the payer sends the price and an authorized caller, sending no value,
    then debits the payer, the credit of every user is what it was, the
    usage counter of the payer is one higher, the ledger holds one price
    more, and the two calls emit one [PaymentReceived] and one
    [FeatureUsed]. *)
Theorem deposit_then_debit_round_trip (e ec : env) (s : state) :
  _status s = false ->
  mget false (authorizedContracts s) (msg_sender ec) = true ->
  msg_value ec = 0 ->
  msg_value e = FEATURE_COST ->
  0 <= getUserPaymentBalance s (msg_sender e) ->
  getUserPaymentBalance s (msg_sender e) + FEATURE_COST <= MAX_UINT256 ->
  getUserFeatureUsage s (msg_sender e) < MAX_UINT256 ->
  exists s1 s2,
    payForFeature e s = Ok (s1, [PaymentReceived (msg_sender e) FEATURE_COST])
    /\ useFeature ec (msg_sender e) s1
       = Ok (s2, [FeatureUsed (msg_sender e) (msg_sender ec) FEATURE_COST])
    /\ (forall u, getUserPaymentBalance s2 u = getUserPaymentBalance s u)
    /\ getUserFeatureUsage s2 (msg_sender e)
       = getUserFeatureUsage s (msg_sender e) + 1
    /\ balance s2 = balance s + FEATURE_COST.
Proof.
  unfold getUserPaymentBalance, getUserFeatureUsage.
  intros Hfree Hauth Hzero Hval Hpos Hfit Husage.
  unfold payForFeature, nonReentrant, checked_add. simpl.
  rewrite Hfree, Hval, Z.eqb_refl. simpl.
  apply Z.leb_le in Hfit. rewrite Hfit. simpl.
  eexists _, _. split; [reflexivity|].
  unfold useFeature, nonpayable, onlyAuthorized, nonReentrant, checked_sub,
    checked_add.
  rewrite Hzero. simpl. rewrite Hauth. simpl. rewrite mget_insert_eq.
  destruct (mget 0 (userPayments s) (msg_sender e) + FEATURE_COST
            <? FEATURE_COST) eqn:Hlt; [apply Z.ltb_lt in Hlt; lia|].
  simpl.
  destruct (FEATURE_COST <=?
            mget 0 (userPayments s) (msg_sender e) + FEATURE_COST) eqn:Hle;
    [|apply Z.leb_gt in Hle; lia].
  simpl.
  destruct (mget 0 (userFeatureUsage s) (msg_sender e) + 1 <=? MAX_UINT256)
    eqn:Hu; [|apply Z.leb_gt in Hu; lia].
  simpl. split; [reflexivity|]. split; [|split].
  - intros u. cbn. rewrite !mget_insert. case_decide; [subst; lia | done].
  - cbn. by rewrite mget_insert_eq.
  - cbn. by rewrite Hval.
Qed.

Lemma deposit_then_debit_round_trip_witness :
  let owner := mkEnv 1 0 0 97476 true [] in
  let user := mkEnv 7 FEATURE_COST 0 97476 true [] in
  let s := exec owner (AuthorizeContract 50 true) (constructor owner) in
  exists s1 s2,
    payForFeature user s = Ok (s1, [PaymentReceived 7 FEATURE_COST])
    /\ useFeature (mkEnv 50 0 0 97476 true []) 7 s1
       = Ok (s2, [FeatureUsed 7 50 FEATURE_COST])
    /\ (forall u, getUserPaymentBalance s2 u = getUserPaymentBalance s u)
    /\ getUserFeatureUsage s2 7 = getUserFeatureUsage s 7 + 1
    /\ balance s2 = balance s + FEATURE_COST.
Proof.
  intros owner user s.
  apply (deposit_then_debit_round_trip user (mkEnv 50 0 0 97476 true []) s);
    first [reflexivity | vm_compute; discriminate].
Defined.

(** One call moves the account of a user, its credit plus one price per
    counted use, by exactly what the user pays in with that call: a debit
    turns one price of credit into one counted use, and no call makes paid
    value vanish. *)
Lemma step_account e c s U :
  account (exec e c s) U = account s U + paid_in e c s U.
Proof.
  unfold account, paid_in, exec, getUserPaymentBalance, getUserFeatureUsage.
  destruct (step e c s) as [[s' evs]|err] eqn:Hstep; simpl; [|lia].
  destruct c.
  - rewrite (step_usage_other _ _ _ _ _ Hstep) by done.
    unfold step in Hstep. simpl in Hstep.
    apply authorizeContract_ok in Hstep as (_ & _ & -> & _). lia.
  - rewrite (step_usage_other _ _ _ _ _ Hstep) by done.
    unfold step in Hstep. simpl in Hstep.
    apply payForFeature_ok in Hstep as (Hv & -> & _).
    rewrite mget_insert. case_decide; case_bool_decide; try done; subst; lia.
  - unfold step in Hstep. simpl in Hstep.
    destruct (useFeature_usage _ _ _ _ _ Hstep) as (-> & _).
    apply useFeature_ok in Hstep as (_ & _ & _ & -> & _).
    rewrite !mget_insert. case_decide; subst; lia.
  - rewrite (step_usage_other _ _ _ _ _ Hstep) by done.
    unfold step in Hstep. simpl in Hstep.
    fold (withdrawETH e amount s) in Hstep.
    apply withdrawETH_facts in Hstep as (_ & _ & -> & _). lia.
  - rewrite (step_usage_other _ _ _ _ _ Hstep) by done.
    unfold step in Hstep. simpl in Hstep.
    apply receive_ok in Hstep as (-> & _).
    rewrite mget_insert. case_decide; case_bool_decide; try done; subst; lia.
  - rewrite (step_usage_other _ _ _ _ _ Hstep) by done.
    unfold step in Hstep. simpl in Hstep.
    apply fallback_ok in Hstep as (-> & _).
    rewrite mget_insert. case_decide; case_bool_decide; try done; subst; lia.
  - rewrite (step_usage_other _ _ _ _ _ Hstep) by done.
    unfold step in Hstep. simpl in Hstep.
    apply transferOwnership_ok in Hstep as (-> & _). lia.
Qed.

(** X3: Along any sequence of calls, the credit of a user plus one price per
    counted use is what it was at the start plus everything the user paid in
    on the way: credit leaves an account only as a counted use. *)
Theorem account_is_conserved (calls : list (env * call)) (s : state)
    (U : address) :
  account (run calls s) U = account s U + total_paid_in calls s U.
Proof.
  revert s. induction calls as [|[e c] calls IH]; intros s; simpl; [lia|].
  rewrite IH, step_account. lia.
Qed.

(** X4: A successful withdrawal is made by the owner, without value; it
    first sends the owner a nonzero amount that the ledger holds (the whole
    balance when the argument is 0), and sends nothing else; its last effect
    is the withdrawal event; between the two are the effects of the calls
    that the recipient makes back, each payment among them a plain transfer
    of the recipient's list.  The held balance goes down by the amount and
    up by what these payments bring in, the credits go up by the same
    payments, and the usage counters stay.  When the recipient makes no call
    back, the withdrawal takes exactly the amount off the held balance and
    leaves every credit and allow-list bit as it was. *)
Theorem withdraw_takes_what_is_held (e : env) (amount : Z) (s s' : state)
    (evs : list effect) :
  withdrawETH e amount s = Ok (s', evs) ->
  let sent := if amount =? 0 then balance s else amount in
  _owner s = msg_sender e /\ msg_value e = 0
  /\ sent <> 0 /\ sent <= balance s
  /\ (exists back o,
        evs = Transfer (_owner s) sent :: back ++ [PaymentWithdrawn o sent]
        /\ (forall to v, Transfer to v ∉ back)
        /\ (forall u v, PaymentReceived u v ∈ back ->
              (u, v, Receive) ∈ reentry e \/ (u, v, Fallback) ∈ reentry e))
  /\ balance s' = balance s - sent + income evs
  /\ (forall U, getUserPaymentBalance s' U
                = getUserPaymentBalance s U + credited U evs)
  /\ userFeatureUsage s' = userFeatureUsage s
  /\ (reentry e = [] ->
      evs = [Transfer (_owner s) sent; PaymentWithdrawn (_owner s) sent]
      /\ balance s' = balance s - sent
      /\ userPayments s' = userPayments s
      /\ authorizedContracts s' = authorizedContracts s).
Proof.
  intros H sent.
  pose proof H as Hfacts.
  apply withdrawETH_facts in Hfacts as (_ & Husage & Hcredit & Hbal & _).
  apply withdrawETH_ok in H
    as (Hzero & Howner & _ & Hsent & Hheld & _ & s1 & evs1 & Hre & -> & ->).
  fold sent in Hre, Hbal, Hsent, Hheld |- *.
  pose proof Hre as Hback.
  apply reenter_ok in Hback as (_ & _ & _ & _ & Hno & _ & Hpaid); [|done].
  split_and!; try done.
  - by exists evs1, (_owner s1).
  - intros Hnone. rewrite Hnone in Hre. simpl in Hre. simplify_eq.
    simpl. split_and!; try done; simpl in Hbal; lia.
Qed.

(** A withdrawal of 40 wei to an owner that, on receipt, sends 5 wei back
    and tries a deposit, which the guard refuses. *)
Lemma withdraw_takes_what_is_held_witness :
  let owner := mkEnv 1 0 0 97476 true [] in
  let s := run [(mkEnv 7 FEATURE_COST 0 97476 true [], PayForFeature)]
             (constructor owner) in
  let back := mkEnv 1 0 0 97476 true
                [(1, 5, Receive); (1, FEATURE_COST, PayForFeature)] in
  (exists s',
     withdrawETH owner 40 s = Ok (s', [Transfer 1 40; PaymentWithdrawn 1 40])
     /\ balance s' = balance s - 40
     /\ userPayments s' = userPayments s)
  /\ (exists s',
        withdrawETH back 40 s
        = Ok (s', [Transfer 1 40; PaymentReceived 1 5; PaymentWithdrawn 1 40])
        /\ balance s' = balance s - 40 + 5
        /\ getUserPaymentBalance s' 1 = getUserPaymentBalance s 1 + 5).
Proof.
  intros owner s back. split.
  - destruct (withdrawETH owner 40 s) as [[s' evs]|err] eqn:H;
      [|vm_compute in H; discriminate H].
    destruct (withdraw_takes_what_is_held _ _ _ _ _ H)
      as (_ & _ & _ & _ & _ & _ & _ & _ & Hplain).
    destruct Hplain as (-> & Hb & Hp & _); [reflexivity|].
    exists s'. split; [reflexivity|]. split; [exact Hb | exact Hp].
  - destruct (withdrawETH back 40 s) as [[s' evs]|err] eqn:H;
      [|vm_compute in H; discriminate H].
    destruct (withdraw_takes_what_is_held _ _ _ _ _ H)
      as (_ & _ & _ & _ & _ & Hb & Hc & _).
    assert (evs = [Transfer 1 40; PaymentReceived 1 5; PaymentWithdrawn 1 40])
      as -> by (vm_compute in H; by injection H as _ <-).
    exists s'. split; [reflexivity|]. split; [exact Hb | exact (Hc 1)].
Defined.

End DTokenAccounts.

(** ** The request logs, further *)

Section ContractAnalysisLog.
Import ContractAnalysis.

(** What a successful [requestContractAnalysis] has checked, stored,
    debited and emitted. *)
Lemma requestContractAnalysis_ok (e : env) (contractAddress : string)
    (d d' : DToken.state) (s s' : state) (evs : list effect) :
  requestContractAnalysis e contractAddress d s = Ok (s', (d', evs)) ->
  let U := msg_sender e in
  DToken.hasFeaturePayment d U = true
  /\ is_empty contractAddress = false
  /\ getUserRequests s' U =
     getUserRequests s U ++
       [mkRequest U contractAddress ANALYSIS_COST false 0 "" (block_timestamp e)]
  /\ (forall V, V <> U -> getUserRequests s' V = getUserRequests s V)
  /\ DToken.getUserPaymentBalance d' U
     = DToken.getUserPaymentBalance d U - DToken.FEATURE_COST
  /\ DToken.getUserFeatureUsage d' U = DToken.getUserFeatureUsage d U + 1
  /\ (forall V, V <> U ->
        DToken.getUserPaymentBalance d' V = DToken.getUserPaymentBalance d V
        /\ DToken.getUserFeatureUsage d' V = DToken.getUserFeatureUsage d V)
  /\ evs = [FeatureUsed U (self s) DToken.FEATURE_COST;
            ContractAnalysisRequested U contractAddress ANALYSIS_COST;
            PaymentReceived U ANALYSIS_COST]
  /\ _owner s' = _owner s /\ _status s' = _status s.
Proof.
  unfold requestContractAnalysis, requirePayment. intros H. invert_ok.
  match goal with H : DToken.useFeature _ _ _ = _ |- _ =>
    destruct (useFeature_usage _ _ _ _ _ H) as (Hu & _ & ->);
    apply useFeature_ok in H as (_ & _ & _ & Hp & _) end.
  simplify_eq.
  unfold getUserRequests, DToken.getUserPaymentBalance,
    DToken.getUserFeatureUsage.
  cbn in *. rewrite Hu, Hp, !mget_insert_eq.
  repeat split; try done.
  - by rewrite mget_push_at, decide_True.
  - intros V HV. by rewrite mget_push_at, decide_False.
  - by rewrite mget_insert_ne.
  - by rewrite mget_insert_ne.
Qed.

(** X5: A successful request had credit and a target; it appends one pending
    record, with score 0 and no text, to the list of the caller and leaves
    the other lists alone; it takes one price off the caller's credit in the
    ledger and counts one use; and it emits the debit, the request and the
    payment events, in this order. *)
Theorem request_appends_and_debits (e : env) (contractAddress : string)
    (d d' : DToken.state) (s s' : state) (evs : list effect) :
  requestContractAnalysis e contractAddress d s = Ok (s', (d', evs)) ->
  let U := msg_sender e in
  DToken.hasFeaturePayment d U = true
  /\ is_empty contractAddress = false
  /\ getUserRequests s' U =
     getUserRequests s U ++
       [mkRequest U contractAddress ANALYSIS_COST false 0 "" (block_timestamp e)]
  /\ (forall V, V <> U -> getUserRequests s' V = getUserRequests s V)
  /\ DToken.getUserPaymentBalance d' U
     = DToken.getUserPaymentBalance d U - DToken.FEATURE_COST
  /\ DToken.getUserFeatureUsage d' U = DToken.getUserFeatureUsage d U + 1
  /\ (forall V, V <> U ->
        DToken.getUserPaymentBalance d' V = DToken.getUserPaymentBalance d V
        /\ DToken.getUserFeatureUsage d' V = DToken.getUserFeatureUsage d V)
  /\ evs = [FeatureUsed U (self s) DToken.FEATURE_COST;
            ContractAnalysisRequested U contractAddress ANALYSIS_COST;
            PaymentReceived U ANALYSIS_COST]
  /\ _owner s' = _owner s /\ _status s' = _status s.
Proof. exact (requestContractAnalysis_ok e contractAddress d d' s s' evs). Qed.

Lemma request_appends_and_debits_witness :
  let owner := mkEnv 1 0 10 97476 true [] in
  let payer := mkEnv 7 DToken.FEATURE_COST 10 97476 true [] in
  let user := mkEnv 7 0 10 97476 true [] in
  let d := DToken.run [(owner, DToken.AuthorizeContract 50 true);
                       (payer, DToken.PayForFeature)]
             (DToken.constructor owner) in
  let s := constructor owner 50 in
  exists s' d' evs,
    requestContractAnalysis user "0xAbc" d s = Ok (s', (d', evs))
    /\ getUserRequests s' 7 =
       [mkRequest 7 "0xAbc" ANALYSIS_COST false 0 "" 10]
    /\ DToken.getUserPaymentBalance d' 7 = 0.
Proof.
  intros owner payer user d s.
  destruct (requestContractAnalysis user "0xAbc" d s)
    as [[s' [d' evs]]|err] eqn:H; [|vm_compute in H; discriminate H].
  destruct (request_appends_and_debits _ _ _ _ _ _ _ H)
    as (_ & _ & Hl & _ & Hb & _).
  exists s', d', evs. split; [reflexivity|]. split.
  - etrans; [exact Hl | vm_compute; reflexivity].
  - etrans; [exact Hb | vm_compute; reflexivity].
Defined.

(** X6: The owner, calling without value, completes a pending request: the
    call succeeds, the record at the index gets the completed flag, the
    score and the text and keeps its user, target, payment and timestamp,
    and every other record of every user is as before.  An index at or past
    the end of the user's list fails with "Invalid request index". *)
Theorem completion_writes_one_record (e : env) (U : address) (i : Z)
    (score : Z) (text : string) (s : state) :
  _owner s = msg_sender e ->
  msg_value e = 0 ->
  0 <= i ->
  (forall r,
     getUserRequests s U !! Z.to_nat i = Some r ->
     completed r = false ->
     let r' := mkRequest (user r) (contractAddress r) (payment r) true score
                 text (timestamp r) in
     exists s',
       completeAnalysis e U i score text s
       = Ok (s', [ContractAnalysisCompleted U (contractAddress r) score text])
       /\ getUserRequests s' U = <[Z.to_nat i := r']> (getUserRequests s U)
       /\ (forall V, V <> U -> getUserRequests s' V = getUserRequests s V))
  /\ (Z.of_nat (length (getUserRequests s U)) <= i ->
      completeAnalysis e U i score text s
      = Revert (Error "Invalid request index")).
Proof.
  unfold getUserRequests. intros Howner Hzero Hi.
  unfold completeAnalysis, nonpayable, onlyOwner. rewrite Hzero. simpl.
  rewrite bool_decide_eq_true_2 by done. simpl. split.
  - intros r Hr Hpending.
    assert ((i <? Z.of_nat (length (mget [] (userRequests s) U))) = true)
      as Hlt.
    { apply Z.ltb_lt. apply lookup_lt_Some in Hr. lia. }
    unfold array_get, array_set. rewrite Hlt, Hr. simpl.
    rewrite Hpending. simpl. eexists. split; [reflexivity|]. simpl.
    split; [by rewrite mget_insert_eq|].
    intros V HV. by rewrite mget_insert_ne.
  - intros Hout. apply Z.ltb_ge in Hout. by rewrite Hout.
Qed.

Lemma completion_writes_one_record_witness :
  let owner := mkEnv 1 0 10 97476 true [] in
  let payer := mkEnv 7 DToken.FEATURE_COST 10 97476 true [] in
  let user := mkEnv 7 0 10 97476 true [] in
  let w := run [(owner, Ledger (DToken.AuthorizeContract 50 true));
                (payer, Ledger DToken.PayForFeature);
                (user, RequestContractAnalysis "0xAbc")]
             (DToken.constructor owner, constructor owner 50) in
  (exists s',
     completeAnalysis owner 7 0 82 "low risk" (snd w)
     = Ok (s', [ContractAnalysisCompleted 7 "0xAbc" 82 "low risk"])
     /\ getUserRequests s' 7
        = [mkRequest 7 "0xAbc" ANALYSIS_COST true 82 "low risk" 10])
  /\ completeAnalysis owner 7 1 82 "low risk" (snd w)
     = Revert (Error "Invalid request index").
Proof.
  intros owner payer user w. split.
  - destruct (completion_writes_one_record owner 7 0 82 "low risk" (snd w))
      as (H & _); [reflexivity | reflexivity | lia |].
    destruct (H (mkRequest 7 "0xAbc" ANALYSIS_COST false 0 "" 10))
      as (s' & Hok & Hl & _); [vm_compute; reflexivity | reflexivity |].
    exists s'. split; [exact Hok|]. etrans; [exact Hl | vm_compute; reflexivity].
  - destruct (completion_writes_one_record owner 7 1 82 "low risk" (snd w))
      as (_ & H); [reflexivity | reflexivity | lia |].
    apply H. vm_compute. discriminate.
Defined.

End ContractAnalysisLog.

Section ContractAnalysisTraces.
Import ContractAnalysis.

Lemma request_kept_refl r : request_kept r r.
Proof. by repeat split. Qed.

Lemma request_kept_trans r1 r2 r3 :
  request_kept r1 r2 -> request_kept r2 r3 -> request_kept r1 r3.
Proof.
  intros (Hu & Ha & Hp & Ht & Hc) (Hu' & Ha' & Hp' & Ht' & Hc').
  repeat split; try congruence.
  intros Hdone. specialize (Hc Hdone). subst r2. by apply Hc'.
Qed.

(** What one call does to the list of a user: it keeps every record and
    may append one. *)
Lemma step_keeps_requests e c d s d' s' evs U :
  step e c (d, s) = Ok (d', s', evs) ->
  (length (getUserRequests s U) <= length (getUserRequests s' U))%nat
  /\ forall i r, getUserRequests s U !! i = Some r ->
       exists r', getUserRequests s' U !! i = Some r' /\ request_kept r r'.
Proof.
  unfold getUserRequests. intros Hstep.
  destruct c; simpl in Hstep.
  - unfold requestContractAnalysis in Hstep. invert_ok. simplify_eq. cbn.
    rewrite mget_push_at. case_decide; subst.
    + rewrite length_app. split; [lia|]. intros i r Hr. exists r.
      split; [by apply lookup_app_l_Some | apply request_kept_refl].
    + split; [done|]. intros i r Hr. exists r.
      split; [done | apply request_kept_refl].
  - unfold completeAnalysis in Hstep. invert_ok. simplify_eq. cbn.
    match goal with H : array_get _ _ = _ |- _ =>
      apply array_get_ok in H; rename H into Hget end.
    match goal with H : array_set _ _ _ = _ |- _ =>
      apply array_set_ok in H; subst end.
    rewrite mget_insert. case_decide; subst.
    + rewrite length_insert. split; [done|]. intros i r Hr.
      destruct (decide (Z.to_nat requestIndex = i)) as [<-|Hne].
      * rewrite Hr in Hget. injection Hget as <-. eexists. split.
        { apply list_lookup_insert_eq. by eapply lookup_lt_Some. }
        repeat split. intros Hdone. congruence.
      * exists r. rewrite list_lookup_insert_ne by done.
        split; [done | apply request_kept_refl].
    + split; [done|]. intros i r Hr. exists r.
      split; [done | apply request_kept_refl].
  - unfold transferOwnership in Hstep. invert_ok. simplify_eq. cbn.
    split; [done|]. intros i r Hr. exists r.
    split; [done | apply request_kept_refl].
  - invert_ok. simplify_eq. split; [done|]. intros i r Hr. exists r.
    split; [done | apply request_kept_refl].
Qed.

(** X7: The log is append-only: along any sequence of calls the list of a user
    never gets shorter, every record stays at its index with its user,
    target, payment and timestamp, and a completed record stays as it is. *)
Theorem log_is_append_only (calls : list (env * call))
    (w : DToken.state * state) (U : address) :
  (length (getUserRequests (snd w) U)
   <= length (getUserRequests (snd (run calls w)) U))%nat
  /\ forall i r, getUserRequests (snd w) U !! i = Some r ->
       exists r', getUserRequests (snd (run calls w)) U !! i = Some r'
                  /\ request_kept r r'.
Proof.
  revert w. induction calls as [|[e c] calls IH]; intros w.
  { split; [done|]. intros i r Hr. exists r.
    split; [done | apply request_kept_refl]. }
  simpl. destruct (IH (exec e c w)) as [IHlen IHkept].
  assert ((length (getUserRequests (snd w) U)
           <= length (getUserRequests (snd (exec e c w)) U))%nat
          /\ forall i r, getUserRequests (snd w) U !! i = Some r ->
               exists r', getUserRequests (snd (exec e c w)) U !! i = Some r'
                          /\ request_kept r r') as [Hlen Hkept].
  { unfold exec. destruct w as [d s].
    destruct (step e c (d, s)) as [[[d' s'] evs]|err] eqn:Hstep.
    - by eapply step_keeps_requests.
    - split; [done|]. intros i r Hr. exists r.
      split; [done | apply request_kept_refl]. }
  split; [lia|]. intros i r Hr.
  destruct (Hkept i r Hr) as (r1 & Hr1 & Hk1).
  destruct (IHkept i r1 Hr1) as (r2 & Hr2 & Hk2).
  exists r2. split; [done | by eapply request_kept_trans].
Qed.

Lemma log_is_append_only_witness :
  let owner := mkEnv 1 0 10 97476 true [] in
  let payer := mkEnv 7 DToken.FEATURE_COST 10 97476 true [] in
  let user := mkEnv 7 0 10 97476 true [] in
  let w := run [(owner, Ledger (DToken.AuthorizeContract 50 true));
                (payer, Ledger DToken.PayForFeature);
                (user, RequestContractAnalysis "0xAbc")]
             (DToken.constructor owner, constructor owner 50) in
  let calls := [(payer, Ledger DToken.PayForFeature);
                (user, RequestContractAnalysis "0xDef");
                (owner, CompleteAnalysis 7 0 82 "low risk")] in
  exists r', getUserRequests (snd (run calls w)) 7 !! 0%nat = Some r'
             /\ contractAddress r' = "0xAbc".
Proof.
  intros owner payer user w calls.
  destruct (log_is_append_only calls w 7) as (_ & H).
  destruct (H 0%nat (mkRequest 7 "0xAbc" ANALYSIS_COST false 0 "" 10))
    as (r' & Hr' & _ & Ha & _); [vm_compute; reflexivity|].
  exists r'. split; [exact Hr' | exact Ha].
Defined.

(** One call keeps the records well formed. *)
Lemma step_well_formed e c d s d' s' evs :
  step e c (d, s) = Ok (d', s', evs) ->
  (forall U i r, getUserRequests s U !! i = Some r -> request_well_formed U r) ->
  forall U i r, getUserRequests s' U !! i = Some r -> request_well_formed U r.
Proof.
  unfold getUserRequests. intros Hstep Hwf U i r.
  destruct c; simpl in Hstep.
  - unfold requestContractAnalysis in Hstep. invert_ok. simplify_eq. cbn.
    rewrite mget_push_at. case_decide; subst; [|apply Hwf].
    intros Hr. apply lookup_app_Some in Hr as [Hr | [_ Hr]]; [by eapply Hwf|].
    apply list_lookup_singleton_Some in Hr as [_ <-]. by repeat split.
  - unfold completeAnalysis in Hstep. invert_ok. simplify_eq. cbn.
    match goal with H : array_get _ _ = _ |- _ =>
      apply array_get_ok in H; rename H into Hget end.
    match goal with H : array_set _ _ _ = _ |- _ =>
      apply array_set_ok in H; subst end.
    rewrite mget_insert. case_decide; subst; [|apply Hwf].
    intros Hr. apply list_lookup_insert_Some in Hr
      as [(<- & <- & _) | (_ & Hr)]; [|by eapply Hwf].
    destruct (Hwf _ _ _ Hget) as (Hu & Hp & Ha & _). by repeat split.
  - unfold transferOwnership in Hstep. invert_ok. simplify_eq. apply Hwf.
  - invert_ok. simplify_eq. apply Hwf.
Qed.

(** X8: In a log deployed empty and then driven by any sequence of calls,
    every record stored under the key of a user names that user, carries the
    analysis price as payment and a non-empty target, and, while pending,
    has score 0 and no text. *)
Theorem stored_requests_are_well_formed (calls : list (env * call))
    (e1 e2 : env) (this U : address) (i : nat) (r : AnalysisRequest) :
  getUserRequests
    (snd (run calls (DToken.constructor e1, constructor e2 this))) U !! i
  = Some r ->
  request_well_formed U r.
Proof.
  assert (forall w,
            (forall U i r, getUserRequests (snd w) U !! i = Some r ->
                           request_well_formed U r) ->
            forall U i r, getUserRequests (snd (run calls w)) U !! i = Some r ->
                          request_well_formed U r) as Hrun.
  { induction calls as [|[e c] calls IH]; intros w Hwf; [done|].
    simpl. apply IH. unfold exec. destruct w as [d s].
    destruct (step e c (d, s)) as [[[d' s'] evs]|err] eqn:Hstep; [|done].
    by eapply step_well_formed. }
  apply Hrun. intros V j q. done.
Qed.

Lemma stored_requests_are_well_formed_witness :
  let owner := mkEnv 1 0 10 97476 true [] in
  let payer := mkEnv 7 DToken.FEATURE_COST 10 97476 true [] in
  let user := mkEnv 7 0 10 97476 true [] in
  request_well_formed 7 (mkRequest 7 "0xAbc" ANALYSIS_COST false 0 "" 10).
Proof.
  intros owner payer user.
  apply (stored_requests_are_well_formed
           [(owner, Ledger (DToken.AuthorizeContract 50 true));
            (payer, Ledger DToken.PayForFeature);
            (user, RequestContractAnalysis "0xAbc")]
           owner owner 50 7 0%nat).
  vm_compute. reflexivity.
Defined.

(** One call keeps the number of requests of a user within the uses the
    ledger has counted for that user. *)
Lemma step_requests_are_paid e c d s d' s' evs U :
  step e c (d, s) = Ok (d', s', evs) ->
  Z.of_nat (length (getUserRequests s U)) <= DToken.getUserFeatureUsage d U ->
  Z.of_nat (length (getUserRequests s' U)) <= DToken.getUserFeatureUsage d' U.
Proof.
  intros Hstep Hle. destruct c; simpl in Hstep.
  - invert_ok. simplify_eq.
    match goal with H : requestContractAnalysis _ _ _ _ = _ |- _ =>
      apply requestContractAnalysis_ok in H
        as (_ & _ & Hl & Hother & _ & Hu & Hother' & _) end.
    destruct (decide (U = msg_sender e)) as [->|HU].
    + rewrite Hl, Hu, length_app. simpl. lia.
    + rewrite (Hother _ HU). destruct (Hother' _ HU) as (_ & ->). done.
  - unfold completeAnalysis, getUserRequests in *. invert_ok. simplify_eq. cbn.
    match goal with H : array_set _ _ _ = _ |- _ =>
      apply array_set_ok in H; subst end.
    rewrite mget_insert. case_decide; subst; [|done].
    by rewrite length_insert.
  - unfold transferOwnership in Hstep. invert_ok. by simplify_eq.
  - invert_ok. simplify_eq. unfold DToken.getUserFeatureUsage in *.
    match goal with H : DToken.step _ ?c _ = _ |- _ =>
      rename H into Hd; destruct c end;
      try (rewrite (step_usage_other _ _ _ _ _ Hd) by done; done).
    simpl in Hd. apply useFeature_usage in Hd as (-> & _).
    rewrite mget_insert. case_decide; subst; lia.
Qed.

(** X9: Every request was paid for: in a log and a ledger deployed together
    and then driven by any sequence of calls, a user never has more requests
    in the log than uses counted in the ledger. *)
Theorem requests_are_paid (calls : list (env * call)) (e1 e2 : env)
    (this U : address) :
  let w := run calls (DToken.constructor e1, constructor e2 this) in
  Z.of_nat (length (getUserRequests (snd w) U))
  <= DToken.getUserFeatureUsage (fst w) U.
Proof.
  assert (forall w,
            Z.of_nat (length (getUserRequests (snd w) U))
            <= DToken.getUserFeatureUsage (fst w) U ->
            Z.of_nat (length (getUserRequests (snd (run calls w)) U))
            <= DToken.getUserFeatureUsage (fst (run calls w)) U) as Hrun.
  { induction calls as [|[e c] calls IH]; intros w Hle; [done|].
    simpl. apply IH. unfold exec. destruct w as [d s].
    destruct (step e c (d, s)) as [[[d' s'] evs]|err] eqn:Hstep; [|done].
    by eapply step_requests_are_paid. }
  apply Hrun. done.
Qed.

End ContractAnalysisTraces.

Section TokenomicsRequests.
Import Tokenomics.

(** X10: The failures of a paid request, in the order the code meets them,
    and its success: a call that carries value is refused before anything
    else; then no credit gives [InsufficientPayment]; a guarded call in
    progress gives the reentrancy error; an empty target gives
    [InvalidTokenAddress]; a log that the ledger has not authorized gives
    [UnauthorizedContract]; and otherwise, outside a guarded call of the
    ledger and with the usage counter below its maximum, the request
    succeeds. *)
Theorem request_outcomes (e : env) (tokenAddress : string)
    (d : DToken.state) (s : state) :
  let U := msg_sender e in
  let call := requestTokenomicsAnalysis e tokenAddress d s in
  (msg_value e <> 0 -> call = Revert NonPayable)
  /\ (msg_value e = 0 ->
      (DToken.hasFeaturePayment d U = false ->
       call = Revert InsufficientPayment)
      /\ (DToken.hasFeaturePayment d U = true ->
          (_status s = true -> call = Revert ReentrancyGuardReentrantCall)
          /\ (_status s = false ->
              (is_empty tokenAddress = true ->
               call = Revert InvalidTokenAddress)
              /\ (is_empty tokenAddress = false ->
                  (mget false (DToken.authorizedContracts d) (self s)
                   = false ->
                   call = Revert UnauthorizedContract)
                  /\ (mget false (DToken.authorizedContracts d) (self s)
                      = true ->
                      DToken._status d = false ->
                      DToken.getUserFeatureUsage d U < MAX_UINT256 ->
                      is_ok call = true))))).
Proof.
  cbv zeta.
  unfold requestTokenomicsAnalysis, nonpayable, requirePayment, nonReentrant.
  split.
  { intros Hv. apply Z.eqb_neq in Hv. by rewrite Hv. }
  intros ->. simpl.
  split; [by intros ->|]. intros Hhas. rewrite Hhas. simpl.
  split; [by intros ->|]. intros ->. simpl.
  split; [by intros ->|]. intros ->. simpl.
  split.
  - intros Hun.
    destruct (useFeature_unauthorized (call_from (self s) e) (msg_sender e)
                d Hun) as (_ & ->); done.
  - intros Hauth Hfree Husage.
    pose proof (useFeature_succeeds_when_paid
                  (call_from (self s) e) (msg_sender e) d eq_refl Hauth
                  Hfree Husage)
      as Hdebit.
    rewrite Hhas in Hdebit.
    destruct (DToken.useFeature _ _ d) as [[d' paid]|err]; simpl in *; done.
Qed.

Lemma request_outcomes_witness :
  let owner := mkEnv 1 0 10 97476 true [] in
  let payer := mkEnv 7 DToken.FEATURE_COST 10 97476 true [] in
  let user := mkEnv 7 0 10 97476 true [] in
  let d0 := DToken.constructor owner in
  let d1 := DToken.run [(payer, DToken.PayForFeature)] d0 in
  let d2 := DToken.run [(owner, DToken.AuthorizeContract 50 true)] d1 in
  let s := constructor owner 50 in
  requestTokenomicsAnalysis payer "0xT" d2 s = Revert NonPayable
  /\ requestTokenomicsAnalysis user "0xT" d0 s = Revert InsufficientPayment
  /\ requestTokenomicsAnalysis user "" d1 s = Revert InvalidTokenAddress
  /\ requestTokenomicsAnalysis user "0xT" d1 s = Revert UnauthorizedContract
  /\ is_ok (requestTokenomicsAnalysis user "0xT" d2 s) = true.
Proof.
  intros owner payer user d0 d1 d2 s.
  split; [|split; [|split; [|split]]].
  - destruct (request_outcomes payer "0xT" d2 s) as (H & _).
    apply H. discriminate.
  - destruct (request_outcomes user "0xT" d0 s) as (_ & H).
    destruct H as (H & _); [reflexivity|].
    apply H. vm_compute. reflexivity.
  - destruct (request_outcomes user "" d1 s) as (_ & H).
    destruct H as (_ & H); [reflexivity|].
    destruct H as (_ & H); [vm_compute; reflexivity|].
    destruct H as (H & _); [reflexivity|]. apply H. reflexivity.
  - destruct (request_outcomes user "0xT" d1 s) as (_ & H).
    destruct H as (_ & H); [reflexivity|].
    destruct H as (_ & H); [vm_compute; reflexivity|].
    destruct H as (_ & H); [reflexivity|].
    destruct H as (H & _); [reflexivity|]. apply H. vm_compute. reflexivity.
  - destruct (request_outcomes user "0xT" d2 s) as (_ & H).
    destruct H as (_ & H); [reflexivity|].
    destruct H as (_ & H); [vm_compute; reflexivity|].
    destruct H as (_ & H); [reflexivity|].
    destruct H as (_ & H); [reflexivity|].
    apply H; [vm_compute; reflexivity | reflexivity | vm_compute; reflexivity].
Defined.

End TokenomicsRequests.

Section SocialAnalysisLog.
Import SocialAnalysis.

(** What one call can do to a stored social request: nothing, or complete
    it, which needs it pending and leaves it completed. *)
Lemma step_social_request e c d s d' s' evs U n r :
  step e c (d, s) = Ok (d', s', evs) ->
  getUserRequests s U !! n = Some r ->
  getUserRequests s' U !! n = Some r
  \/ (completed r = false /\
      exists r', getUserRequests s' U !! n = Some r' /\ completed r' = true).
Proof.
  unfold getUserRequests. intros Hstep Hr.
  destruct c; simpl in Hstep.
  - unfold requestSocialAnalysis in Hstep. invert_ok. simplify_eq. cbn. left.
    rewrite mget_push_at. case_decide; [|done].
    subst. by apply lookup_app_l_Some.
  - unfold completeSocialAnalysis in Hstep. invert_ok. simplify_eq. cbn.
    match goal with H : array_get _ _ = _ |- _ =>
      apply array_get_ok in H; rename H into Hget end.
    match goal with H : array_set _ _ _ = _ |- _ =>
      apply array_set_ok in H; subst end.
    rewrite mget_insert. case_decide; [subst|by left].
    destruct (decide (Z.to_nat requestIndex = n)) as [<-|Hne].
    + right. rewrite Hr in Hget. injection Hget as <-. split; [done|].
      eexists. split.
      { apply list_lookup_insert_eq. by eapply lookup_lt_Some. }
      reflexivity.
    + left. by rewrite list_lookup_insert_ne.
  - unfold transferOwnership in Hstep. invert_ok. simplify_eq. by left.
  - invert_ok. simplify_eq. by left.
Qed.

(** X11: The social-sentiment log refuses a second completion as the other two
    logs do: once the request at [(U, i)] is completed, a further
    [completeSocialAnalysis] of it fails for every caller and every value
    sent, the owner calling without value gets "Analysis already
    completed", and the stored record, with its score and its text, is the
    same after any sequence of calls. *)
Theorem social_completed_request_is_final (d : DToken.state) (s : state)
    (U : address) (i : Z) (r : SocialRequest) :
  0 <= i ->
  getUserRequests s U !! Z.to_nat i = Some r ->
  completed r = true ->
  (forall e score text,
     is_ok (completeSocialAnalysis e U i score text s) = false
     /\ (_owner s = msg_sender e -> msg_value e = 0 ->
         completeSocialAnalysis e U i score text s =
           Revert (Error "Analysis already completed")))
  /\ (forall calls,
        getUserRequests (snd (run calls (d, s))) U !! Z.to_nat i = Some r).
Proof.
  intros Hi Hr Hdone. split.
  - intros e score text. unfold getUserRequests in Hr.
    assert ((i <? Z.of_nat (length (mget [] (userRequests s) U))) = true)
      as Hlt.
    { apply Z.ltb_lt. apply lookup_lt_Some in Hr. lia. }
    unfold completeSocialAnalysis, nonpayable, onlyOwner, array_get. simpl.
    rewrite Hlt, Hr. simpl. rewrite Hdone. simpl.
    split.
    + destruct (msg_value e =? 0); [|done]. simpl. by case_bool_decide.
    + intros Howner ->. simpl. by rewrite bool_decide_eq_true_2.
  - intros calls. revert d s Hr.
    induction calls as [|[e c] calls IH]; intros d s Hr; [done|].
    simpl. unfold exec.
    destruct (step e c (d, s)) as [[[d' s'] evs]|err] eqn:Hstep;
      [|by apply IH].
    apply IH.
    eapply step_social_request in Hstep as [H | (H & _)]; [done| |done].
    congruence.
Qed.

Lemma social_completed_request_is_final_witness :
  let owner := mkEnv 1 0 10 97476 true [] in
  let payer := mkEnv 7 DToken.FEATURE_COST 10 97476 true [] in
  let user := mkEnv 7 0 10 97476 true [] in
  let w := run [(owner, Ledger (DToken.AuthorizeContract 50 true));
                (payer, Ledger DToken.PayForFeature);
                (user, RequestSocialAnalysis "doma");
                (owner, CompleteSocialAnalysis 7 0 64 "positive")]
             (DToken.constructor owner, constructor owner 50) in
  completeSocialAnalysis owner 7 0 10 "x" (snd w)
  = Revert (Error "Analysis already completed")
  /\ sentimentScore <$>
       (getUserRequests
          (snd (run [(owner, CompleteSocialAnalysis 7 0 10 "x")] w)) 7
        !! 0%nat)
     = Some 64.
Proof.
  intros owner payer user w.
  destruct (social_completed_request_is_final (fst w) (snd w) 7 0
              (mkRequest 7 "doma" 100000000000000 true 64 "positive" 10))
    as (Hfail & Hkeep);
    [lia | vm_compute; reflexivity | reflexivity |].
  split.
  - apply Hfail; reflexivity.
  - specialize (Hkeep [(owner, CompleteSocialAnalysis 7 0 10 "x")]).
    replace (fst w, snd w) with w in Hkeep by (by destruct w).
    exact (f_equal (fmap sentimentScore) Hkeep).
Defined.

End SocialAnalysisLog.

(** ** The message log, further *)

Section UniversalLog.
Import Universal UniversalCalls.

Lemma sendMessage_ok e recipient message d s s' d' evs :
  sendMessage e recipient message d s = Ok (s', (d', evs)) ->
  let m := mkMessage (msg_sender e) recipient message (block_timestamp e)
             MESSAGE_COST false (block_chainid e) in
  recipient <> 0 /\ is_empty message = false
  /\ userMessages s' = push_at (msg_sender e) m (userMessages s)
  /\ receivedMessages s' = push_at recipient m (receivedMessages s)
  /\ allMessages s' = allMessages s ++ [m]
  /\ DToken.useFeature (call_from (self s) e) (msg_sender e) d
     = Ok (d', [FeatureUsed (msg_sender e) (self s) DToken.FEATURE_COST])
  /\ evs = [FeatureUsed (msg_sender e) (self s) DToken.FEATURE_COST;
            MessageSent (msg_sender e) recipient message MESSAGE_COST;
            PaymentReceived (msg_sender e) MESSAGE_COST].
Proof.
  unfold sendMessage, requirePayment. intros H. invert_ok.
  match goal with H : DToken.useFeature _ _ _ = _ |- _ =>
    destruct (useFeature_usage _ _ _ _ _ H) as (_ & _ & ->); rename H into Hd
  end.
  simplify_eq. cbn in *. done.
Qed.

Lemma sendCrossChainMessage_ok e dest recipient message d s s' d' evs :
  sendCrossChainMessage e dest recipient message d s = Ok (s', (d', evs)) ->
  let m := mkMessage (msg_sender e) recipient message (block_timestamp e)
             MESSAGE_COST true dest in
  recipient <> 0 /\ is_empty message = false /\ dest <> block_chainid e
  /\ userMessages s' = push_at (msg_sender e) m (userMessages s)
  /\ receivedMessages s' = receivedMessages s
  /\ allMessages s' = allMessages s ++ [m]
  /\ DToken.useFeature (call_from (self s) e) (msg_sender e) d
     = Ok (d', [FeatureUsed (msg_sender e) (self s) DToken.FEATURE_COST]).
Proof.
  unfold sendCrossChainMessage, requirePayment. intros H. invert_ok.
  match goal with H : DToken.useFeature _ _ _ = _ |- _ =>
    destruct (useFeature_usage _ _ _ _ _ H) as (_ & _ & ->); rename H into Hd
  end.
  simplify_eq. cbn in *. done.
Qed.

(** The calls that are not sends leave the three lists alone. *)
Lemma step_other_lists e c d s d' s' evs :
  step e c (d, s) = Ok (d', s', evs) ->
  is_send e c (d, s) = false ->
  userMessages s' = userMessages s
  /\ receivedMessages s' = receivedMessages s
  /\ allMessages s' = allMessages s.
Proof.
  intros Hstep Hsend. unfold is_send in Hsend. destruct c.
  - by rewrite Hstep in Hsend.
  - by rewrite Hstep in Hsend.
  - simpl in Hstep. unfold transferOwnership in Hstep. invert_ok.
    by simplify_eq.
  - simpl in Hstep. invert_ok. by simplify_eq.
Qed.

(** One call keeps the two per-user views equal to their filters of the
    global list. *)
Lemma step_views e c d s d' s' evs :
  step e c (d, s) = Ok (d', s', evs) ->
  (forall u, getUserMessages s u
             = filter (fun m => sender m = u) (allMessages s)) ->
  (forall u, getReceivedMessages s u
             = filter (fun m => recipient m = u /\ crossChain m = false)
                 (allMessages s)) ->
  (forall u, getUserMessages s' u
             = filter (fun m => sender m = u) (allMessages s'))
  /\ (forall u, getReceivedMessages s' u
              = filter (fun m => recipient m = u /\ crossChain m = false)
                  (allMessages s')).
Proof.
  unfold getUserMessages, getReceivedMessages. intros Hstep Hsent Hrecv.
  destruct (is_send e c (d, s)) eqn:Hsend.
  2: { destruct (step_other_lists _ _ _ _ _ _ _ Hstep Hsend) as (-> & -> & ->).
       done. }
  destruct c; simpl in Hsend; try done; simpl in Hstep; invert_ok; simplify_eq.
  - match goal with H : sendMessage _ _ _ _ _ = _ |- _ =>
      apply sendMessage_ok in H as (_ & _ & -> & -> & -> & _) end.
    split; intros u; rewrite mget_push_at, filter_app, filter_cons, filter_nil;
      rewrite ?Hsent, ?Hrecv; simpl;
      repeat match goal with
             | |- context [decide (?a = u)] =>
                 destruct (decide (a = u)) as [<-|?]
             | |- context [decide (?P /\ ?Q)] =>
                 first [ rewrite (decide_True (P := P /\ Q)) by done
                       | rewrite (decide_False (P := P /\ Q))
                           by (intros [? ?]; congruence) ]
             end;
      rewrite ?app_nil_r; done.
  - match goal with H : sendCrossChainMessage _ _ _ _ _ _ = _ |- _ =>
      apply sendCrossChainMessage_ok in H as (_ & _ & _ & -> & -> & -> & _) end.
    split; intros u; rewrite ?mget_push_at, filter_app, filter_cons, filter_nil;
      rewrite ?Hsent, ?Hrecv; simpl;
      repeat match goal with
             | |- context [decide (?a = u)] =>
                 destruct (decide (a = u)) as [<-|?]
             | |- context [decide (?P /\ ?Q)] =>
                 first [ rewrite (decide_True (P := P /\ Q)) by done
                       | rewrite (decide_False (P := P /\ Q))
                           by (intros [? ?]; congruence) ]
             end;
      rewrite ?app_nil_r; done.
Qed.

(** X12: The per-user views are projections of the global list: in a message
    log deployed empty and then driven by any sequence of calls, the sent
    list of a user is the global list filtered by sender, and the received
    list of a user is the global list filtered by recipient with the
    cross-chain records left out, both in the order of the global list. *)
Theorem views_are_projections (calls : list (env * call)) (e1 e2 : env)
    (this u : address) :
  let s := snd (run calls (DToken.constructor e1, constructor e2 this)) in
  getUserMessages s u = filter (fun m => sender m = u) (allMessages s)
  /\ getReceivedMessages s u
     = filter (fun m => recipient m = u /\ crossChain m = false)
         (allMessages s).
Proof.
  assert (forall w,
    ((forall u, getUserMessages (snd w) u
                = filter (fun m => sender m = u) (allMessages (snd w)))
     /\ (forall u, getReceivedMessages (snd w) u
                 = filter (fun m => recipient m = u /\ crossChain m = false)
                     (allMessages (snd w)))) ->
    ((forall u, getUserMessages (snd (run calls w)) u
                = filter (fun m => sender m = u)
                    (allMessages (snd (run calls w))))
     /\ (forall u, getReceivedMessages (snd (run calls w)) u
                 = filter (fun m => recipient m = u /\ crossChain m = false)
                     (allMessages (snd (run calls w)))))) as Hrun.
  { induction calls as [|[e c] calls IH]; intros w Hw; [done|].
    simpl. apply IH. unfold exec. destruct w as [d s].
    destruct (step e c (d, s)) as [[[d' s'] evs]|err] eqn:Hstep; [|done].
    destruct Hw. by eapply step_views. }
  cbv zeta.
  destruct (Hrun (DToken.constructor e1, constructor e2 this)) as [Hs Hr];
    [by split|].
  split; [apply Hs | apply Hr].
Qed.

(** X13: The global list is append-only and counts the sends: a call makes the
    total one higher when it is a send that succeeds and leaves it as it is
    otherwise, and along any sequence of calls the list at the start is a
    prefix of the list at the end. *)
Theorem global_list_counts_sends (e : env) (c : call)
    (calls : list (env * call)) (w : DToken.state * state) :
  getTotalMessages (snd (exec e c w))
  = getTotalMessages (snd w) + (if is_send e c w then 1 else 0)
  /\ allMessages (snd w) `prefix_of` allMessages (snd (run calls w)).
Proof.
  assert (forall e c w,
            exists tail, allMessages (snd (exec e c w))
                         = allMessages (snd w) ++ tail
                         /\ length tail = if is_send e c w then 1%nat else 0%nat)
    as Hstep.
  { clear. intros e c [d s]. unfold exec.
    destruct (step e c (d, s)) as [[[d' s'] evs]|err] eqn:Hstep; simpl.
    2: { exists []. rewrite app_nil_r. split; [done|].
         unfold is_send. destruct c; by rewrite ?Hstep. }
    destruct (is_send e c (d, s)) eqn:Hsend.
    2: { destruct (step_other_lists _ _ _ _ _ _ _ Hstep Hsend) as (_ & _ & ->).
         exists []. by rewrite app_nil_r. }
    destruct c; simpl in Hsend; try done; simpl in Hstep; invert_ok;
      simplify_eq.
    - match goal with H : sendMessage _ _ _ _ _ = _ |- _ =>
        apply sendMessage_ok in H as (_ & _ & _ & _ & -> & _) end.
      by eexists [_].
    - match goal with H : sendCrossChainMessage _ _ _ _ _ _ = _ |- _ =>
        apply sendCrossChainMessage_ok in H as (_ & _ & _ & _ & _ & -> & _) end.
      by eexists [_]. }
  split.
  - destruct (Hstep e c w) as (tail & Ht & Hlen). unfold getTotalMessages.
    rewrite Ht, length_app, Hlen. destruct (is_send e c w); lia.
  - revert w. induction calls as [|[e' c'] calls IH]; intros w; [done|].
    simpl. etrans; [|apply IH].
    destruct (Hstep e' c' w) as (tail & -> & _). by apply prefix_app_r.
Qed.

End UniversalLog.

Section UniversalPages.
Import Universal.

(** Without overflow a page is the [limit] messages that follow the first
    [offset], or as many as there are. *)
Lemma getAllMessages_page (s : state) (offset limit : Z) :
  0 <= offset -> 0 <= limit -> offset + limit <= MAX_UINT256 ->
  getAllMessages s offset limit
  = Ok (take (Z.to_nat limit) (drop (Z.to_nat offset) (allMessages s))).
Proof.
  intros Hoff Hlim Hfit. unfold getAllMessages.
  set (total := Z.of_nat (length (allMessages s))).
  destruct (total <=? offset) eqn:Hc.
  { apply Z.leb_le in Hc. rewrite drop_ge by (unfold total in Hc; lia).
    by rewrite take_nil. }
  apply Z.leb_gt in Hc.
  unfold checked_add. apply Z.leb_le in Hfit. rewrite Hfit. simpl.
  set (end_ := if total <? offset + limit then total else offset + limit).
  assert (end_ = Z.min (offset + limit) total) as Hend.
  { unfold end_. destruct (total <? offset + limit) eqn:Hm;
      [apply Z.ltb_lt in Hm | apply Z.ltb_ge in Hm]; lia. }
  rewrite Hend. unfold checked_sub.
  destruct (offset <=? Z.min (offset + limit) total) eqn:Hle;
    [|apply Z.leb_gt in Hle; lia].
  simpl. unfold for_range.
  set (size := Z.to_nat (Z.min (offset + limit) total - offset)).
  pose proof (copy_loop_fills (allMessages s) offset size size 0 Hoff) as H.
  simpl in H. rewrite Z.add_0_r, Nat.sub_0_r, Nat.sub_diag in H.
  simpl in H. rewrite app_nil_r in H. rewrite H; [|lia|unfold size, total; lia].
  f_equal.
  destruct (decide (offset + limit <= total)) as [Hin|Hout].
  - f_equal. unfold size. lia.
  - rewrite (take_ge _ (Z.to_nat limit))
      by (rewrite length_drop; unfold total in *; lia).
    apply take_ge. rewrite length_drop. unfold size, total in *. lia.
Qed.

(** X14: Pages compose: when no sum overflows, the page of [a] messages at
    [offset] followed by the page of [b] messages at [offset + a] is the
    page of [a + b] messages at [offset]; a page is never longer than its
    limit; and the page at 0 with the total as limit is the whole list. *)
Theorem pages_concatenate (s : state) (offset a b : Z) :
  0 <= offset -> 0 <= a -> 0 <= b -> offset + a + b <= MAX_UINT256 ->
  (exists p1 p2,
     getAllMessages s offset a = Ok p1
     /\ getAllMessages s (offset + a) b = Ok p2
     /\ getAllMessages s offset (a + b) = Ok (p1 ++ p2)
     /\ Z.of_nat (length p1) <= a)
  /\ (getTotalMessages s <= MAX_UINT256 ->
      getAllMessages s 0 (getTotalMessages s) = Ok (allMessages s)).
Proof.
  intros Hoff Ha Hb Hfit. split.
  - eexists _, _.
    split; [apply getAllMessages_page; lia|].
    split; [apply getAllMessages_page; lia|].
    split.
    + rewrite getAllMessages_page by lia. f_equal.
      rewrite !Z2Nat.inj_add by lia.
      rewrite <- drop_drop. by rewrite take_take_drop.
    + rewrite length_take. lia.
  - intros Htotal. unfold getTotalMessages in *.
    rewrite getAllMessages_page by lia. f_equal. simpl.
    apply take_ge. lia.
Qed.

Lemma pages_concatenate_witness :
  let m n := mkMessage 7 8 "hi" n 100000000000000 false 97476 in
  let s := mkState 1 false 50 ∅ ∅ [m 0; m 1; m 2; m 3; m 4] in
  getAllMessages s 1 2 = Ok [m 1; m 2]
  /\ getAllMessages s 3 5 = Ok [m 3; m 4]
  /\ getAllMessages s 1 7 = Ok ([m 1; m 2] ++ [m 3; m 4])
  /\ getAllMessages s 0 5 = Ok [m 0; m 1; m 2; m 3; m 4].
Proof.
  intros m s.
  destruct (pages_concatenate s 1 2 5) as ((p1 & p2 & H1 & H2 & H3 & _) & H4);
    [lia | lia | lia | vm_compute; discriminate |].
  assert (p1 = [m 1; m 2]) as ->.
  { assert (Ok p1 = Ok [m 1; m 2]) as [= ->]; [by rewrite <- H1|done]. }
  assert (p2 = [m 3; m 4]) as ->.
  { assert (Ok p2 = Ok [m 3; m 4]) as [= ->]; [by rewrite <- H2|done]. }
  split; [exact H1|]. split; [exact H2|]. split; [exact H3|].
  apply H4. vm_compute. discriminate.
Defined.

End UniversalPages.

(** ** Monitoring, further *)

Section MonitoringAlerts.
Import Monitoring MonitoringCalls.

Lemma bump_zero t r : bump t 0 r = r.
Proof.
  unfold bump. destruct (alerted t r); [|done].
  destruct r. unfold set_alertCount. simpl. f_equal. lia.
Qed.

Lemma bump_bump t j k r : bump t k (bump t j r) = bump t (j + k) r.
Proof.
  unfold bump. destruct (alerted t r) eqn:Ha; [|by rewrite Ha].
  assert (alerted t (set_alertCount (alertCount r + j) r) = true) as ->.
  { by destruct r. }
  destruct r. unfold set_alertCount. simpl. f_equal. lia.
Qed.

(** The inner loop raises the counter of every alerted request by one and
    emits one event for each. *)
Lemma alert_requests_ok u t ty v requests requests' evs :
  alert_requests u t ty v requests = Ok (requests', evs) ->
  requests' = bump t 1 <$> requests
  /\ evs = replicate (length (filter (fun r => alerted t r = true) requests))
             (AlertTriggered u t ty v).
Proof.
  revert requests' evs. induction requests as [|r rest IH];
    intros requests' evs; simpl.
  { by intros [= <- <-]. }
  intros H. invert_ok. simplify_eq.
  match goal with H : alert_requests _ _ _ _ _ = _ |- _ =>
    destruct (IH _ _ H) as (-> & ->) end.
  rewrite filter_cons. unfold bump, alerted in *.
  destruct (keccak_eq (tokenAddress r) t && active r) eqn:Ha.
  - invert_ok. simplify_eq. rewrite decide_True by done. done.
  - simplify_eq. rewrite decide_False by done. done.
Qed.

(** The outer loop does this once per entry of the subscriber index. *)
Lemma alert_monitors_ok t ty v monitors s s' evs :
  alert_monitors t ty v monitors s = Ok (s', evs) ->
  (forall u, getUserMonitoring s' u
             = bump t (entries_of u monitors) <$> getUserMonitoring s u)
  /\ tokenMonitors s' = tokenMonitors s
  /\ _owner s' = _owner s /\ _status s' = _status s.
Proof.
  unfold getUserMonitoring, entries_of.
  revert s s' evs. induction monitors as [|u0 rest IH]; intros s s' evs; simpl.
  { intros [= <- <-]. split; [|done]. intros u.
    rewrite <- (list_fmap_id (mget [] (userMonitoring s) u)) at 1.
    apply list_fmap_ext. intros _ r _. simpl. by rewrite bump_zero. }
  intros H. invert_ok. simplify_eq.
  match goal with H : alert_requests _ _ _ _ _ = _ |- _ =>
    apply alert_requests_ok in H as (-> & _) end.
  match goal with H : alert_monitors _ _ _ _ _ = _ |- _ =>
    destruct (IH _ _ _ H) as (Hu & Ht & Ho & Hs) end.
  cbn in *. split; [|done]. intros u. rewrite Hu, mget_insert.
  destruct (decide (u0 = u)) as [->|Hne]; [|done].
  rewrite <- list_fmap_compose. apply list_fmap_ext. intros _ r _. simpl.
  rewrite bump_bump. f_equal. by rewrite Nat2Z.inj_succ, Z.add_1_l.
Qed.

(** What a successful [triggerAlert] has checked and stored. *)
Lemma triggerAlert_ok (e : env) (t ty : string) (v : Z)
    (s s' : state) (evs : list effect) :
  triggerAlert e t ty v s = Ok (s', evs) ->
  _owner s = msg_sender e
  /\ (forall u, getUserMonitoring s' u
               = bump t (entries_of u (getTokenMonitors s t))
                 <$> getUserMonitoring s u)
  /\ (forall u i r, getUserMonitoring s u !! i = Some r ->
        alerted t r = false -> getUserMonitoring s' u !! i = Some r)
  /\ tokenMonitors s' = tokenMonitors s.
Proof.
  unfold triggerAlert, onlyOwner. intros H. invert_ok.
  match goal with H : alert_monitors _ _ _ _ _ = _ |- _ =>
    apply alert_monitors_ok in H as (Hu & Ht & _) end.
  split; [done|]. split; [done|]. split; [|done].
  intros u i r Hr Hno. rewrite Hu, list_lookup_fmap, Hr. simpl.
  unfold bump. by rewrite Hno.
Qed.

(** X15: What one [triggerAlert] does: it needs the owner as caller; every
    alerted request (for the target, and active) of every user has its
    counter raised by the number of entries that the subscriber index of the
    target holds for that user; every other request, every other field, the
    index and the lengths of the lists are as before. *)
Theorem triggerAlert_counts (e : env) (t ty : string) (v : Z)
    (s s' : state) (evs : list effect) :
  triggerAlert e t ty v s = Ok (s', evs) ->
  _owner s = msg_sender e
  /\ (forall u, getUserMonitoring s' u
               = bump t (entries_of u (getTokenMonitors s t))
                 <$> getUserMonitoring s u)
  /\ (forall u i r, getUserMonitoring s u !! i = Some r ->
        alerted t r = false -> getUserMonitoring s' u !! i = Some r)
  /\ tokenMonitors s' = tokenMonitors s.
Proof. exact (triggerAlert_ok e t ty v s s' evs). Qed.

Lemma triggerAlert_counts_witness :
  let owner := mkEnv 1 0 10 97476 true [] in
  let payer := mkEnv 7 DToken.FEATURE_COST 10 97476 true [] in
  let user := mkEnv 7 0 10 97476 true [] in
  let w := run [(owner, Ledger (DToken.AuthorizeContract 50 true));
                (payer, Ledger DToken.PayForFeature);
                (user, RequestMonitoring "T" 300);
                (payer, Ledger DToken.PayForFeature);
                (user, RequestMonitoring "S" 500)]
             (DToken.constructor owner, constructor owner 50) in
  exists s' evs,
    triggerAlert owner "T" "PRICE_SPIKE" 42 (snd w) = Ok (s', evs)
    /\ (alertCount <$> getUserMonitoring s' 7) = [1; 0].
Proof.
  intros owner payer user w.
  destruct (triggerAlert owner "T" "PRICE_SPIKE" 42 (snd w))
    as [[s' evs]|err] eqn:H; [|vm_compute in H; discriminate H].
  destruct (triggerAlert_counts _ _ _ _ _ _ _ H) as (_ & Hu & _).
  exists s', evs. split; [reflexivity|]. rewrite Hu. vm_compute. reflexivity.
Defined.

End MonitoringAlerts.

Section MonitoringTraces.
Import Monitoring MonitoringCalls.

Lemma requestMonitoring_ok e t threshold d s s' d' evs :
  requestMonitoring e t threshold d s = Ok (s', (d', evs)) ->
  userMonitoring s' =
    push_at (msg_sender e)
      (mkRequest (msg_sender e) t MONITORING_COST true threshold
         (block_timestamp e) 0) (userMonitoring s)
  /\ tokenMonitors s' = push_at t (msg_sender e) (tokenMonitors s).
Proof.
  unfold requestMonitoring. intros H. invert_ok. by simplify_eq.
Qed.

Lemma stopMonitoring_ok e i s s' evs :
  stopMonitoring e i s = Ok (s', evs) ->
  exists r,
    getUserMonitoring s (msg_sender e) !! Z.to_nat i = Some r
    /\ active r = true
    /\ userMonitoring s' =
       <[msg_sender e :=
           <[Z.to_nat i := set_active false r]>
             (getUserMonitoring s (msg_sender e))]> (userMonitoring s)
    /\ tokenMonitors s' = tokenMonitors s
    /\ evs = [].
Proof.
  unfold stopMonitoring, getUserMonitoring. intros H. invert_ok. simplify_eq.
  match goal with H : array_get _ _ = _ |- _ => apply array_get_ok in H end.
  match goal with H : array_set _ _ _ = _ |- _ =>
    apply array_set_ok in H; subst end.
  eexists. by repeat split.
Qed.

Lemma subscriptions_to_app t l1 l2 :
  subscriptions_to t (l1 ++ l2) = subscriptions_to t l1 + subscriptions_to t l2.
Proof. unfold subscriptions_to. rewrite filter_app, length_app. lia. Qed.

Lemma entries_of_app u l1 l2 :
  entries_of u (l1 ++ l2) = entries_of u l1 + entries_of u l2.
Proof. unfold entries_of. rewrite filter_app, length_app. lia. Qed.

(** Rewriting the requests without touching their targets keeps the
    number of subscriptions to each target. *)
Lemma subscriptions_to_fmap t (f : MonitoringRequest -> MonitoringRequest) l :
  (forall r, tokenAddress (f r) = tokenAddress r) ->
  subscriptions_to t (f <$> l) = subscriptions_to t l.
Proof.
  intros Hf. unfold subscriptions_to. f_equal.
  induction l as [|r l IH]; [done|].
  rewrite fmap_cons, !filter_cons, Hf.
  destruct (decide (tokenAddress r = t)); simpl; by rewrite IH.
Qed.

Lemma subscriptions_to_insert t l i r r' :
  l !! i = Some r -> tokenAddress r' = tokenAddress r ->
  subscriptions_to t (<[i := r']> l) = subscriptions_to t l.
Proof.
  intros Hr Ht. unfold subscriptions_to. f_equal.
  revert i Hr. induction l as [|x l IH]; intros [|i] Hr; simpl in *;
    try done.
  - injection Hr as ->. rewrite !filter_cons, Ht.
    by destruct (decide (tokenAddress r = t)).
  - rewrite !filter_cons.
    destruct (decide (tokenAddress x = t)); simpl; by rewrite (IH i).
Qed.

Lemma tokenAddress_bump t k r : tokenAddress (bump t k r) = tokenAddress r.
Proof. unfold bump. by destruct (alerted t r), r. Qed.

(** One call keeps the subscriber index in step with the lists of
    requests. *)
Lemma step_index e c d s d' s' evs :
  step e c (d, s) = Ok (d', s', evs) ->
  (forall u t, entries_of u (getTokenMonitors s t)
               = subscriptions_to t (getUserMonitoring s u)) ->
  forall u t, entries_of u (getTokenMonitors s' t)
              = subscriptions_to t (getUserMonitoring s' u).
Proof.
  unfold getTokenMonitors, getUserMonitoring. intros Hstep Hinv u t.
  pose proof (Hinv u t) as Hut.
  destruct c; simpl in Hstep; invert_ok; simplify_eq.
  - match goal with H : requestMonitoring _ ?t0 _ _ _ = _ |- _ =>
      apply requestMonitoring_ok in H as (-> & ->);
      rewrite !mget_push_at;
      destruct (decide (t0 = t)) as [->|Ht] end;
      destruct (decide (msg_sender e = u)) as [<-|Hu];
      rewrite ?subscriptions_to_app, ?entries_of_app, Hut;
      unfold subscriptions_to, entries_of; rewrite ?filter_cons, ?filter_nil;
      simpl; rewrite ?decide_True, ?decide_False by done; simpl; lia.
  - match goal with H : triggerAlert _ _ _ _ _ = _ |- _ =>
      apply triggerAlert_ok in H as (_ & Hu & _ & ->) end.
    unfold getUserMonitoring in Hu. rewrite Hu.
    rewrite subscriptions_to_fmap by (intros; apply tokenAddress_bump). done.
  - match goal with H : stopMonitoring _ _ _ = _ |- _ =>
      apply stopMonitoring_ok in H as (r & Hr & _ & -> & -> & _) end.
    unfold getUserMonitoring in *. rewrite mget_insert.
    destruct (decide (msg_sender e = u)) as [<-|Hu]; [|done].
    by erewrite subscriptions_to_insert.
  - unfold transferOwnership in *. invert_ok. by simplify_eq.
  - done.
Qed.

(** The entries of the index and the requests of the users agree after
    any sequence of calls on a contract deployed empty. *)
Lemma run_index (calls : list (env * call)) (e1 e2 : env)
    (this u : address) (t : string) :
  let s := snd (run calls (DToken.constructor e1, constructor e2 this)) in
  entries_of u (getTokenMonitors s t)
  = subscriptions_to t (getUserMonitoring s u).
Proof.
  assert (forall w,
            (forall u t, entries_of u (getTokenMonitors (snd w) t)
                         = subscriptions_to t (getUserMonitoring (snd w) u)) ->
            forall u t,
              entries_of u (getTokenMonitors (snd (run calls w)) t)
              = subscriptions_to t (getUserMonitoring (snd (run calls w)) u))
    as Hrun.
  { induction calls as [|[e c] calls IH]; intros w Hw; [done|].
    simpl. apply IH. unfold exec. destruct w as [d s].
    destruct (step e c (d, s)) as [[[d' s'] evs]|err] eqn:Hstep; [|done].
    by eapply step_index. }
  apply Hrun. done.
Qed.

(** X16: The subscriber index counts the subscriptions: in a contract deployed
    empty and then driven by any sequence of calls, the index of a target
    holds a user once for every request, active or stopped, that the user
    has made for that target. *)
Theorem index_counts_subscriptions (calls : list (env * call)) (e1 e2 : env)
    (this u : address) (t : string) :
  let s := snd (run calls (DToken.constructor e1, constructor e2 this)) in
  entries_of u (getTokenMonitors s t)
  = subscriptions_to t (getUserMonitoring s u).
Proof. exact (run_index calls e1 e2 this u t). Qed.

(** X17: So an alert counts every subscription the user ever made: after any
    sequence of calls on a contract deployed empty, a successful
    [triggerAlert] raises the counter of each active request for the target
    by the number of requests, active or stopped, that its user has for the
    target. *)
Theorem alert_counts_every_subscription (calls : list (env * call))
    (e1 e2 e : env) (this u : address) (t ty : string) (v : Z)
    (s' : state) (evs : list effect) (i : nat) (r : MonitoringRequest) :
  let s := snd (run calls (DToken.constructor e1, constructor e2 this)) in
  triggerAlert e t ty v s = Ok (s', evs) ->
  getUserMonitoring s u !! i = Some r ->
  tokenAddress r = t -> active r = true ->
  getUserMonitoring s' u !! i
  = Some (set_alertCount
            (alertCount r + subscriptions_to t (getUserMonitoring s u)) r).
Proof.
  intros s Hok Hr Ht Hactive.
  apply triggerAlert_ok in Hok as (_ & Hu & _).
  rewrite Hu, list_lookup_fmap, Hr. simpl. f_equal.
  unfold s. rewrite run_index.
  unfold bump, alerted, keccak_eq. rewrite Ht, Hactive.
  by rewrite bool_decide_eq_true_2.
Qed.

Lemma alert_counts_every_subscription_witness :
  let owner := mkEnv 1 0 10 97476 true [] in
  let payer := mkEnv 7 DToken.FEATURE_COST 10 97476 true [] in
  let user := mkEnv 7 0 10 97476 true [] in
  let calls := [(owner, Ledger (DToken.AuthorizeContract 50 true));
                (payer, Ledger DToken.PayForFeature);
                (user, RequestMonitoring "T" 300);
                (user, StopMonitoring 0);
                (payer, Ledger DToken.PayForFeature);
                (user, RequestMonitoring "T" 500)] in
  let s := snd (run calls (DToken.constructor owner, constructor owner 50)) in
  exists s' evs,
    triggerAlert owner "T" "PRICE_SPIKE" 42 s = Ok (s', evs)
    /\ (active <$> getUserMonitoring s 7) = [false; true]
    /\ (alertCount <$> getUserMonitoring s' 7 !! 1%nat) = Some 2.
Proof.
  intros owner payer user calls s.
  destruct (triggerAlert owner "T" "PRICE_SPIKE" 42 s)
    as [[s' evs]|err] eqn:H; [|vm_compute in H; discriminate H].
  exists s', evs. split; [reflexivity|]. split; [vm_compute; reflexivity|].
  rewrite (alert_counts_every_subscription calls owner owner owner 50 7 "T"
             "PRICE_SPIKE" 42 s' evs 1
             (mkRequest 7 "T" MONITORING_COST true 500 10 0) H);
    [vm_compute; reflexivity | vm_compute; reflexivity | reflexivity
    | reflexivity].
Defined.

End MonitoringTraces.

Section MonitoringStops.
Import Monitoring MonitoringCalls.

Lemma subscription_kept_refl r : subscription_kept r r.
Proof. unfold subscription_kept. repeat split; done. Qed.

Lemma subscription_kept_trans r1 r2 r3 :
  subscription_kept r1 r2 -> subscription_kept r2 r3 ->
  subscription_kept r1 r3.
Proof.
  intros (Hu & Ht & Hp & Ha & Hs & Hc & Hoff)
         (Hu' & Ht' & Hp' & Ha' & Hs' & Hc' & Hoff').
  unfold subscription_kept. repeat split; try congruence; try lia.
  intros Hstopped. specialize (Hoff Hstopped). subst r2. by apply Hoff'.
Qed.

Lemma entries_of_nonneg u l : 0 <= entries_of u l.
Proof. unfold entries_of. lia. Qed.

Lemma subscription_kept_bump t k r :
  0 <= k -> subscription_kept r (bump t k r).
Proof.
  intros Hk. unfold bump, alerted.
  destruct (keccak_eq (tokenAddress r) t && active r) eqn:Ha;
    [|apply subscription_kept_refl].
  apply andb_true_iff in Ha as [_ Ha].
  destruct r. unfold subscription_kept. simpl in *.
  repeat split; try done; [lia | congruence].
Qed.

(** What one call does to the list of a user: every request stays at its
    index and is kept, and one may be appended. *)
Lemma step_keeps_subscriptions e c d s d' s' evs u :
  step e c (d, s) = Ok (d', s', evs) ->
  (length (getUserMonitoring s u) <= length (getUserMonitoring s' u))%nat
  /\ forall i r, getUserMonitoring s u !! i = Some r ->
       exists r', getUserMonitoring s' u !! i = Some r'
                  /\ subscription_kept r r'.
Proof.
  intros Hstep. destruct c; simpl in Hstep; invert_ok; simplify_eq.
  - match goal with H : requestMonitoring _ _ _ _ _ = _ |- _ =>
      apply requestMonitoring_ok in H as (Hu & _) end.
    unfold getUserMonitoring. rewrite Hu, mget_push_at.
    destruct (decide (msg_sender e = u)) as [<-|Hne].
    + rewrite length_app. split; [lia|]. intros i r Hr. exists r.
      split; [by apply lookup_app_l_Some | apply subscription_kept_refl].
    + split; [done|]. intros i r Hr. exists r.
      split; [done | apply subscription_kept_refl].
  - match goal with H : triggerAlert _ _ _ _ _ = _ |- _ =>
      apply triggerAlert_ok in H as (_ & Hu & _) end.
    rewrite Hu, length_fmap. split; [done|]. intros i r Hr.
    eexists. rewrite list_lookup_fmap, Hr. split; [reflexivity|].
    apply subscription_kept_bump, entries_of_nonneg.
  - match goal with H : stopMonitoring _ _ _ = _ |- _ =>
      apply stopMonitoring_ok in H as (r0 & Hr0 & Ha & Hu & _) end.
    unfold getUserMonitoring in *. rewrite Hu, mget_insert.
    destruct (decide (msg_sender e = u)) as [<-|Hne].
    + rewrite length_insert. split; [done|]. intros i r Hr.
      destruct (decide (Z.to_nat requestIndex = i)) as [<-|Hi].
      * rewrite Hr in Hr0. injection Hr0 as <-. eexists. split.
        { apply list_lookup_insert_eq. by eapply lookup_lt_Some. }
        destruct r. unfold subscription_kept. simpl in *.
        repeat split; try done. congruence.
      * exists r. rewrite list_lookup_insert_ne by done.
        split; [done | apply subscription_kept_refl].
    + split; [done|]. intros i r Hr. exists r.
      split; [done | apply subscription_kept_refl].
  - unfold transferOwnership in *. invert_ok. simplify_eq.
    split; [done|]. intros i r Hr. exists r.
    split; [done | apply subscription_kept_refl].
  - split; [done|]. intros i r Hr. exists r.
    split; [done | apply subscription_kept_refl].
Qed.

(** X18: Subscriptions only wind down: along any sequence of calls the list of
    a user never gets shorter, every request stays at its index with the
    fields set at creation, its alert counter never goes down, and a
    stopped request is never active again and never counts another alert. *)
Theorem subscriptions_only_wind_down (calls : list (env * call))
    (w : DToken.state * state) (u : address) :
  (length (getUserMonitoring (snd w) u)
   <= length (getUserMonitoring (snd (run calls w)) u))%nat
  /\ forall i r, getUserMonitoring (snd w) u !! i = Some r ->
       exists r', getUserMonitoring (snd (run calls w)) u !! i = Some r'
                  /\ subscription_kept r r'.
Proof.
  revert w. induction calls as [|[e c] calls IH]; intros w.
  { split; [done|]. intros i r Hr. exists r.
    split; [done | apply subscription_kept_refl]. }
  simpl. destruct (IH (exec e c w)) as [IHlen IHkept].
  assert ((length (getUserMonitoring (snd w) u)
           <= length (getUserMonitoring (snd (exec e c w)) u))%nat
          /\ forall i r, getUserMonitoring (snd w) u !! i = Some r ->
               exists r', getUserMonitoring (snd (exec e c w)) u !! i = Some r'
                          /\ subscription_kept r r') as [Hlen Hkept].
  { unfold exec. destruct w as [d s].
    destruct (step e c (d, s)) as [[[d' s'] evs]|err] eqn:Hstep.
    - by eapply step_keeps_subscriptions.
    - split; [done|]. intros i r Hr. exists r.
      split; [done | apply subscription_kept_refl]. }
  split; [lia|]. intros i r Hr.
  destruct (Hkept i r Hr) as (r1 & Hr1 & Hk1).
  destruct (IHkept i r1 Hr1) as (r2 & Hr2 & Hk2).
  exists r2. split; [done | by eapply subscription_kept_trans].
Qed.

Lemma subscriptions_only_wind_down_witness :
  let owner := mkEnv 1 0 10 97476 true [] in
  let payer := mkEnv 7 DToken.FEATURE_COST 10 97476 true [] in
  let user := mkEnv 7 0 10 97476 true [] in
  let w := run [(owner, Ledger (DToken.AuthorizeContract 50 true));
                (payer, Ledger DToken.PayForFeature);
                (user, RequestMonitoring "T" 300);
                (user, StopMonitoring 0)]
             (DToken.constructor owner, constructor owner 50) in
  let calls := [(payer, Ledger DToken.PayForFeature);
                (user, RequestMonitoring "T" 500);
                (owner, TriggerAlert "T" "PRICE_SPIKE" 42)] in
  getUserMonitoring (snd (run calls w)) 7 !! 0%nat
  = Some (mkRequest 7 "T" MONITORING_COST false 300 10 0).
Proof.
  intros owner payer user w calls.
  destruct (subscriptions_only_wind_down calls w 7) as (_ & H).
  destruct (H 0%nat (mkRequest 7 "T" MONITORING_COST false 300 10 0))
    as (r' & Hr' & Hk); [vm_compute; reflexivity|].
  destruct Hk as (_ & _ & _ & _ & _ & _ & Hsame).
  rewrite Hr'. f_equal. apply Hsame. reflexivity.
Defined.

(** X19: Stopping is final and leaves the index alone: a successful
    [stopMonitoring] found the caller's request at the index active, makes
    it inactive and changes nothing else of it, emits no event, touches no
    other request, and leaves the caller in the subscriber index of the
    target; the same call made again fails, with "Monitoring already
    stopped" when it carries no value. *)
Theorem stop_is_final (e : env) (i : Z) (s s' : state) (evs : list effect) :
  0 <= i ->
  stopMonitoring e i s = Ok (s', evs) ->
  let U := msg_sender e in
  (exists r,
     getUserMonitoring s U !! Z.to_nat i = Some r /\ active r = true
     /\ getUserMonitoring s' U
        = <[Z.to_nat i := set_active false r]> (getUserMonitoring s U))
  /\ (forall V, V <> U -> getUserMonitoring s' V = getUserMonitoring s V)
  /\ (forall t, getTokenMonitors s' t = getTokenMonitors s t)
  /\ evs = []
  /\ forall e', msg_sender e' = U ->
       is_ok (stopMonitoring e' i s') = false
       /\ (msg_value e' = 0 ->
           stopMonitoring e' i s'
           = Revert (Error "Monitoring already stopped")).
Proof.
  intros Hi Hok U. apply stopMonitoring_ok in Hok as (r & Hr & Ha & Hu & Ht & ->).
  assert (getUserMonitoring s' U
          = <[Z.to_nat i := set_active false r]> (getUserMonitoring s U))
    as HU.
  { unfold getUserMonitoring at 1. by rewrite Hu, mget_insert_eq. }
  split; [by exists r|]. split; [|split; [|split; [done|]]].
  - intros V HV. unfold getUserMonitoring at 1. rewrite Hu.
    by rewrite mget_insert_ne.
  - intros t. unfold getTokenMonitors. by rewrite Ht.
  - intros e' He'. unfold stopMonitoring, nonpayable. rewrite He'.
    fold (getUserMonitoring s' U). rewrite HU.
    pose proof (lookup_lt_Some _ _ _ Hr) as Hlen.
    rewrite length_insert. unfold array_get.
    rewrite list_lookup_insert_eq by done. unfold U in *.
    destruct (i <? Z.of_nat (length (getUserMonitoring s (msg_sender e))))
      eqn:Hlt; [|apply Z.ltb_ge in Hlt; lia].
    split; [by destruct (msg_value e' =? 0) | by intros ->].
Qed.

Lemma stop_is_final_witness :
  let owner := mkEnv 1 0 10 97476 true [] in
  let payer := mkEnv 7 DToken.FEATURE_COST 10 97476 true [] in
  let user := mkEnv 7 0 10 97476 true [] in
  let w := run [(owner, Ledger (DToken.AuthorizeContract 50 true));
                (payer, Ledger DToken.PayForFeature);
                (user, RequestMonitoring "T" 300)]
             (DToken.constructor owner, constructor owner 50) in
  exists s',
    stopMonitoring user 0 (snd w) = Ok (s', [])
    /\ getTokenMonitors s' "T" = [7]
    /\ stopMonitoring user 0 s' = Revert (Error "Monitoring already stopped").
Proof.
  intros owner payer user w.
  destruct (stopMonitoring user 0 (snd w)) as [[s' evs]|err] eqn:H;
    [|vm_compute in H; discriminate H].
  destruct (stop_is_final user 0 (snd w) s' evs) as (_ & _ & Ht & -> & Hagain);
    [lia | exact H |].
  exists s'. split; [reflexivity|]. split.
  - rewrite Ht. vm_compute. reflexivity.
  - apply Hagain; reflexivity.
Defined.

End MonitoringStops.

(** ** The domain registry, further *)

Section DomainTokenization.
Import DomainManagement DomainViews.

(** X20: Tokenizing is a round trip with [getDomainInfo], once only: after a
    successful [tokenizeDomain] the information of the name is the caller,
    tokenized, the time of the call and active; the name is appended to the
    global list and to the caller's list; and tokenizing the same name again
    fails, whoever calls, with [DomainAlreadyTokenized] when the call
    carries no value. *)
Theorem tokenize_then_info (e : env) (n : string) (d d' : DToken.state)
    (s s' : state) (evs : list effect) :
  tokenizeDomain e n d s = Ok (s', (d', evs)) ->
  getDomainInfo n s' = Ok (msg_sender e, true, block_timestamp e, true)
  /\ allDomains s' = allDomains s ++ [n]
  /\ getUserDomains s' (msg_sender e) = getUserDomains s (msg_sender e) ++ [n]
  /\ (forall e2 d2,
        is_ok (tokenizeDomain e2 n d2 s') = false
        /\ (msg_value e2 = 0 ->
            tokenizeDomain e2 n d2 s' = Revert DomainAlreadyTokenized)).
Proof.
  intros Hok.
  assert (_status s' = false /\ allDomains s' = allDomains s ++ [n]) as [Hfree Hall].
  { unfold tokenizeDomain in Hok. invert_ok. by simplify_eq. }
  apply tokenizeDomain_ok in Hok as (Hne & _ & Hd & Hu).
  assert (domain s' n = mkDomain n (msg_sender e) true (block_timestamp e)
                          (rights (domain s n)) true) as Hdom.
  { unfold domain at 1. by rewrite Hd, mget_insert_eq. }
  split; [|split; [done|split]].
  - unfold getDomainInfo, domainExists. rewrite Hdom. simpl. by rewrite Hne.
  - unfold getUserDomains. by rewrite Hu, mget_push_at, decide_True.
  - intros e2 d2. unfold tokenizeDomain, nonpayable, nonReentrant. simpl.
    rewrite Hfree. simpl. rewrite Hne. simpl.
    change (domain (set__status true s') n) with (domain s' n).
    rewrite Hdom. simpl.
    split; [by destruct (msg_value e2 =? 0) | by intros ->].
Qed.

Lemma tokenize_then_info_witness :
  let owner := mkEnv 1 0 0 97476 true [] in
  let payer := mkEnv 7 DToken.FEATURE_COST 100 97476 true [] in
  let user := mkEnv 7 0 100 97476 true [] in
  let d := DToken.run [(owner, DToken.AuthorizeContract 50 true);
                       (payer, DToken.PayForFeature)]
             (DToken.constructor owner) in
  exists s' d' evs,
    tokenizeDomain user "a.io" d (constructor owner 50) = Ok (s', (d', evs))
    /\ getDomainInfo "a.io" s' = Ok (7, true, 100, true)
    /\ tokenizeDomain owner "a.io" d' s' = Revert DomainAlreadyTokenized.
Proof.
  intros owner payer user d.
  destruct (tokenizeDomain user "a.io" d (constructor owner 50))
    as [[s' [d' evs]]|err] eqn:H; [|vm_compute in H; discriminate H].
  destruct (tokenize_then_info _ _ _ _ _ _ _ H) as (Hinfo & _ & _ & Hagain).
  exists s', d', evs. split; [reflexivity|]. split; [exact Hinfo|].
  apply Hagain. reflexivity.
Defined.

(** What one call leaves alone in a tokenized domain record: the name,
    the tokenized flag and the tokenization time. *)
Lemma step_tokenized e c d s d' s' evs n :
  step e c (d, s) = Ok (d', s', evs) ->
  isTokenized (domain s n) = true ->
  isTokenized (domain s' n) = true
  /\ name (domain s' n) = name (domain s n)
  /\ tokenizedAt (domain s' n) = tokenizedAt (domain s n).
Proof.
  intros Hstep Htok. unfold domain in *.
  destruct c; simpl in Hstep; invert_ok; simplify_eq.
  - match goal with H : tokenizeDomain _ _ _ _ = _ |- _ =>
      apply tokenizeDomain_ok in H as (_ & Hfresh & -> & _) end.
    rewrite mget_insert. case_decide; [|done]. subst.
    unfold domain in Hfresh. congruence.
  - match goal with H : grantDomainRight _ _ _ _ _ _ _ = _ |- _ =>
      unfold grantDomainRight in H end.
    invert_ok. simplify_eq. cbn. unfold domain.
    rewrite mget_insert. case_decide; by subst.
  - match goal with H : revokeDomainRight _ _ _ _ = _ |- _ =>
      unfold revokeDomainRight in H end.
    invert_ok. simplify_eq. cbn. unfold domain.
    rewrite mget_insert. case_decide; by subst.
  - match goal with H : transferDomain _ _ _ _ _ = _ |- _ =>
      apply transferDomain_ok in H as (_ & _ & -> & _) end.
    unfold domain. rewrite mget_insert. case_decide; by subst.
  - match goal with H : syncDomainState _ _ _ _ = _ |- _ =>
      unfold syncDomainState in H end.
    invert_ok. simplify_eq. cbn. unfold domain.
    rewrite mget_insert. case_decide; by subst.
  - unfold transferOwnership in *. invert_ok. by simplify_eq.
  - done.
Qed.

(** X21: Tokenization is permanent: along any sequence of calls a tokenized
    domain stays tokenized and keeps its name and its tokenization time, so
    [getDomainInfo] keeps answering, with the same flag and time. *)
Theorem tokenization_is_permanent (calls : list (env * call))
    (w : DToken.state * state) (n : string) :
  isTokenized (domain (snd w) n) = true ->
  is_empty (name (domain (snd w) n)) = false ->
  let s' := snd (run calls w) in
  isTokenized (domain s' n) = true
  /\ name (domain s' n) = name (domain (snd w) n)
  /\ tokenizedAt (domain s' n) = tokenizedAt (domain (snd w) n)
  /\ exists o a,
       getDomainInfo n s'
       = Ok (o, true, tokenizedAt (domain (snd w) n), a).
Proof.
  intros Htok Hname. cbv zeta.
  assert (isTokenized (domain (snd (run calls w)) n) = true
          /\ name (domain (snd (run calls w)) n) = name (domain (snd w) n)
          /\ tokenizedAt (domain (snd (run calls w)) n)
             = tokenizedAt (domain (snd w) n)) as (Ht & Hn & Hat).
  { clear Hname. revert w Htok. induction calls as [|[e c] calls IH];
      intros w Htok; [done|].
    simpl.
    assert (isTokenized (domain (snd (exec e c w)) n) = true
            /\ name (domain (snd (exec e c w)) n) = name (domain (snd w) n)
            /\ tokenizedAt (domain (snd (exec e c w)) n)
               = tokenizedAt (domain (snd w) n)) as (Ht & Hn & Hat).
    { unfold exec. destruct w as [d s].
      destruct (step e c (d, s)) as [[[d' s'] evs]|err] eqn:Hstep; [|done].
      by eapply step_tokenized. }
    rewrite <- Hn, <- Hat. by apply IH. }
  split; [done|]. split; [done|]. split; [done|].
  unfold getDomainInfo, domainExists. rewrite Hn, Hname, Ht, Hat. simpl.
  eauto.
Qed.

Lemma tokenization_is_permanent_witness :
  let owner := mkEnv 1 0 0 97476 true [] in
  let pay := (mkEnv 7 DToken.FEATURE_COST 0 97476 true [],
              Ledger DToken.PayForFeature) in
  let user := mkEnv 7 0 100 97476 true [] in
  let w := run [(owner, Ledger (DToken.AuthorizeContract 50 true));
                pay; pay; (user, TokenizeDomain "a.io")]
             (DToken.constructor owner, constructor owner 50) in
  let calls := [(user, TransferDomain "a.io" 9);
                (owner, SyncDomainState "a.io" false);
                (mkEnv 9 0 300 97476 true [], TokenizeDomain "a.io")] in
  exists o a, getDomainInfo "a.io" (snd (run calls w)) = Ok (o, true, 100, a).
Proof.
  intros owner pay user w calls.
  destruct (tokenization_is_permanent calls w "a.io")
    as (_ & _ & _ & o & a & H);
    [vm_compute; reflexivity | vm_compute; reflexivity |].
  exists o, a. exact H.
Defined.

End DomainTokenization.

Section DomainRightsFacts.
Import DomainManagement DomainViews.

Lemma grantDomainRight_ok e n r h duration d s s' d' evs :
  grantDomainRight e n r h duration d s = Ok (s', (d', evs)) ->
  let expiry := if duration =? 0 then 0 else block_timestamp e + duration in
  is_empty (name (domain s n)) = false
  /\ owner (domain s n) = msg_sender e
  /\ domains s' =
     <[n := set_rights (<[r := h]> (rights (domain s n))) (domain s n)]>
       (domains s)
  /\ domainRights s' =
     push_at n
       (mkRights r ("Right: " +:+ r +:+ " for domain: " +:+ n) h
          (block_timestamp e) expiry) (domainRights s)
  /\ userDomains s' = userDomains s.
Proof.
  unfold grantDomainRight, domainExists, onlyDomainOwner. intros H.
  invert_ok. simplify_eq. unfold domain in *. cbn in *.
  destruct (duration =? 0) eqn:Hd; simpl in *; invert_ok; simplify_eq; done.
Qed.

Lemma revokeDomainRight_ok e n r s s' evs :
  revokeDomainRight e n r s = Ok (s', evs) ->
  is_empty (name (domain s n)) = false
  /\ owner (domain s n) = msg_sender e
  /\ mget 0 (rights (domain s n)) r <> 0
  /\ domains s' =
     <[n := set_rights (<[r := 0]> (rights (domain s n))) (domain s n)]>
       (domains s)
  /\ domainRights s' = domainRights s
  /\ _status s' = _status s
  /\ evs = [DomainRightRevoked n r (mget 0 (rights (domain s n)) r)]
  /\ msg_value e = 0.
Proof.
  unfold revokeDomainRight, domainExists, onlyDomainOwner. intros H.
  invert_ok. by simplify_eq.
Qed.

(** The scan of the history passes over the records that do not carry the
    right name and the user. *)
Lemma hasRight_loop_app now r u history x :
  never_granted r u history ->
  hasRight_loop now r u (history ++ [x]) = hasRight_loop now r u [x].
Proof.
  induction 1 as [|y history Hy _ IH]; [done|].
  simpl. unfold keccak_eq.
  destruct (bool_decide (rightName y = r) && bool_decide (holder y = u))
    eqn:Hm; [|exact IH].
  apply andb_true_iff in Hm as [H1 H2].
  apply bool_decide_eq_true in H1, H2. by destruct Hy.
Qed.

(** X22: A first grant is honoured until it expires: a successful
    [grantDomainRight] sets the live holder of the right and appends one
    record to the history, with expiry 0 for duration 0 and the time of the
    call plus the duration otherwise; when the history had no record of this
    right for this holder, [hasRight] then answers true for the holder at
    any time before the expiry, or at any time for a permanent grant, and
    false from the expiry on. *)
Theorem grant_then_hasRight (e e' : env) (n r : string) (h : address)
    (duration : Z) (d d' : DToken.state) (s s' : state)
    (evs : list effect) :
  0 <= block_timestamp e -> 0 <= duration ->
  grantDomainRight e n r h duration d s = Ok (s', (d', evs)) ->
  let expiry := if duration =? 0 then 0 else block_timestamp e + duration in
  mget 0 (rights (domain s' n)) r = h
  /\ mget [] (domainRights s') n
     = mget [] (domainRights s) n
       ++ [mkRights r ("Right: " +:+ r +:+ " for domain: " +:+ n) h
             (block_timestamp e) expiry]
  /\ (never_granted r h (mget [] (domainRights s) n) ->
      hasRight e' n r h s'
      = Ok ((duration =? 0)
            || (block_timestamp e' <? block_timestamp e + duration))).
Proof.
  intros Hnow Hdur Hok expiry.
  apply grantDomainRight_ok in Hok as (Hex & _ & Hd & Hh & _).
  fold expiry in Hh.
  assert (domain s' n
          = set_rights (<[r := h]> (rights (domain s n))) (domain s n))
    as Hdom.
  { unfold domain at 1. by rewrite Hd, mget_insert_eq. }
  split; [|split].
  - rewrite Hdom. simpl. by rewrite mget_insert_eq.
  - by rewrite Hh, mget_push_at, decide_True.
  - intros Hfirst. unfold hasRight, domainExists. rewrite Hdom. simpl.
    rewrite Hex. simpl. rewrite mget_insert_eq, Z.eqb_refl. simpl.
    rewrite Hh, mget_push_at, decide_True by done.
    rewrite hasRight_loop_app by done. simpl. unfold keccak_eq.
    rewrite !bool_decide_eq_true_2 by done. simpl. f_equal.
    unfold expiry. destruct (duration =? 0) eqn:Hz; [done|].
    apply Z.eqb_neq in Hz. simpl.
    destruct (block_timestamp e + duration =? 0) eqn:Hs; [|done].
    apply Z.eqb_eq in Hs. lia.
Qed.

Lemma grant_then_hasRight_witness :
  let owner := mkEnv 1 0 0 97476 true [] in
  let pay := (mkEnv 7 DToken.FEATURE_COST 0 97476 true [],
              Ledger DToken.PayForFeature) in
  let at_ t := mkEnv 7 0 t 97476 true [] in
  let w := run [(owner, Ledger (DToken.AuthorizeContract 50 true));
                pay; pay; (at_ 100, TokenizeDomain "a.io")]
             (DToken.constructor owner, constructor owner 50) in
  exists s' d' evs,
    grantDomainRight (at_ 100) "a.io" "DNS" 9 10 (fst w) (snd w)
    = Ok (s', (d', evs))
    /\ hasRight (at_ 109) "a.io" "DNS" 9 s' = Ok true
    /\ hasRight (at_ 110) "a.io" "DNS" 9 s' = Ok false.
Proof.
  intros owner pay at_ w.
  destruct (grantDomainRight (at_ 100) "a.io" "DNS" 9 10 (fst w) (snd w))
    as [[s' [d' evs]]|err] eqn:H; [|vm_compute in H; discriminate H].
  exists s', d', evs. split; [reflexivity|]. split.
  - destruct (grant_then_hasRight (at_ 100) (at_ 109) "a.io" "DNS" 9 10
                (fst w) d' (snd w) s' evs) as (_ & _ & Hr);
      [by vm_compute | lia | exact H |].
    rewrite Hr; [reflexivity | vm_compute; constructor].
  - destruct (grant_then_hasRight (at_ 100) (at_ 110) "a.io" "DNS" 9 10
                (fst w) d' (snd w) s' evs) as (_ & _ & Hr);
      [by vm_compute | lia | exact H |].
    rewrite Hr; [reflexivity | vm_compute; constructor].
Defined.

(** X23: Revoking clears the right for every holder but the zero address: after
    a successful [revokeDomainRight] the query [hasRight] answers false for
    every nonzero address, the history is as it was, the event names the
    holder that was revoked, and revoking the same right again fails with
    [RightNotExists]. *)
Theorem revoke_clears_the_right (e e' : env) (n r : string) (s s' : state)
    (evs : list effect) :
  revokeDomainRight e n r s = Ok (s', evs) ->
  (forall u, u <> 0 -> hasRight e' n r u s' = Ok false)
  /\ domainRights s' = domainRights s
  /\ evs = [DomainRightRevoked n r (mget 0 (rights (domain s n)) r)]
  /\ mget 0 (rights (domain s n)) r <> 0
  /\ revokeDomainRight e n r s' = Revert RightNotExists.
Proof.
  intros Hok.
  apply revokeDomainRight_ok in Hok
    as (Hex & Hown & Hheld & Hd & Hh & _ & -> & Hzero).
  assert (domain s' n
          = set_rights (<[r := 0]> (rights (domain s n))) (domain s n))
    as Hdom.
  { unfold domain at 1. by rewrite Hd, mget_insert_eq. }
  split; [|split; [done|split; [done|split; [done|]]]].
  - intros u Hu. unfold hasRight, domainExists. rewrite Hdom. simpl.
    rewrite Hex. simpl. rewrite mget_insert_eq.
    destruct (0 =? u) eqn:Hz; [apply Z.eqb_eq in Hz; congruence | done].
  - unfold revokeDomainRight, nonpayable, domainExists, onlyDomainOwner.
    rewrite Hzero, Hdom. simpl. rewrite Hex, Hown. simpl.
    rewrite bool_decide_eq_true_2 by done. simpl.
    by rewrite mget_insert_eq.
Qed.

Lemma revoke_clears_the_right_witness :
  let owner := mkEnv 1 0 0 97476 true [] in
  let pay := (mkEnv 7 DToken.FEATURE_COST 0 97476 true [],
              Ledger DToken.PayForFeature) in
  let at_ t := mkEnv 7 0 t 97476 true [] in
  let w := run [(owner, Ledger (DToken.AuthorizeContract 50 true));
                pay; pay; (at_ 100, TokenizeDomain "a.io");
                (at_ 100, GrantDomainRight "a.io" "DNS" 9 0)]
             (DToken.constructor owner, constructor owner 50) in
  hasRight (at_ 200) "a.io" "DNS" 9 (snd w) = Ok true
  /\ exists s',
       revokeDomainRight (at_ 200) "a.io" "DNS" (snd w)
       = Ok (s', [DomainRightRevoked "a.io" "DNS" 9])
       /\ hasRight (at_ 200) "a.io" "DNS" 9 s' = Ok false
       /\ length (mget [] (domainRights s') "a.io") = 1%nat.
Proof.
  intros owner pay at_ w. split; [vm_compute; reflexivity|].
  destruct (revokeDomainRight (at_ 200) "a.io" "DNS" (snd w))
    as [[s' evs]|err] eqn:H; [|vm_compute in H; discriminate H].
  destruct (revoke_clears_the_right (at_ 200) (at_ 200) _ _ _ _ _ H)
    as (Hno & Hh & -> & _).
  exists s'. split; [vm_compute; reflexivity|]. split.
  - apply Hno. discriminate.
  - rewrite Hh. vm_compute. reflexivity.
Defined.

End DomainRightsFacts.

Section DomainCatalogue.
Import DomainManagement DomainViews.

(** What a call other than a tokenization leaves alone: the global list
    and the tokenized flags. *)
Lemma step_catalogue_other e c d s d' s' evs :
  step e c (d, s) = Ok (d', s', evs) ->
  (forall n, c <> TokenizeDomain n) ->
  allDomains s' = allDomains s
  /\ forall n, isTokenized (domain s' n) = isTokenized (domain s n).
Proof.
  intros Hstep Hc. destruct c; try (by destruct (Hc domainName));
    simpl in Hstep; invert_ok; simplify_eq.
  - match goal with H : grantDomainRight _ _ _ _ _ _ _ = _ |- _ =>
      unfold grantDomainRight in H end.
    invert_ok. simplify_eq. cbn. split; [done|]. intros n. unfold domain. cbn.
    rewrite mget_insert. case_decide; by subst.
  - match goal with H : revokeDomainRight _ _ _ _ = _ |- _ =>
      unfold revokeDomainRight in H end.
    invert_ok. simplify_eq. cbn. split; [done|]. intros n. unfold domain. cbn.
    rewrite mget_insert. case_decide; by subst.
  - match goal with H : transferDomain _ _ _ _ _ = _ |- _ =>
      unfold transferDomain in H end.
    invert_ok. simplify_eq. cbn. split; [done|]. intros n. unfold domain. cbn.
    rewrite mget_insert. case_decide; by subst.
  - match goal with H : syncDomainState _ _ _ _ = _ |- _ =>
      unfold syncDomainState in H end.
    invert_ok. simplify_eq. cbn. split; [done|]. intros n. unfold domain. cbn.
    rewrite mget_insert. case_decide; by subst.
  - unfold transferOwnership in *. invert_ok. by simplify_eq.
  - done.
Qed.

(** X24: The global list is the catalogue of the tokenized names: in every
    reachable registry it has no duplicates and holds exactly the names that
    are tokenized, so [getTotalDomains] is their number. *)
Theorem catalogue_is_exact (w : DToken.state * state) :
  reachable w ->
  NoDup (allDomains (snd w))
  /\ forall n, n ∈ allDomains (snd w) <-> isTokenized (domain (snd w) n) = true.
Proof.
  induction 1 as [e1 e2 this|e c [d s] _ [IHnd IHin]].
  - split; [constructor|]. intros n. simpl. split; [|done].
    intros Hn. by apply not_elem_of_nil in Hn.
  - unfold exec.
    destruct (step e c (d, s)) as [[[d' s'] evs]|err] eqn:Hstep; [|done].
    cbn [snd] in *.
    destruct c;
      try (destruct (step_catalogue_other _ _ _ _ _ _ _ Hstep) as (-> & Ht);
           [done|]; split; [done|]; intros n; by rewrite Ht).
    simpl in Hstep. invert_ok. simplify_eq.
    match goal with H : tokenizeDomain _ _ _ _ = _ |- _ =>
      pose proof H as Hall; apply tokenizeDomain_ok in H
        as (_ & Hfresh & Hd & _) end.
    assert (allDomains s' = allDomains s ++ [domainName]) as ->.
    { unfold tokenizeDomain in Hall. invert_ok. by simplify_eq. }
    split.
    + apply NoDup_app. split; [done|]. split; [|apply NoDup_singleton].
      intros x Hx Hx'. apply list_elem_of_singleton in Hx'. subst.
      apply IHin in Hx. congruence.
    + intros n. rewrite elem_of_app, list_elem_of_singleton, IHin.
      unfold domain. rewrite Hd, mget_insert. case_decide; subst; simpl.
      * split; [done | by right].
      * split; [by intros [?|?] | by left].
Qed.

Lemma catalogue_is_exact_witness :
  let owner := mkEnv 1 0 0 97476 true [] in
  let pay := (mkEnv 7 DToken.FEATURE_COST 0 97476 true [],
              Ledger DToken.PayForFeature) in
  let user := mkEnv 7 0 100 97476 true [] in
  let w := run [(owner, Ledger (DToken.AuthorizeContract 50 true));
                pay; pay; pay;
                (user, TokenizeDomain "a.io");
                (user, TokenizeDomain "a.io");
                (user, TokenizeDomain "b.io")]
             (DToken.constructor owner, constructor owner 50) in
  NoDup (allDomains (snd w)) /\ getTotalDomains (snd w) = 2.
Proof.
  intros owner pay user w.
  destruct (catalogue_is_exact w) as (H & _);
    [apply reachable_run; constructor|].
  split; [exact H | vm_compute; reflexivity].
Defined.

(** X25: The rights do not follow the owner or the active flag: a successful
    [transferDomain] or [syncDomainState] leaves every answer of [hasRight],
    for every domain, right, address and time, as it was. *)
Theorem rights_survive_transfer_and_sync (e e' : env) (n : string)
    (s s' : state) :
  (forall to d d' evs,
     transferDomain e n to d s = Ok (s', (d', evs)) ->
     forall n' r u, hasRight e' n' r u s' = hasRight e' n' r u s)
  /\ (forall b evs,
        syncDomainState e n b s = Ok (s', evs) ->
        forall n' r u, hasRight e' n' r u s' = hasRight e' n' r u s).
Proof.
  assert (forall f : Domain -> Domain,
            (forall dm, name (f dm) = name dm /\ rights (f dm) = rights dm) ->
            domains s' = <[n := f (domain s n)]> (domains s) ->
            domainRights s' = domainRights s ->
            forall n' r u, hasRight e' n' r u s' = hasRight e' n' r u s)
    as Hsame.
  { intros f Hf Hd Hh n' r u. unfold hasRight, domainExists, domain.
    rewrite Hd, Hh, mget_insert.
    destruct (decide (n = n')) as [->|Hne]; [|done].
    destruct (Hf (domain s n')) as [-> ->]. done. }
  split.
  - intros to d d' evs Hok. apply (Hsame (set_owner_of to)); [done| |].
    + by apply transferDomain_ok in Hok as (_ & _ & -> & _).
    + unfold transferDomain in Hok. invert_ok. by simplify_eq.
  - intros b evs Hok. unfold syncDomainState in Hok. invert_ok. simplify_eq.
    by apply (Hsame (set_isActive b)).
Qed.

Lemma rights_survive_transfer_and_sync_witness :
  let owner := mkEnv 1 0 0 97476 true [] in
  let pay := (mkEnv 7 DToken.FEATURE_COST 0 97476 true [],
              Ledger DToken.PayForFeature) in
  let at_ t := mkEnv 7 0 t 97476 true [] in
  let w := run [(owner, Ledger (DToken.AuthorizeContract 50 true));
                pay; pay; pay; (at_ 100, TokenizeDomain "a.io");
                (at_ 100, GrantDomainRight "a.io" "DNS" 9 0)]
             (DToken.constructor owner, constructor owner 50) in
  exists s' d' evs,
    transferDomain (at_ 200) "a.io" 8 (fst w) (snd w) = Ok (s', (d', evs))
    /\ hasRight (at_ 300) "a.io" "DNS" 9 s' = Ok true.
Proof.
  intros owner pay at_ w.
  destruct (transferDomain (at_ 200) "a.io" 8 (fst w) (snd w))
    as [[s' [d' evs]]|err] eqn:H; [|vm_compute in H; discriminate H].
  exists s', d', evs. split; [reflexivity|].
  destruct (rights_survive_transfer_and_sync (at_ 200) (at_ 300) "a.io"
              (snd w) s') as (Ht & _).
  rewrite (Ht _ _ _ _ H). vm_compute. reflexivity.
Defined.

(** X26: Only its owner changes a domain: for a tokenized domain, a successful
    call made by anyone but the owner of the domain leaves the owner, the
    live rights and the grant history of the domain as they were. *)
Theorem only_the_owner_changes_a_domain (e : env) (c : call)
    (d d' : DToken.state) (s s' : state) (evs : list effect) (n : string) :
  step e c (d, s) = Ok (d', s', evs) ->
  isTokenized (domain s n) = true ->
  owner (domain s n) <> msg_sender e ->
  owner (domain s' n) = owner (domain s n)
  /\ rights (domain s' n) = rights (domain s n)
  /\ mget [] (domainRights s') n = mget [] (domainRights s) n.
Proof.
  intros Hstep Htok Hother.
  destruct c; simpl in Hstep; invert_ok; simplify_eq.
  - match goal with H : tokenizeDomain _ _ _ _ = _ |- _ =>
      pose proof H as Hh; apply tokenizeDomain_ok in H
        as (_ & Hfresh & Hd & _) end.
    assert (domainRights s' = domainRights s) as ->.
    { unfold tokenizeDomain in Hh. invert_ok. by simplify_eq. }
    unfold domain in *. rewrite Hd, mget_insert.
    case_decide; [subst; congruence | done].
  - match goal with H : grantDomainRight _ _ _ _ _ _ _ = _ |- _ =>
      apply grantDomainRight_ok in H as (_ & Hown & Hd & Hh & _) end.
    unfold domain in *. rewrite Hd, Hh, mget_insert, mget_push_at.
    case_decide; [subst; congruence | done].
  - match goal with H : revokeDomainRight _ _ _ _ = _ |- _ =>
      apply revokeDomainRight_ok in H as (_ & Hown & _ & Hd & Hh & _) end.
    unfold domain in *. rewrite Hd, Hh, mget_insert.
    case_decide; [subst; congruence | done].
  - match goal with H : transferDomain _ _ _ _ _ = _ |- _ =>
      pose proof H as Hh; apply transferDomain_ok in H
        as (_ & Hown & Hd & _) end.
    assert (domainRights s' = domainRights s) as ->.
    { unfold transferDomain in Hh. invert_ok. by simplify_eq. }
    unfold domain in *. rewrite Hd, mget_insert.
    case_decide; [subst; congruence | done].
  - match goal with H : syncDomainState _ _ _ _ = _ |- _ =>
      unfold syncDomainState in H end.
    invert_ok. simplify_eq. cbn. unfold domain. cbn.
    rewrite mget_insert. case_decide; by subst.
  - unfold transferOwnership in *. invert_ok. by simplify_eq.
  - done.
Qed.

Lemma only_the_owner_changes_a_domain_witness :
  let owner := mkEnv 1 0 0 97476 true [] in
  let pay u := (mkEnv u DToken.FEATURE_COST 0 97476 true [],
                Ledger DToken.PayForFeature) in
  let w := run [(owner, Ledger (DToken.AuthorizeContract 50 true));
                pay 7; pay 8;
                (mkEnv 7 0 100 97476 true [], TokenizeDomain "a.io")]
             (DToken.constructor owner, constructor owner 50) in
  let w' := exec (mkEnv 8 0 200 97476 true []) (TokenizeDomain "b.io") w in
  DomainManagement.owner (domain (snd w') "a.io") = 7
  /\ DomainManagement.owner (domain (snd w') "b.io") = 8.
Proof.
  intros owner pay w w'. split; [|vm_compute; reflexivity].
  destruct (step (mkEnv 8 0 200 97476 true []) (TokenizeDomain "b.io")
              (fst w, snd w)) as [[[d' s'] evs]|err] eqn:H;
    [|vm_compute in H; discriminate H].
  destruct (only_the_owner_changes_a_domain _ _ _ _ _ _ _ "a.io" H)
    as (Ho & _); [vm_compute; reflexivity | vm_compute; discriminate |].
  assert (snd w' = s') as ->.
  { unfold w', exec. rewrite (surjective_pairing w), H. reflexivity. }
  rewrite Ho. vm_compute. reflexivity.
Defined.

End DomainCatalogue.

Section DomainPages.
Import DomainManagement DomainViews.

Lemma copy_name_step (all res : list string) (offset : Z) (j : nat)
    (n : string) :
  0 <= offset ->
  all !! (Z.to_nat offset + j)%nat = Some n ->
  (j < length res)%nat ->
  copy_name all offset (offset + Z.of_nat j) res = Ok (<[j := n]> res).
Proof.
  intros Hoff Hn Hj. unfold copy_name, array_get, checked_sub, array_set.
  replace (Z.to_nat (offset + Z.of_nat j)) with (Z.to_nat offset + j)%nat
    by lia.
  rewrite Hn. simpl.
  destruct (offset <=? offset + Z.of_nat j) eqn:Hle;
    [|apply Z.leb_gt in Hle; lia].
  simpl.
  destruct (offset + Z.of_nat j - offset <? _) eqn:Hlt;
    [|apply Z.ltb_ge in Hlt; lia].
  do 2 f_equal. lia.
Qed.

(** After [j] rounds the first [j] cells of the result hold the first [j]
    names from [offset] on, and the other cells are still empty; [n] more
    rounds fill the next [n] cells. *)
Lemma copy_names_fill (all : list string) (offset : Z) (size n j : nat) :
  0 <= offset ->
  (j + n <= size)%nat ->
  (Z.to_nat offset + size <= length all)%nat ->
  for_loop n (offset + Z.of_nat j) (copy_name all offset)
    (take j (drop (Z.to_nat offset) all) ++ replicate (size - j) EmptyString)
  = Ok (take (j + n) (drop (Z.to_nat offset) all)
        ++ replicate (size - (j + n)) EmptyString).
Proof.
  intros Hoff. revert j. induction n as [|n IH]; intros j Hj Hsize.
  { simpl. by rewrite Nat.add_0_r. }
  cbn [for_loop].
  destruct (lookup_lt_is_Some_2 (drop (Z.to_nat offset) all) j) as [m Hm].
  { rewrite length_drop. lia. }
  assert (length (take j (drop (Z.to_nat offset) all)) = j) as Hlen.
  { rewrite length_take, length_drop. lia. }
  rewrite (copy_name_step _ _ _ _ m); [|done| |].
  2: { by rewrite lookup_drop in Hm. }
  2: { rewrite length_app, Hlen, length_replicate. lia. }
  simpl.
  rewrite insert_app_r_alt by lia. rewrite Hlen, Nat.sub_diag.
  destruct (size - j)%nat as [|k] eqn:Hk; [lia|]. simpl.
  replace (offset + Z.of_nat j + 1) with (offset + Z.of_nat (S j)) by lia.
  replace (take j (drop (Z.to_nat offset) all) ++ m :: replicate k EmptyString)
    with (take (S j) (drop (Z.to_nat offset) all)
          ++ replicate (size - S j) EmptyString).
  { rewrite IH by lia. do 3 f_equal; lia. }
  rewrite (take_S_r _ _ _ Hm), <- app_assoc. simpl.
  do 3 f_equal. lia.
Qed.

(** X27: The three outcomes of [getAllDomains]: an offset at or past the end
    gives the empty list, whatever the limit; an offset inside the list
    whose sum with the limit passes [2^256 - 1] reverts with the overflow
    panic; otherwise the result is the [limit] names that follow the first
    [offset], or as many as there are. *)
Theorem getAllDomains_outcomes (s : state) (offset limit : Z) :
  0 <= offset -> 0 <= limit ->
  (getTotalDomains s <= offset -> getAllDomains s offset limit = Ok [])
  /\ (offset < getTotalDomains s -> MAX_UINT256 < offset + limit ->
      getAllDomains s offset limit = Revert (Panic 17))
  /\ (offset + limit <= MAX_UINT256 ->
      getAllDomains s offset limit
      = Ok (take (Z.to_nat limit) (drop (Z.to_nat offset) (allDomains s)))).
Proof.
  intros Hoff Hlim. unfold getAllDomains, getTotalDomains.
  set (total := Z.of_nat (length (allDomains s))).
  split; [|split].
  - intros Hc. apply Z.leb_le in Hc. by rewrite Hc.
  - intros Hc Hover. apply Z.leb_gt in Hc. rewrite Hc. unfold checked_add.
    apply Z.leb_gt in Hover. by rewrite Hover.
  - intros Hfit. destruct (total <=? offset) eqn:Hc.
    { apply Z.leb_le in Hc. rewrite drop_ge by (unfold total in Hc; lia).
      by rewrite take_nil. }
    apply Z.leb_gt in Hc.
    unfold checked_add. apply Z.leb_le in Hfit. rewrite Hfit. simpl.
    set (end_ := if total <? offset + limit then total else offset + limit).
    assert (end_ = Z.min (offset + limit) total) as Hend.
    { unfold end_. destruct (total <? offset + limit) eqn:Hm;
        [apply Z.ltb_lt in Hm | apply Z.ltb_ge in Hm]; lia. }
    rewrite Hend. unfold checked_sub.
    destruct (offset <=? Z.min (offset + limit) total) eqn:Hle;
      [|apply Z.leb_gt in Hle; lia].
    simpl. unfold for_range.
    set (size := Z.to_nat (Z.min (offset + limit) total - offset)).
    pose proof (copy_names_fill (allDomains s) offset size size 0 Hoff) as H.
    simpl in H. rewrite Z.add_0_r, Nat.sub_0_r, Nat.sub_diag in H.
    simpl in H. rewrite app_nil_r in H.
    rewrite H; [|lia|unfold size, total; lia].
    f_equal.
    destruct (decide (offset + limit <= total)) as [Hin|Hout].
    + f_equal. unfold size. lia.
    + rewrite (take_ge _ (Z.to_nat limit))
        by (rewrite length_drop; unfold total in *; lia).
      apply take_ge. rewrite length_drop. unfold size, total in *. lia.
Qed.

Lemma getAllDomains_outcomes_witness :
  let owner := mkEnv 1 0 0 97476 true [] in
  let pay := (mkEnv 7 DToken.FEATURE_COST 0 97476 true [],
              Ledger DToken.PayForFeature) in
  let user := mkEnv 7 0 100 97476 true [] in
  let w := run [(owner, Ledger (DToken.AuthorizeContract 50 true));
                pay; pay; pay;
                (user, TokenizeDomain "a.io");
                (user, TokenizeDomain "b.io");
                (user, TokenizeDomain "c.io")]
             (DToken.constructor owner, constructor owner 50) in
  getAllDomains (snd w) 3 MAX_UINT256 = Ok []
  /\ getAllDomains (snd w) 1 MAX_UINT256 = Revert (Panic 17)
  /\ getAllDomains (snd w) 1 5 = Ok ["b.io"; "c.io"].
Proof.
  intros owner pay user w.
  split; [|split].
  - destruct (getAllDomains_outcomes (snd w) 3 MAX_UINT256) as (H & _ & _);
      [lia | vm_compute; discriminate |].
    apply H. vm_compute. discriminate.
  - destruct (getAllDomains_outcomes (snd w) 1 MAX_UINT256) as (_ & H & _);
      [lia | vm_compute; discriminate |].
    apply H; vm_compute; reflexivity.
  - destruct (getAllDomains_outcomes (snd w) 1 5) as (_ & _ & H);
      [lia | lia |].
    rewrite H; [|vm_compute; discriminate]. vm_compute. reflexivity.
Defined.

End DomainPages.

Section DomainZeroHolder.
Import DomainManagement.

(** X28: A grant to the zero address is accepted and cannot be revoked: after a
    successful [grantDomainRight] with holder 0 the live holder of the right
    reads as unset, so [revokeDomainRight] of that right succeeds for no
    caller, and for the owner of the domain, calling without value, it
    fails with [RightNotExists]; the record of the grant stays in the
    history. *)
Theorem grant_to_zero_address_is_irrevocable (e e2 : env) (n r : string)
    (duration : Z) (d d' : DToken.state) (s s' : state) (evs : list effect) :
  grantDomainRight e n r 0 duration d s = Ok (s', (d', evs)) ->
  is_ok (revokeDomainRight e2 n r s') = false
  /\ (msg_sender e2 = msg_sender e -> msg_value e2 = 0 ->
      revokeDomainRight e2 n r s' = Revert RightNotExists)
  /\ length (mget [] (domainRights s') n)
     = S (length (mget [] (domainRights s) n)).
Proof.
  intros Hok.
  apply grantDomainRight_ok in Hok as (Hex & Hown & Hd & Hh & _).
  assert (domain s' n
          = set_rights (<[r := 0]> (rights (domain s n))) (domain s n))
    as Hdom.
  { unfold domain at 1. by rewrite Hd, mget_insert_eq. }
  split; [|split].
  - unfold revokeDomainRight, nonpayable, domainExists, onlyDomainOwner.
    rewrite Hdom. simpl. rewrite Hex. simpl. rewrite mget_insert_eq.
    destruct (msg_value e2 =? 0); [|done]. simpl.
    by destruct (bool_decide (owner (domain s n) = msg_sender e2)).
  - intros Hsame Hzero.
    unfold revokeDomainRight, nonpayable, domainExists, onlyDomainOwner.
    rewrite Hzero, Hdom. simpl. rewrite Hex. simpl. rewrite mget_insert_eq.
    rewrite bool_decide_eq_true_2 by congruence. done.
  - rewrite Hh, mget_push_at. rewrite decide_True by done.
    rewrite length_app. simpl. lia.
Qed.

Lemma grant_to_zero_address_is_irrevocable_witness :
  let owner := mkEnv 1 0 0 97476 true [] in
  let pay := (mkEnv 7 DToken.FEATURE_COST 0 97476 true [],
              Ledger DToken.PayForFeature) in
  let at_ t := mkEnv 7 0 t 97476 true [] in
  let w := run [(owner, Ledger (DToken.AuthorizeContract 50 true));
                pay; pay; (at_ 100, TokenizeDomain "a.io")]
             (DToken.constructor owner, constructor owner 50) in
  exists s' d' evs,
    grantDomainRight (at_ 100) "a.io" "DNS" 0 0 (fst w) (snd w)
    = Ok (s', (d', evs))
    /\ hasRight (at_ 200) "a.io" "DNS" 0 s' = Ok true
    /\ revokeDomainRight (at_ 200) "a.io" "DNS" s' = Revert RightNotExists.
Proof.
  intros owner pay at_ w.
  destruct (grantDomainRight (at_ 100) "a.io" "DNS" 0 0 (fst w) (snd w))
    as [[s' [d' evs]]|err] eqn:H; [|vm_compute in H; discriminate H].
  exists s', d', evs. split; [reflexivity|].
  destruct (grant_to_zero_address_is_irrevocable (at_ 100) (at_ 200)
              _ _ _ _ _ _ _ _ H) as (_ & Hrev & _).
  split; [|by apply Hrev].
  vm_compute in H. injection H as <- _ _. vm_compute. reflexivity.
Defined.

End DomainZeroHolder.

Section DTokenAdministration.
Import DToken.

(** X29: What a caller other than the owner cannot do to the ledger: a
    successful call by anyone but the owner leaves the owner and the
    authorizations as they were, sends no ether out, and does not lower the
    ether that the ledger holds. *)
Theorem administration_is_the_owners (e : env) (c : call) (s s' : state)
    (evs : list effect) :
  0 <= msg_value e ->
  step e c s = Ok (s', evs) ->
  _owner s <> msg_sender e ->
  _owner s' = _owner s
  /\ authorizedContracts s' = authorizedContracts s
  /\ balance s <= balance s'
  /\ forall to amount, Transfer to amount ∉ evs.
Proof.
  intros Hval Hstep Hother.
  assert (forall u, onlyOwner e s <> Ok u) as Hno.
  { intros u. unfold onlyOwner. simpl. by rewrite bool_decide_eq_false_2. }
  destruct c; unfold step in Hstep; simpl in Hstep.
  - unfold authorizeContract in Hstep. invert_ok. by edestruct Hno.
  - unfold payForFeature in Hstep. invert_ok. simplify_eq. cbn.
    split_and!; try done; try lia; by in_singleton.
  - apply useFeature_usage in Hstep as Hu. destruct Hu as (_ & Hb & ->).
    unfold useFeature, onlyAuthorized in Hstep. invert_ok. simplify_eq.
    cbn in *. split_and!; try done; try lia; by in_singleton.
  - unfold withdrawETH_by in Hstep. invert_ok. by edestruct Hno.
  - unfold receive in Hstep. invert_ok. simplify_eq. cbn.
    split_and!; try done; try lia; by in_singleton.
  - unfold fallback in Hstep. invert_ok. simplify_eq. cbn.
    split_and!; try done; try lia; by in_singleton.
  - unfold transferOwnership in Hstep. invert_ok. by edestruct Hno.
Qed.

(** A user deposits, which leaves the administration as it was, and is
    then refused a withdrawal. *)
Lemma administration_is_the_owners_witness :
  let owner := mkEnv 1 0 0 97476 true [] in
  let payer := mkEnv 7 FEATURE_COST 0 97476 true [] in
  let user := mkEnv 7 0 0 97476 true [] in
  let s := run [(owner, AuthorizeContract 50 true)] (constructor owner) in
  exists s' evs,
    step payer PayForFeature s = Ok (s', evs)
    /\ _owner s' = 1
    /\ mget false (authorizedContracts s') 50 = true
    /\ step user (WithdrawETH 0) s'
       = Revert (OwnableUnauthorizedAccount 7).
Proof.
  intros owner payer user s.
  destruct (step payer PayForFeature s) as [[s' evs]|err] eqn:H;
    [|vm_compute in H; discriminate H].
  exists s', evs. split; [reflexivity|].
  destruct (administration_is_the_owners payer PayForFeature s s' evs)
    as (Ho & Ha & _); [by vm_compute | exact H | by vm_compute |].
  rewrite Ho, Ha. split; [by vm_compute|]. split; [by vm_compute|].
  vm_compute in H. injection H as <- _. vm_compute. reflexivity.
Defined.

(** X30: The guard of [withdrawETH] does not cover the entry points without
    guard, which the recipient can call while it holds the control: the
    transfer goes to the owner at the start of the call, and the withdrawal
    event, emitted after the transfer, names the owner at the end of the
    call, who is another address when the recipient has passed the ownership
    on; the guard is free again when the call returns. *)
Theorem withdrawal_event_names_the_final_owner (e : env) (amount : Z)
    (s s' : state) (evs : list effect) :
  withdrawETH e amount s = Ok (s', evs) ->
  let sent := if amount =? 0 then balance s else amount in
  head evs = Some (Transfer (_owner s) sent)
  /\ last evs = Some (PaymentWithdrawn (_owner s') sent)
  /\ _status s' = false
  /\ (reentry e = [] -> _owner s' = _owner s).
Proof.
  intros H sent.
  apply withdrawETH_ok in H
    as (_ & _ & _ & _ & _ & _ & s1 & evs1 & Hre & -> & ->).
  fold sent in Hre |- *.
  split_and!; try done.
  - change (Transfer (_owner s) sent
            :: evs1 ++ [PaymentWithdrawn (_owner s1) sent])
      with ((Transfer (_owner s) sent :: evs1)
            ++ [PaymentWithdrawn (_owner s1) sent]).
    by rewrite last_snoc.
  - intros Hnone. rewrite Hnone in Hre. simpl in Hre. by simplify_eq.
Qed.

(** The owner 1 withdraws 40 wei and, on receipt, passes the ownership on
    to 9 and switches the allow-list bit of 52 on. *)
Lemma withdrawal_event_names_the_final_owner_witness :
  let owner := mkEnv 1 0 0 97476 true [] in
  let s := run [(mkEnv 7 FEATURE_COST 0 97476 true [], PayForFeature)]
             (constructor owner) in
  let back := mkEnv 1 0 0 97476 true
                [(1, 0, AuthorizeContract 52 true);
                 (1, 0, TransferOwnership 9)] in
  exists s',
    withdrawETH back 40 s
    = Ok (s', [Transfer 1 40; ContractAuthorized 52 true;
               OwnershipTransferred 1 9; PaymentWithdrawn 9 40])
    /\ _owner s' = 9
    /\ mget false (authorizedContracts s') 52 = true.
Proof.
  intros owner s back.
  destruct (withdrawETH back 40 s) as [[s' evs]|err] eqn:H;
    [|vm_compute in H; discriminate H].
  destruct (withdrawal_event_names_the_final_owner _ _ _ _ _ H)
    as (_ & Hlast & _).
  assert (evs = [Transfer 1 40; ContractAuthorized 52 true;
                 OwnershipTransferred 1 9; PaymentWithdrawn 9 40]) as ->
    by (vm_compute in H; by injection H as _ <-).
  exists s'. split; [reflexivity|]. split.
  - simpl in Hlast. by injection Hlast as <-.
  - vm_compute in H. injection H as <-. reflexivity.
Defined.

End DTokenAdministration.
